(** * The Windows file system cache (compat/win32/fscache.c)

    A shallow embedding of the cache engine: the entry records and their
    case-insensitive identity, the reference-counted directory listings,
    the lookup routine [fscache_get] with its negative caching, the
    [lstat]/[opendir] replacements and the per-thread life cycle
    (enable, disable, flush, merge).

    Conventions.
    - C integers are [Z]; the wrap-around of [unsigned int], [long] and
      [unsigned short] is written out where the code computes with them.
    - A NUL-terminated buffer is a [string]; a ([name], [len]) pair of the
      code denotes the first [len] bytes of the buffer.
    - Storage is explicit: an [fsentry] value carries the address of the
      object it describes and the fields that never change once the entry is
      published; the reference count, the [next] chain and the union of stat
      members live in the heap of the [world].
    - The singly linked [next] chain of a listing is a Rocq list. *)

From Stdlib Require Import ZArith String Ascii List Lia Bool.
From stdpp Require Import base option gmap list strings.

Local Open Scope Z_scope.
Local Set Warnings "-register-all".

(** ** Machine integers *)

Definition wrap_uint (z : Z) : Z := z mod 2 ^ 32.
Definition wrap_long (z : Z) : Z := (z + 2 ^ 31) mod 2 ^ 32 - 2 ^ 31.
Definition wrap_ushort (n : nat) : nat := Z.to_nat (Z.of_nat n mod 2 ^ 16).
Definition wrap_off64 (z : Z) : Z := (z + 2 ^ 63) mod 2 ^ 64 - 2 ^ 63.

(** ** Constants of the platform headers *)

Definition ENOENT : Z := 2.
Definition ENOTDIR : Z := 20.
Definition ERROR_NO_MORE_FILES : Z := 18.
Definition ERROR_DIRECTORY : Z := 267.
Definition IO_REPARSE_TAG_SYMLINK : Z := 0xA000000C.
Definition S_IFMT : Z := 0xF000.
Definition S_IFDIR : Z := 0x4000.
Definition S_IFLNK : Z := 0xA000.
Definition MAX_PATH : nat := 260.
Definition MAX_LONG_PATH : Z := 4096.
Definition TLS_OUT_OF_INDEXES : Z := 0xFFFFFFFF.

Definition S_ISLNK (m : Z) : bool := Z.land m S_IFMT =? S_IFLNK.

(** ** Byte strings *)

Definition code (c : ascii) : Z := Z.of_nat (nat_of_ascii c).

Definition tolower (c : ascii) : ascii :=
  let n := nat_of_ascii c in
  if ((65 <=? n)%nat && (n <=? 90)%nat)%bool then ascii_of_nat (n + 32) else c.

(** The first [n] bytes of a buffer ([memcpy (nm, name, n); nm[n] = 0]). *)
Fixpoint memcpy (name : string) (n : nat) {struct n} : string :=
  match n, name with
  | S n', String c r => String c (memcpy r n')
  | _, _ => EmptyString
  end.

(** [name + n]: the buffer from offset [n] on. *)
Fixpoint offset (name : string) (n : nat) {struct n} : string :=
  match n, name with
  | S n', String _ r => offset r n'
  | _, _ => name
  end.

Fixpoint lower (s : string) : string :=
  match s with
  | EmptyString => EmptyString
  | String c r => String (tolower c) (lower r)
  end.

(** [strnicmp] of the C runtime: compares at most [n] bytes, folding case,
    and stops at the terminating NUL. *)
Fixpoint strnicmp (s1 s2 : string) (n : nat) {struct n} : Z :=
  match n with
  | O => 0
  | S n' =>
    match s1, s2 with
    | EmptyString, EmptyString => 0
    | EmptyString, String c2 _ => 0 - code (tolower c2)
    | String c1 _, EmptyString => code (tolower c1)
    | String c1 r1, String c2 r2 =>
      let d := code (tolower c1) - code (tolower c2) in
      if d =? 0 then strnicmp r1 r2 n' else d
    end
  end.

(** ** Entries *)

Record timespec := { tv_sec : Z; tv_nsec : Z }.

(** Where an object lives: a local variable of the running function or a
    block returned by [xmalloc]. *)
Inductive ptr := StackObj (slot : nat) | HeapObj (a : positive).

Definition ptr_eqb (p q : ptr) : bool :=
  match p, q with
  | StackObj m, StackObj n => Nat.eqb m n
  | HeapObj a, HeapObj b => Pos.eqb a b
  | _, _ => false
  end.

(** [struct fsentry], without the members that change after the entry is
    built ([next] and the union, see [hcell]).  [fse_list] is the member
    [list]: the listing an entry belongs to, [None] for the listing itself. *)
Inductive fsentry := Fsentry {
  addr : ptr;
  ent_hash : Z;
  st_mode : Z;
  len : nat;
  name : string;
  fse_list : option fsentry
}.

Fixpoint depth (e : fsentry) : nat :=
  match fse_list e with
  | None => O
  | Some l => S (depth l)
  end.

(** Identity of objects.  Two pointers are equal when they denote the same
    object, that is the same address holding the same entry. *)
Fixpoint same_object (a b : fsentry) : bool :=
  ptr_eqb (addr a) (addr b) && (ent_hash a =? ent_hash b) &&
  (st_mode a =? st_mode b) && Nat.eqb (len a) (len b) &&
  String.eqb (name a) (name b) &&
  match fse_list a, fse_list b with
  | None, None => true
  | Some x, Some y => same_object x y
  | _, _ => false
  end.

(** [fse->list ? fse->list : fse] *)
Definition list_or_self (fse : fsentry) : fsentry :=
  match fse_list fse with
  | Some l => l
  | None => fse
  end.

(** Compares the paths of two fsentry structures for equality. *)
Fixpoint fsentry_cmp (fse1 : fsentry) {struct fse1} : fsentry -> Z :=
  fix cmp1 (fse2 : fsentry) {struct fse2} : Z :=
    if same_object fse1 fse2 then 0 else
    (* compare the list parts first *)
    let res :=
      match fse_list fse1, fse_list fse2 with
      | None, None => 0
      | Some l1, Some l2 => if same_object l1 l2 then 0 else fsentry_cmp l1 l2
      | Some l1, None => fsentry_cmp l1 fse2
      | None, Some l2 => cmp1 l2
      end in
    if negb (res =? 0) then res else
    (* if list parts are equal, compare len and name *)
    if negb (Nat.eqb (len fse1) (len fse2))
    then Z.of_nat (len fse1) - Z.of_nat (len fse2)
    else strnicmp (name fse1) (name fse2) (len fse1).

(** ** What the code takes from its surroundings

    Functions of the repository and of the platform that [fscache.c] calls
    but does not define: the hash of [hashmap.c], the helpers of
    [compat/mingw.c], the character conversions, the configuration, and the
    file system as one enumeration oracle. *)

(** [WIN32_FIND_DATAW]: a FILETIME is kept as one 64-bit number. *)
Record WIN32_FIND_DATAW := {
  dwFileAttributes : Z;
  ftCreationTime : Z;
  ftLastAccessTime : Z;
  ftLastWriteTime : Z;
  nFileSizeHigh : Z;
  nFileSizeLow : Z;
  dwReserved0 : Z;
  cFileName : list Z
}.

(** What one run of the enumeration calls in [fsentry_create_list] meets:
    [xutftowcs_path_ex] refuses the name (leaving its [errno]);
    [FindFirstFileExW] returns no handle and [GetLastError] is [err]; or the
    first record and those for which [FindNextFileW] succeeded, with the
    [GetLastError] that follows the last [FindNextFileW]. *)
Inductive find_result :=
| Name_refused (e : Z)
| No_handle (err : Z)
| Found (first : WIN32_FIND_DATAW) (more : list WIN32_FIND_DATAW) (last_err : Z).

(** The struct arm of the union of [struct fsentry]. *)
Record statdata := {
  st_size : Z;
  st_atim : timespec;
  st_mtim : timespec;
  st_ctim : timespec
}.

Class Platform := {
  (* hashmap.c: the case-insensitive hash of [len] bytes *)
  memihash : string -> nat -> Z;
  (* compat/mingw.c *)
  err_win_to_posix : Z -> Z;
  file_attr_to_st_mode : Z -> Z -> string -> Z;
  filetime_to_timespec : Z -> timespec;
  is_inside_windows_container : bool;
  (* UTF-16 to UTF-8; the file name comes as its code units *)
  xwcstoutf : list Z -> string;
  is_absolute_path : string -> bool;
  (* xutftowcs_path_ex, FindFirstFileExW, FindNextFileW and GetLastError on
     the directory named by the first [len] bytes of [name] *)
  find_files : string -> find_result;
  (* what the stat members read when the union holds a reference count: a
     matter of memory layout *)
  stat_of_refcnt : Z -> statdata;
  (* git_env_bool ("GIT_TEST_FSCACHE", -1) *)
  GIT_TEST_FSCACHE : Z;
  (* the index TlsAlloc returns, and whether TlsSetValue succeeds *)
  TlsAlloc : Z;
  TlsSetValue_ok : bool
}.

(** ** Storage *)

(** The union: the reference count of a directory listing, or the stat
    members of a file entry. *)
Inductive fsunion :=
| U_refcnt (refcnt : Z)
| U_stat (sd : statdata).

(** The mutable part of an allocated entry: the entries that follow it
    through [next], and the union. *)
Record hcell := {
  h_next : list fsentry;
  h_un : fsunion
}.

Record memory := {
  errno : Z;
  heap : gmap positive hcell;
  brk : positive;            (* the next block [xmalloc] hands out *)
  freed : list ptr;          (* the calls of [free], oldest first *)
  find_log : list string     (* the calls of [FindFirstFileExW], oldest first *)
}.

Definition with_errno (e : Z) (m : memory) : memory :=
  {| errno := e; heap := heap m; brk := brk m; freed := freed m;
     find_log := find_log m |}.

Definition with_heap (h : gmap positive hcell) (m : memory) : memory :=
  {| errno := errno m; heap := h; brk := brk m; freed := freed m;
     find_log := find_log m |}.

Definition log_find (pattern : string) (m : memory) : memory :=
  {| errno := errno m; heap := heap m; brk := brk m; freed := freed m;
     find_log := find_log m ++ [pattern] |}.

Definition heap_at (m : memory) (p : ptr) : option hcell :=
  match p with
  | HeapObj a => heap m !! a
  | StackObj _ => None
  end.

Definition heap_store (p : ptr) (c : hcell) (m : memory) : memory :=
  match p with
  | HeapObj a => with_heap (<[a := c]> (heap m)) m
  | StackObj _ => m
  end.

(** [xmalloc]: a block nobody else holds. *)
Definition xmalloc (m : memory) : ptr * memory :=
  (HeapObj (brk m),
   {| errno := errno m; heap := heap m; brk := Pos.succ (brk m);
      freed := freed m; find_log := find_log m |}).

(** [free] *)
Definition free (p : ptr) (m : memory) : memory :=
  {| errno := errno m;
     heap := match p with HeapObj a => delete a (heap m) | StackObj _ => heap m end;
     brk := brk m; freed := freed m ++ [p]; find_log := find_log m |}.

(** [fse->next] and the entries after it. *)
Definition next_chain (m : memory) (fse : fsentry) : list fsentry :=
  match heap_at m (addr fse) with
  | Some c => h_next c
  | None => []
  end.

Definition set_st_mode (mode : Z) (fse : fsentry) : fsentry :=
  Fsentry (addr fse) (ent_hash fse) mode (len fse) (name fse) (fse_list fse).

Section Cache.
Context {P : Platform}.

(** Calculates the hash code of an fsentry structure's path. *)
Definition fsentry_hash (fse : fsentry) : Z :=
  let hash := match fse_list fse with Some l => ent_hash l | None => 0 end in
  Z.lxor hash (memihash (name fse) (len fse)).

(** Initialize an fsentry structure for use by fsentry_hash and fsentry_cmp.
    [fse] is the storage written to; members not assigned keep what the
    storage held. *)
Definition fsentry_init (fse : fsentry) (lst : option fsentry)
    (nm : string) (n : nat) : fsentry :=
  let fse := Fsentry (addr fse) (ent_hash fse) (st_mode fse)
                     (wrap_ushort n) nm lst in
  Fsentry (addr fse) (fsentry_hash fse) (st_mode fse) (len fse)
          (name fse) (fse_list fse).

(** Storage before its first assignment; the model fills it with zeroes. *)
Definition blank (p : ptr) : fsentry := Fsentry p 0 0 0 EmptyString None.

(** Allocate an fsentry structure on the heap. *)
Definition fsentry_alloc (lst : option fsentry) (buf : string) (n : nat)
    (m : memory) : fsentry * memory :=
  (* overallocate fsentry and copy the name to the end *)
  let '(p, m) := xmalloc m in
  let nm := memcpy buf n in
  (* init the rest of the structure *)
  let fse := fsentry_init (blank p) lst nm n in
  (fse, heap_store (addr fse) {| h_next := []; h_un := U_refcnt 1 |} m).

(** Add a reference to an fsentry.  A count that is not there (storage
    already freed, or the union holding stat members) is undefined in C; the
    model leaves the memory as it is. *)
Definition fsentry_addref (fse : fsentry) (m : memory) : memory :=
  let fse := list_or_self fse in
  match heap_at m (addr fse) with
  | Some {| h_next := nx; h_un := U_refcnt r |} =>
    heap_store (addr fse) {| h_next := nx; h_un := U_refcnt (wrap_long (r + 1)) |} m
  | _ => m
  end.

(** Release the reference to an fsentry, frees the memory if its the last
    ref. *)
Definition fsentry_release (fse : fsentry) (m : memory) : memory :=
  let fse := list_or_self fse in
  match heap_at m (addr fse) with
  | Some {| h_next := nx; h_un := U_refcnt r |} =>
    let r' := wrap_long (r - 1) in
    let m := heap_store (addr fse) {| h_next := nx; h_un := U_refcnt r' |} m in
    if negb (r' =? 0) then m
    else fold_left (fun m e => free (addr e) m) (fse :: nx) m
  | _ => m
  end.

(** Allocate and initialize an fsentry from a WIN32_FIND_DATA structure. *)
Definition fseentry_create_entry (lst : option fsentry)
    (fdata : WIN32_FIND_DATAW) (m : memory) : fsentry * memory :=
  let buf := xwcstoutf (cFileName fdata) in
  let n := String.length buf in
  let '(fse, m) := fsentry_alloc lst buf n m in
  (* a symbolic link seen from inside a Windows container: hand the full
     path to file_attr_to_st_mode *)
  let buf :=
    if (dwReserved0 fdata =? IO_REPARSE_TAG_SYMLINK) &&
       (match lst with Some l => len l + 1 | None => 0 end + len fse + 1
          <? MAX_PATH * 3)%nat &&
       is_inside_windows_container
    then
      match lst with
      | Some l => memcpy (name l) (len l) +:+ "/" +:+ memcpy (name fse) (len fse)
      | None => memcpy (name fse) (len fse)
      end
    else buf in
  let mode := file_attr_to_st_mode (dwFileAttributes fdata) (dwReserved0 fdata) buf in
  let fse := set_st_mode mode fse in
  let sd := {|
    st_size := if S_ISLNK mode then MAX_LONG_PATH
               else Z.lor (nFileSizeLow fdata)
                          (wrap_off64 (Z.shiftl (nFileSizeHigh fdata) 32));
    st_atim := filetime_to_timespec (ftLastAccessTime fdata);
    st_mtim := filetime_to_timespec (ftLastWriteTime fdata);
    st_ctim := filetime_to_timespec (ftCreationTime fdata) |} in
  (fse, heap_store (addr fse) {| h_next := []; h_un := U_stat sd |} m).

(** The loop of [fsentry_create_list]: one entry per record, in order. *)
Fixpoint create_entries (lst : fsentry) (fdatas : list WIN32_FIND_DATAW)
    (m : memory) : list fsentry * memory :=
  match fdatas with
  | [] => ([], m)
  | fdata :: rest =>
    let '(fse, m) := fseentry_create_entry (Some lst) fdata m in
    let '(l, m) := create_entries lst rest m in
    (fse :: l, m)
  end.

(** The [phead] assignments of the loop: every entry of the chain gets the
    entries after it as its [next]. *)
Fixpoint link_chain (nodes : list fsentry) (m : memory) : memory :=
  match nodes with
  | [] => m
  | fse :: rest =>
    let m :=
      match heap_at m (addr fse) with
      | Some c => heap_store (addr fse) {| h_next := rest; h_un := h_un c |} m
      | None => m
      end in
    link_chain rest m
  end.

(** Create an fsentry-based directory listing (similar to opendir /
    readdir).  Returns the listing and the flag [*dir_not_found]. *)
Definition fsentry_create_list (dir : fsentry) (m : memory)
    : option fsentry * bool * memory :=
  let path := memcpy (name dir) (len dir) in
  match find_files path with
  | Name_refused e =>
    (* convert name to UTF-16 and check length *)
    (None, false, with_errno e m)
  | No_handle err =>
    (* open find handle *)
    let m := log_find path m in
    let m := with_errno (if err =? ERROR_DIRECTORY then ENOTDIR
                         else err_win_to_posix err) m in
    (None, true (* or empty directory *), m)
  | Found first more err =>
    let m := log_find path m in
    (* allocate object to hold directory listing *)
    let '(lst, m) := fsentry_alloc None (name dir) (len dir) m in
    let lst := set_st_mode S_IFDIR lst in
    (* walk directory and build linked list of fsentry structures *)
    let '(entries, m) := create_entries lst (first :: more) m in
    let m := link_chain (lst :: entries) m in
    (* return the list if we've got all the files *)
    if err =? ERROR_NO_MORE_FILES then (Some lst, false, m)
    else
      (* otherwise free the list and return error *)
      let m := fsentry_release lst m in
      (None, false, with_errno (err_win_to_posix err) m)
  end.

(** ** The cache table *)

(** Modelled from the spec: the Cache Table is the [hashmap] of
    [hashmap.c], which is not under src/.  "Insert (no dedup check required
    by callers), lookup-by-key (returns the stored Entry or not found),
    clear-all, and ordered iteration over all stored entries": a list, the
    entry added last in front.  The initial capacity has no part in it. *)
Definition hashmap := list fsentry.

(** Modelled from the spec: the key comparison of the table, which is not
    under src/.  An entry matches a key when it is the key itself, or has
    the key's precomputed hash and [fsentry_cmp] finds them equal. *)
Definition entry_equals (e key : fsentry) : bool :=
  same_object e key || ((ent_hash e =? ent_hash key) && (fsentry_cmp e key =? 0)).

(** Modelled from the spec: [hashmap_get], not under src/; "lookup-by-key
    (returns the stored Entry or not found)". *)
Definition hashmap_get (map : hashmap) (key : fsentry) : option fsentry :=
  List.find (fun e => entry_equals e key) map.

(** Modelled from the spec: [hashmap_add], not under src/; "insert (no dedup
    check)". *)
Definition hashmap_add (map : hashmap) (e : fsentry) : hashmap := e :: map.

(** Modelled from the spec: [hashmap_free (map, 1)], not under src/;
    "clear-all (releases every header's backing allocation and resets to
    empty)": every entry of the table is handed to [free]. *)
Definition hashmap_free (map : hashmap) (m : memory) : memory :=
  fold_left (fun m e => free (addr e) m) map m.

(** [struct fscache] *)
Record fscache := {
  enabled : Z;
  map : hashmap;
  lstat_requests : Z;
  opendir_requests : Z;
  fscache_requests : Z;
  fscache_misses : Z
}.

Definition with_map (mp : hashmap) (cache : fscache) : fscache :=
  {| enabled := enabled cache; map := mp;
     lstat_requests := lstat_requests cache;
     opendir_requests := opendir_requests cache;
     fscache_requests := fscache_requests cache;
     fscache_misses := fscache_misses cache |}.

(** [cache->fscache_requests++] and the other counters. *)
Definition incr_fscache_requests (cache : fscache) : fscache :=
  {| enabled := enabled cache; map := map cache;
     lstat_requests := lstat_requests cache;
     opendir_requests := opendir_requests cache;
     fscache_requests := wrap_uint (fscache_requests cache + 1);
     fscache_misses := fscache_misses cache |}.

Definition incr_fscache_misses (cache : fscache) : fscache :=
  {| enabled := enabled cache; map := map cache;
     lstat_requests := lstat_requests cache;
     opendir_requests := opendir_requests cache;
     fscache_requests := fscache_requests cache;
     fscache_misses := wrap_uint (fscache_misses cache + 1) |}.

Definition incr_lstat_requests (cache : fscache) : fscache :=
  {| enabled := enabled cache; map := map cache;
     lstat_requests := wrap_uint (lstat_requests cache + 1);
     opendir_requests := opendir_requests cache;
     fscache_requests := fscache_requests cache;
     fscache_misses := fscache_misses cache |}.

Definition incr_opendir_requests (cache : fscache) : fscache :=
  {| enabled := enabled cache; map := map cache;
     lstat_requests := lstat_requests cache;
     opendir_requests := wrap_uint (opendir_requests cache + 1);
     fscache_requests := fscache_requests cache;
     fscache_misses := fscache_misses cache |}.

Definition with_enabled (v : Z) (cache : fscache) : fscache :=
  {| enabled := v; map := map cache;
     lstat_requests := lstat_requests cache;
     opendir_requests := opendir_requests cache;
     fscache_requests := fscache_requests cache;
     fscache_misses := fscache_misses cache |}.

(** Adds a directory listing to the cache. *)
Definition fscache_add (cache : fscache) (fse : fsentry) (m : memory) : fscache :=
  let fse := list_or_self fse in
  with_map (fold_left hashmap_add (fse :: next_chain m fse) (map cache)) cache.

(** Clears the cache. *)
Definition fscache_clear (cache : fscache) (m : memory) : fscache * memory :=
  ({| enabled := enabled cache; map := [];
      lstat_requests := 0; opendir_requests := 0;
      fscache_requests := 0; fscache_misses := 0 |},
   hashmap_free (map cache) m).

(** Checks if the cache is enabled for the given path. *)
Definition do_fscache_enabled (cache : fscache) (path : string) : bool :=
  (0 <? enabled cache) && negb (is_absolute_path path).

(** Looks up or creates a cache entry for the specified key. *)
Definition fscache_get (cache : fscache) (key : fsentry) (m : memory)
    : option fsentry * fscache * memory :=
  let cache := incr_fscache_requests cache in
  (* check if entry is in cache *)
  match hashmap_get (map cache) key with
  | Some fse =>
    if negb (st_mode fse =? 0) then (Some fse, cache, fsentry_addref fse m)
    else (None, cache, m) (* non-existing directory *)
  | None =>
    (* if looking for a file, check if directory listing is in cache *)
    match match fse_list key with
          | Some l => hashmap_get (map cache) l
          | None => None
          end with
    | Some _ =>
      (* dir entry without file entry, or dir does not exist ->
         file doesn't exist *)
      (None, cache, with_errno ENOENT m)
    | None =>
      (* create the directory listing *)
      let '(fse, dir_not_found, m) := fsentry_create_list (list_or_self key) m in
      match fse with
      | None =>
        (* leave on error (errno set by fsentry_create_list) *)
        match dir_not_found, fse_list key with
        | true, Some l =>
          (* Record that the directory does not exist (or is empty, which
             for all practical matters is the same thing as far as fscache
             is concerned). *)
          let '(fse, m) := fsentry_alloc (fse_list l) (name l) (len l) m in
          let fse := set_st_mode 0 fse in
          (None, with_map (hashmap_add (map cache) fse) cache, m)
        | _, _ => (None, cache, m)
        end
      | Some fse =>
        (* add directory listing to the cache *)
        let cache := incr_fscache_misses cache in
        let cache := fscache_add cache fse m in
        (* lookup file entry if requested (fse already points to directory) *)
        let fse :=
          match fse_list key with
          | Some _ => hashmap_get (map cache) key
          | None => Some fse
          end in
        let fse :=
          match fse with
          | Some e => if st_mode e =? 0 then None (* non-existing directory *)
                      else Some e
          | None => None
          end in
        (* return entry or ENOENT *)
        match fse with
        | Some e => (Some e, cache, fsentry_addref e m)
        | None => (None, cache, with_errno ENOENT m)
        end
      end
    end
  end.

End Cache.

(** ** The process *)

(** The implementations the global function pointers [opendir] and [lstat]
    can hold. *)
Inductive opendir_fn := Dirent_opendir | Fscache_opendir.
Inductive lstat_fn := Mingw_lstat | Fscache_lstat.

Record world := {
  mem : memory;
  caches : gmap positive fscache;   (* the allocated [struct fscache] *)
  tls : gmap nat positive;          (* [TlsGetValue (dwTlsIndex)], by thread *)
  initialized : Z;
  dwTlsIndex : Z;
  core_fscache : Z;
  opendir : opendir_fn;
  lstat : lstat_fn
}.

Definition with_mem (m : memory) (w : world) : world :=
  {| mem := m; caches := caches w; tls := tls w;
     initialized := initialized w; dwTlsIndex := dwTlsIndex w;
     core_fscache := core_fscache w; opendir := opendir w; lstat := lstat w |}.

Definition with_caches (cs : gmap positive fscache) (w : world) : world :=
  {| mem := mem w; caches := cs; tls := tls w;
     initialized := initialized w; dwTlsIndex := dwTlsIndex w;
     core_fscache := core_fscache w; opendir := opendir w; lstat := lstat w |}.

Definition with_tls (t : gmap nat positive) (w : world) : world :=
  {| mem := mem w; caches := caches w; tls := t;
     initialized := initialized w; dwTlsIndex := dwTlsIndex w;
     core_fscache := core_fscache w; opendir := opendir w; lstat := lstat w |}.

Definition with_initialized (i : Z) (w : world) : world :=
  {| mem := mem w; caches := caches w; tls := tls w;
     initialized := i; dwTlsIndex := dwTlsIndex w;
     core_fscache := core_fscache w; opendir := opendir w; lstat := lstat w |}.

Definition with_dwTlsIndex (i : Z) (w : world) : world :=
  {| mem := mem w; caches := caches w; tls := tls w;
     initialized := initialized w; dwTlsIndex := i;
     core_fscache := core_fscache w; opendir := opendir w; lstat := lstat w |}.

Definition with_core_fscache (v : Z) (w : world) : world :=
  {| mem := mem w; caches := caches w; tls := tls w;
     initialized := initialized w; dwTlsIndex := dwTlsIndex w;
     core_fscache := v; opendir := opendir w; lstat := lstat w |}.

Definition redirect (o : opendir_fn) (l : lstat_fn) (w : world) : world :=
  {| mem := mem w; caches := caches w; tls := tls w;
     initialized := initialized w; dwTlsIndex := dwTlsIndex w;
     core_fscache := core_fscache w; opendir := o; lstat := l |}.

(** How a call ends: it returns, it stops the process through [BUG], or it
    uses an object that is no longer there. *)
Inductive outcome (A : Type) :=
| Ret (a : A) (w : world)
| Fatal (msg : string)
| Undefined.
Arguments Ret {A} a w.
Arguments Fatal {A} msg.
Arguments Undefined {A}.

(** [struct stat] *)
Module stat.
Record t := {
  st_ino : Z;
  st_gid : Z;
  st_uid : Z;
  st_dev : Z;
  st_rdev : Z;
  st_nlink : Z;
  st_mode : Z;
  st_size : Z;
  st_atim : timespec;
  st_mtim : timespec;
  st_ctim : timespec
}.
End stat.

(** What [fscache_lstat] does: it passes the call on to [mingw_lstat], or
    returns [rc] with [*st] as given. *)
Inductive lstat_result :=
| To_mingw_lstat
| Lstat_ret (rc : Z) (st : stat.t).

(** [fscache_DIR]: the cursor into the cached listing. *)
Record fscache_DIR := {
  dir_addr : ptr;
  pfsentry : fsentry
}.

Inductive opendir_result :=
| To_dirent_opendir
| Opendir_ret (dir : option fscache_DIR).

(** Modelled from the spec: [is_dir_sep] is a macro of the platform
    headers, which are not under src/; the "separators" of a path are the
    slash and, on this platform, the backslash. *)
Definition is_dir_sep (c : ascii) : bool :=
  Ascii.eqb c "/" || Ascii.eqb c "\".

(** [s[i]], the terminating NUL past the end. *)
Fixpoint char_at (s : string) (i : nat) : ascii :=
  match s, i with
  | EmptyString, _ => "000"%char
  | String c _, O => c
  | String _ r, S i' => char_at r i'
  end.

(** [while (base && !is_dir_sep (filename[base - 1])) base--] *)
Fixpoint find_base (filename : string) (base : nat) : nat :=
  match base with
  | O => O
  | S b => if is_dir_sep (char_at filename b) then base else find_base filename b
  end.

Definition DT_DIR : Z := 1.
Definition DT_REG : Z := 2.
Definition DT_LNK : Z := 3.
Definition S_IFREG : Z := 0x8000.
Definition S_ISREG (m : Z) : bool := Z.land m S_IFMT =? S_IFREG.
Definition S_ISDIR (m : Z) : bool := Z.land m S_IFMT =? S_IFDIR.

Section Lifecycle.
Context {P : Platform}.

Definition fscache_getcache (t : nat) (w : world) : option positive :=
  tls w !! t.

(** The stat members of an entry, read through the union. *)
Definition stat_members (m : memory) (fse : fsentry) : option statdata :=
  match heap_at m (addr fse) with
  | Some {| h_un := U_stat sd |} => Some sd
  | Some {| h_un := U_refcnt r |} => Some (stat_of_refcnt r)
  | None => None
  end.

(** The two stack keys of [fscache_lstat]: the directory and the name. *)
Definition lstat_keys (filename : string) : fsentry * fsentry :=
  (* split filename into path + name *)
  let n := String.length filename in
  let n := if (negb (Nat.eqb n 0) && is_dir_sep (char_at filename (n - 1)))%bool
           then (n - 1)%nat else n in
  let base := find_base filename n in
  let dirlen := if Nat.eqb base 0 then O else (base - 1)%nat in
  let key0 := fsentry_init (blank (StackObj 0)) None filename dirlen in
  let key1 := fsentry_init (blank (StackObj 1)) (Some key0)
                           (offset filename base) (n - base) in
  (key0, key1).

(** Lstat replacement, uses the cache if enabled, otherwise redirects to
    mingw_lstat.  [t] is the calling thread. *)
Definition fscache_lstat (t : nat) (filename : string) (st : stat.t)
    (w : world) : outcome lstat_result :=
  match fscache_getcache t w with
  | None => Ret To_mingw_lstat w
  | Some c =>
    match caches w !! c with
    | None => Undefined
    | Some cache =>
      if negb (do_fscache_enabled cache filename) then Ret To_mingw_lstat w
      else
        let cache := incr_lstat_requests cache in
        (* lookup entry for path + name in cache *)
        let '(_, key1) := lstat_keys filename in
        let '(fse, cache, m) := fscache_get cache key1 (mem w) in
        let w := with_caches (<[c := cache]> (caches w)) w in
        match fse with
        | None => Ret (Lstat_ret (-1) st) (with_mem m w)
        | Some fse =>
          match stat_members m fse with
          | None => Undefined
          | Some sd =>
            (* copy stat data *)
            let st := {|
              stat.st_ino := 0; stat.st_gid := 0; stat.st_uid := 0;
              stat.st_dev := 0; stat.st_rdev := 0; stat.st_nlink := 1;
              stat.st_mode := st_mode fse;
              stat.st_size := st_size sd;
              stat.st_atim := st_atim sd;
              stat.st_mtim := st_mtim sd;
              stat.st_ctim := st_ctim sd |} in
            (* don't forget to release fsentry *)
            Ret (Lstat_ret 0 st) (with_mem (fsentry_release fse m) w)
          end
        end
    end
  end.

(** Readdir replacement: the name and type of the next entry, and the
    advanced cursor. *)
Definition fscache_readdir (dir : fscache_DIR) (m : memory)
    : option (string * Z) * fscache_DIR :=
  match next_chain m (pfsentry dir) with
  | [] => (None, dir)
  | next :: _ =>
    (Some (name next,
           if S_ISREG (st_mode next) then DT_REG
           else if S_ISDIR (st_mode next) then DT_DIR else DT_LNK),
     {| dir_addr := dir_addr dir; pfsentry := next |})
  end.

(** Closedir replacement. *)
Definition fscache_closedir (dir : fscache_DIR) (m : memory) : Z * memory :=
  (0, free (dir_addr dir) (fsentry_release (pfsentry dir) m)).

(** The stack key of [fscache_opendir]. *)
Definition opendir_key (dirname : string) : fsentry :=
  (* prepare name (strip trailing '/', replace '.') *)
  let n := String.length dirname in
  let n :=
    if ((Nat.eqb n 1 && Ascii.eqb (char_at dirname 0) ".") ||
        (negb (Nat.eqb n 0) && is_dir_sep (char_at dirname (n - 1))))%bool
    then (n - 1)%nat else n in
  fsentry_init (blank (StackObj 0)) None dirname n.

(** Opendir replacement, uses a directory listing from the cache if
    enabled, otherwise calls original dirent implementation. *)
Definition fscache_opendir (t : nat) (dirname : string) (w : world)
    : outcome opendir_result :=
  match fscache_getcache t w with
  | None => Ret To_dirent_opendir w
  | Some c =>
    match caches w !! c with
    | None => Undefined
    | Some cache =>
      if negb (do_fscache_enabled cache dirname) then Ret To_dirent_opendir w
      else
        let cache := incr_opendir_requests cache in
        (* get directory listing from cache *)
        let key := opendir_key dirname in
        let '(lst, cache, m) := fscache_get cache key (mem w) in
        let w := with_caches (<[c := cache]> (caches w)) w in
        match lst with
        | None => Ret (Opendir_ret None) (with_mem m w)
        | Some lst =>
          (* alloc and return DIR structure *)
          let '(p, m) := xmalloc m in
          Ret (Opendir_ret (Some {| dir_addr := p; pfsentry := lst |}))
              (with_mem m w)
        end
    end
  end.

(** [free (cache)] *)
Definition free_cache (c : positive) (w : world) : world :=
  with_mem (free (HeapObj c) (mem w)) (with_caches (delete c (caches w)) w).

(** Enables the cache.  Note that the cache is read-only, changes to the
    working directory are NOT reflected in the cache while enabled. *)
Definition fscache_enable (t : nat) (initial_size : Z) (w : world) : outcome Z :=
  let result := 0 in
  (* allow the cache to be disabled entirely *)
  let fscache := GIT_TEST_FSCACHE in
  let w := if negb (fscache =? -1) then with_core_fscache fscache w else w in
  if core_fscache w =? 0 then Ret 0 w
  else
    (* refcount the global fscache initialization so that the opendir and
       lstat function pointers are redirected if any threads are using the
       fscache *)
    let setup :=
      if initialized w =? 0 then
        let alloc :=
          if dwTlsIndex w =? 0 then
            let w := with_dwTlsIndex TlsAlloc w in
            if dwTlsIndex w =? TLS_OUT_OF_INDEXES then inl w else inr w
          else inr w in
        match alloc with
        | inl w => inl w
        | inr w =>
          (* redirect opendir and lstat to the fscache implementations *)
          inr (redirect Fscache_opendir Fscache_lstat w)
        end
      else inr w in
    match setup with
    | inl w => Ret 0 w
    | inr w =>
      let w := with_initialized (wrap_long (initialized w + 1)) w in
      (* refcount the thread specific initialization *)
      match fscache_getcache t w with
      | Some c =>
        match caches w !! c with
        | None => Undefined
        | Some cache =>
          let cache := with_enabled (wrap_long (enabled cache + 1)) cache in
          Ret result (with_caches (<[c := cache]> (caches w)) w)
        end
      | None =>
        let c := brk (mem w) in
        let '(_, m) := xmalloc (mem w) in
        let cache :=
          {| enabled := 1; map := [];
             lstat_requests := 0; opendir_requests := 0;
             fscache_requests := 0; fscache_misses := 0 |} in
        let w := with_mem m (with_caches (<[c := cache]> (caches w)) w) in
        if negb TlsSetValue_ok then Fatal "TlsSetValue error"
        else Ret result (with_tls (<[t := c]> (tls w)) w)
      end
    end.

(** Disables the cache. *)
Definition fscache_disable (t : nat) (w : world) : outcome unit :=
  if core_fscache w =? 0 then Ret tt w
  else
    (* update the thread specific fscache initialization *)
    match fscache_getcache t w with
    | None =>
      Fatal "fscache_disable() called on a thread where fscache has not been initialized"
    | Some c =>
      match caches w !! c with
      | None => Undefined
      | Some cache =>
        if enabled cache =? 0 then
          Fatal "fscache_disable() called on an fscache that is already disabled"
        else
          let cache := with_enabled (wrap_long (enabled cache - 1)) cache in
          let w := with_caches (<[c := cache]> (caches w)) w in
          let w :=
            if enabled cache =? 0 then
              let w := with_tls (delete t (tls w)) w in
              let '(_, m) := fscache_clear cache (mem w) in
              free_cache c (with_mem m w)
            else w in
          (* update the global fscache initialization *)
          let w := with_initialized (wrap_long (initialized w - 1)) w in
          let w :=
            if initialized w =? 0 then
              (* reset opendir and lstat to the original implementations *)
              redirect Dirent_opendir Mingw_lstat w
            else w in
          Ret tt w
      end
    end.

(** [fscache_enabled]: whether the calling thread caches [path]. *)
Definition fscache_enabled (t : nat) (path : string) (w : world) : outcome bool :=
  match fscache_getcache t w with
  | None => Ret false w
  | Some c =>
    match caches w !! c with
    | None => Undefined
    | Some cache => Ret (do_fscache_enabled cache path) w
    end
  end.

(** Flush cached stats result when fscache is enabled. *)
Definition fscache_flush (t : nat) (w : world) : outcome unit :=
  match fscache_getcache t w with
  | None => Ret tt w
  | Some c =>
    match caches w !! c with
    | None => Undefined
    | Some cache =>
      if negb (enabled cache =? 0) then
        let '(cache, m) := fscache_clear cache (mem w) in
        Ret tt (with_mem m (with_caches (<[c := cache]> (caches w)) w))
      else Ret tt w
    end
  end.

(** [fscache_merge]: fold the calling thread's cache into [dest].  The
    entries of the table are added one by one, counters are added up, the
    emptied [struct fscache] is freed.  Merging a cache into itself is left
    undefined. *)
Definition fscache_merge (t : nat) (dest : option positive) (w : world)
    : outcome unit :=
  (* Only do the merge if fscache was enabled and we have a dest cache to
     merge into. *)
  match dest with
  | None =>
    match fscache_enable t 0 w with
    | Ret _ w => Ret tt w
    | Fatal msg => Fatal msg
    | Undefined => Undefined
    end
  | Some d =>
    match fscache_getcache t w with
    | None =>
      Fatal "fscache_merge() called on a thread where fscache has not been initialized"
    | Some c =>
      match caches w !! c, caches w !! d with
      | Some cache, Some dst =>
        if Pos.eqb c d then Undefined
        else
          let w := with_tls (delete t (tls w)) w in
          let dst :=
            {| enabled := enabled dst;
               map := fold_left hashmap_add (map cache) (map dst);
               lstat_requests :=
                 wrap_uint (lstat_requests dst + lstat_requests cache);
               opendir_requests :=
                 wrap_uint (opendir_requests dst + opendir_requests cache);
               fscache_requests :=
                 wrap_uint (fscache_requests dst + fscache_requests cache);
               fscache_misses :=
                 wrap_uint (fscache_misses dst + fscache_misses cache) |} in
          let w := with_caches (<[d := dst]> (caches w)) w in
          let w := free_cache c w in
          Ret tt (with_initialized (wrap_long (initialized w - 1)) w)
      | _, _ => Undefined
      end
    end
  end.

End Lifecycle.

(** ** The identity of keys, as specified

    "Equality of two keys requires: recursively equal parent identities (by
    the same comparison, treating no parent as equal only to no parent),
    equal name length, and case-insensitive byte equality of the name." *)
Fixpoint key_equal (k1 k2 : fsentry) : bool :=
  match fse_list k1, fse_list k2 with
  | None, None => true
  | Some p1, Some p2 => key_equal p1 p2
  | _, _ => false
  end &&
  Nat.eqb (len k1) (len k2) &&
  String.eqb (lower (memcpy (name k1) (len k1)))
             (lower (memcpy (name k2) (len k2))).

(** A buffer that holds a C string has no NUL before its end. *)
Fixpoint no_nul (s : string) : bool :=
  match s with
  | EmptyString => true
  | String c r => negb (Ascii.eqb c "000") && no_nul r
  end.

(** All the names on the way up from an entry are C strings. *)
Fixpoint c_names (e : fsentry) : bool :=
  no_nul (name e) &&
  match fse_list e with
  | None => true
  | Some l => c_names l
  end.

(** ** A platform to run the code on

    FNV-1 over the folded bytes for [memihash]; a file system with a
    directory [src] of two files, mixed-case [Dir] holding [File], a
    directory [locked] that may not be read, a directory [flaky] whose
    enumeration breaks off, and nothing else. *)
Fixpoint fnv1 (s : string) (hash : Z) : Z :=
  match s with
  | EmptyString => hash
  | String c r => fnv1 r (Z.lxor (wrap_uint (hash * 0x01000193)) (code c))
  end.

Definition ERROR_PATH_NOT_FOUND : Z := 3.
Definition ERROR_ACCESS_DENIED : Z := 5.
Definition ERROR_NOT_READY : Z := 21.
Definition EACCES : Z := 13.
Definition EINVAL : Z := 22.
Definition ENAMETOOLONG : Z := 38.
Definition FILE_ATTRIBUTE_DIRECTORY : Z := 0x10.

Definition toy_file (nm : string) (size : Z) : WIN32_FIND_DATAW :=
  {| dwFileAttributes := 0x80;
     ftCreationTime := 132223104000000000;
     ftLastAccessTime := 132223104010000000;
     ftLastWriteTime := 132223104020000000;
     nFileSizeHigh := 0; nFileSizeLow := size;
     dwReserved0 := 0;
     cFileName := List.map (fun c => code c) (list_ascii_of_string nm) |}.

Definition toy_find_files (path : string) : find_result :=
  if String.eqb (lower path) "src" then
    Found (toy_file "Main.c" 120) [toy_file "README" 7] ERROR_NO_MORE_FILES
  else if String.eqb (lower path) "dir" then
    Found (toy_file "File" 3) [] ERROR_NO_MORE_FILES
  else if String.eqb (lower path) "locked" then No_handle ERROR_ACCESS_DENIED
  else if String.eqb (lower path) "flaky" then
    Found (toy_file "a" 1) [] ERROR_NOT_READY
  else if (300 <? String.length path)%nat then Name_refused ENAMETOOLONG
  else No_handle ERROR_PATH_NOT_FOUND.

Definition toy : Platform := {|
  memihash := fun s n => fnv1 (lower (memcpy s n)) 0x811c9dc5;
  err_win_to_posix := fun err =>
    if (err =? 2) || (err =? ERROR_PATH_NOT_FOUND) then ENOENT
    else if err =? ERROR_ACCESS_DENIED then EACCES else EINVAL;
  file_attr_to_st_mode := fun attrs _ _ =>
    if Z.land attrs FILE_ATTRIBUTE_DIRECTORY =? 0
    then Z.lor S_IFREG 0x1A4 else Z.lor S_IFDIR 0x1ED;
  filetime_to_timespec := fun ft =>
    {| tv_sec := ft / 10000000 - 11644473600;
       tv_nsec := (ft mod 10000000) * 100 |};
  xwcstoutf := fun ws =>
    string_of_list_ascii (List.map (fun z => ascii_of_nat (Z.to_nat z)) ws);
  is_inside_windows_container := false;
  is_absolute_path := fun s => is_dir_sep (char_at s 0) || Ascii.eqb (char_at s 1) ":";
  find_files := toy_find_files;
  stat_of_refcnt := fun r =>
    {| st_size := r; st_atim := {| tv_sec := 0; tv_nsec := 0 |};
       st_mtim := {| tv_sec := 0; tv_nsec := 0 |};
       st_ctim := {| tv_sec := 0; tv_nsec := 0 |} |};
  GIT_TEST_FSCACHE := -1;
  TlsAlloc := 1;
  TlsSetValue_ok := true
|}.

(** The listing header of a directory [d] and its entry [d], as
    [fsentry_create_list] builds them. *)
Definition header_d : fsentry :=
  set_st_mode S_IFDIR (fsentry_init (P := toy) (blank (HeapObj 1)) None "d" 1).
Definition child_d : fsentry :=
  set_st_mode (Z.lor S_IFREG 0x1A4)
    (fsentry_init (P := toy) (blank (HeapObj 2)) (Some header_d) "d" 1).

(** ** Sequences of references

    What callers do with the entries of one listing: take a reference, or
    give one back. *)
Inductive refop :=
| Acquire (e : fsentry)
| Release (e : fsentry).

Definition op_entry (op : refop) : fsentry :=
  match op with Acquire e | Release e => e end.

Definition run_op (m : memory) (op : refop) : memory :=
  match op with
  | Acquire e => fsentry_addref e m
  | Release e => fsentry_release e m
  end.

Definition run_ops (ops : list refop) (m : memory) : memory :=
  fold_left run_op ops m.

Definition delta (op : refop) : Z :=
  match op with Acquire _ => 1 | Release _ => -1 end.

(** The number of references outstanding after [ops], [r] before. *)
Definition count_after (r : Z) (ops : list refop) : Z :=
  fold_left (fun c op => c + delta op) ops r.

(** References are outstanding before [ops] and after each of them. *)
Fixpoint stays_alive (r : Z) (ops : list refop) : Prop :=
  0 < r /\
  match ops with
  | [] => True
  | op :: rest => stays_alive (r + delta op) rest
  end.

(** [e] is the listing header [hdr] or one of its entries. *)
Definition of_listing (hdr e : fsentry) : Prop :=
  e = hdr \/ fse_list e = Some hdr.

(** The listing of directory [d] in memory, one reference held (by the
    cache table). *)
Definition memory_d : memory :=
  {| errno := 0;
     heap :=
       <[1%positive := {| h_next := [child_d]; h_un := U_refcnt 1 |}]>
       (<[2%positive :=
            {| h_next := [];
               h_un := U_stat {| st_size := 3;
                                 st_atim := {| tv_sec := 0; tv_nsec := 0 |};
                                 st_mtim := {| tv_sec := 0; tv_nsec := 0 |};
                                 st_ctim := {| tv_sec := 0; tv_nsec := 0 |} |} |}]>
        ∅);
     brk := 3; freed := []; find_log := ["d"%string] |}.

(** ** Reading the lookup *)

(** The directory [fscache_get] enumerates for [key]. *)
Definition dir_path (key : fsentry) : string :=
  memcpy (name (list_or_self key)) (len (list_or_self key)).

(** A true miss: neither the key nor, for an entry of a listing, the
    listing is in the table. *)
Definition true_miss `{Platform} (cache : fscache) (key : fsentry) : Prop :=
  hashmap_get (map cache) key = None /\
  forall l, fse_list key = Some l -> hashmap_get (map cache) l = None.

(** The errno [fsentry_create_list] leaves when no find handle is had. *)
Definition no_handle_errno `{Platform} (err : Z) : Z :=
  if err =? ERROR_DIRECTORY then ENOTDIR else err_win_to_posix err.

(** The "cached absent" header [fscache_get] records for listing [l], and
    the memory after its allocation. *)
Definition absent_header `{Platform} (l : fsentry) (m : memory)
    : fsentry * memory :=
  let '(fse, m) := fsentry_alloc (fse_list l) (name l) (len l) m in
  (set_st_mode 0 fse, m).

Definition value_of {A : Type} (o : outcome A) : option A :=
  match o with
  | Ret a _ => Some a
  | _ => None
  end.

(** ** A process to run the code in: thread 0 with an enabled, empty
    cache. *)
Definition empty_cache : fscache :=
  {| enabled := 1; map := [];
     lstat_requests := 0; opendir_requests := 0;
     fscache_requests := 0; fscache_misses := 0 |}.

Definition toy_memory : memory :=
  {| errno := 0; heap := ∅; brk := 2; freed := []; find_log := [] |}.

Definition toy_world : world :=
  {| mem := toy_memory;
     caches := {[ 1%positive := empty_cache ]};
     tls := {[ 0%nat := 1%positive ]};
     initialized := 1; dwTlsIndex := 1; core_fscache := 1;
     opendir := Fscache_opendir; lstat := Fscache_lstat |}.

Definition stat0 : stat.t :=
  {| stat.st_ino := 7; stat.st_gid := 7; stat.st_uid := 7; stat.st_dev := 7;
     stat.st_rdev := 7; stat.st_nlink := 7; stat.st_mode := 0;
     stat.st_size := 0;
     stat.st_atim := {| tv_sec := 0; tv_nsec := 0 |};
     stat.st_mtim := {| tv_sec := 0; tv_nsec := 0 |};
     stat.st_ctim := {| tv_sec := 0; tv_nsec := 0 |} |}.

(** The world after a call of [fscache_lstat], [fscache_opendir] or
    [fscache_enable]. *)
Definition after_lstat_on (t : nat) (filename : string) (w : world) : world :=
  match fscache_lstat (P := toy) t filename stat0 w with
  | Ret _ w' => w'
  | _ => w
  end.

Definition after_lstat : string -> world -> world := after_lstat_on 0.

Definition after_opendir (dirname : string) (w : world) : world :=
  match fscache_opendir (P := toy) 0 dirname w with
  | Ret _ w' => w'
  | _ => w
  end.

Definition after_enable (t : nat) (w : world) : world :=
  match fscache_enable (P := toy) t 0 w with
  | Ret _ w' => w'
  | _ => w
  end.

(** The cache of thread 0. *)
Definition cache0 (w : world) : fscache :=
  match tls w !! 0%nat with
  | Some c => default empty_cache (caches w !! c)
  | None => empty_cache
  end.

(** [true_miss], decided. *)
Definition is_true_miss `{Platform} (cache : fscache) (key : fsentry) : bool :=
  match hashmap_get (map cache) key with
  | Some _ => false
  | None =>
    match fse_list key with
    | Some l =>
      match hashmap_get (map cache) l with
      | Some _ => false
      | None => true
      end
    | None => true
    end
  end.

(** The file system lists the directory of [key] to its end. *)
Definition enumerates `{Platform} (key : fsentry) : bool :=
  match find_files (dir_path key) with
  | Found _ _ err => err =? ERROR_NO_MORE_FILES
  | _ => false
  end.

(** What [fscache_lstat] stored through [st]. *)
Definition lstat_stat (filename : string) (w : world) : stat.t :=
  match fscache_lstat (P := toy) 0 filename stat0 w with
  | Ret (Lstat_ret _ st) _ => st
  | _ => stat0
  end.

(** The process before the cache is enabled anywhere. *)
Definition boot_world : world :=
  {| mem := {| errno := 0; heap := ∅; brk := 1; freed := []; find_log := [] |};
     caches := ∅; tls := ∅;
     initialized := 0; dwTlsIndex := 0; core_fscache := 1;
     opendir := Dirent_opendir; lstat := Mingw_lstat |}.

(** Two threads with a cache each: thread 0 has looked into [src], thread 1
    into [Dir]. *)
Definition two_threads : world :=
  after_lstat_on 1 "Dir/File"
    (after_lstat_on 0 "src/README"
       (after_enable 1 (after_enable 0 boot_world))).

(** Thread 0 after a successful lstat. *)
Definition populated : world := after_lstat "src/Main.c" toy_world.

(** ** Notions used to state the properties *)

(** [fse1->list == fse2->list] *)
Definition same_list (a b : option fsentry) : bool :=
  match a, b with
  | None, None => true
  | Some x, Some y => same_object x y
  | _, _ => false
  end.

(** Keys with the same shape whose names agree up to case, level by
    level. *)
Fixpoint ci_same (a b : fsentry) : Prop :=
  len a = len b /\ lower (name a) = lower (name b) /\
  match fse_list a, fse_list b with
  | None, None => True
  | Some x, Some y => ci_same x y
  | _, _ => False
  end.

(** The block of a listing header: its chain and its count. *)
Definition listing_cell (nx : list fsentry) (r : Z) : hcell :=
  {| h_next := nx; h_un := U_refcnt r |}.

(** An allocated block. *)
Definition live (m : memory) (p : ptr) : Prop := is_Some (heap_at m p).

(** [m'] keeps every block of [m], and a block it changed has no [next]. *)
Definition extends (m m' : memory) : Prop :=
  (forall p, live m p -> live m' p) /\
  (forall x, next_chain m' x = next_chain m x \/ next_chain m' x = []).

(** An entry whose precomputed hash, and that of every listing above it, is
    the one [fsentry_hash] computes: what [fsentry_init] leaves. *)
Fixpoint well_hashed `{Platform} (e : fsentry) : Prop :=
  ent_hash e = fsentry_hash e /\
  match fse_list e with
  | None => True
  | Some l => well_hashed l
  end.

(** A name without a directory separator. *)
Fixpoint no_sep (s : string) : bool :=
  match s with
  | EmptyString => true
  | String c r => negb (is_dir_sep c) && no_sep r
  end.

(** The bytes a key stands for: the first [len] bytes of [name]. *)
Definition key_name (k : fsentry) : string := memcpy (name k) (len k).

(** Blocks not yet handed out are not in use. *)
Definition heap_fresh (m : memory) : Prop :=
  forall a, (brk m <= a)%positive -> heap m !! a = None.

(** Every entry of [nodes] has the entries behind it as its [next] chain. *)
Definition linked (m : memory) (nodes : list fsentry) : Prop :=
  forall pre x rest, nodes = pre ++ x :: rest -> next_chain m x = rest.

(** The loop of a caller of readdir: [while ((e = readdir (dir))) ...],
    collecting name and type, for at most [fuel] calls. *)
Fixpoint readdir_all (fuel : nat) (dir : fscache_DIR) (m : memory)
    : list (string * Z) :=
  match fuel with
  | O => []
  | S fuel' =>
    match fscache_readdir dir m with
    | (None, _) => []
    | (Some d, dir') => d :: readdir_all fuel' dir' m
    end
  end.

(** [d_type] as [fscache_readdir] derives it from the mode. *)
Definition d_type_of (mode : Z) : Z :=
  if S_ISREG mode then DT_REG else if S_ISDIR mode then DT_DIR else DT_LNK.

(** Addresses can be told apart. *)
#[local] Instance ptr_eq_dec : EqDecision ptr.
Proof. solve_decision. Defined.

(** The value of [core_fscache] once [fscache_enable] has read
    [GIT_TEST_FSCACHE]. *)
Definition configured `{Platform} (w : world) : Z :=
  if GIT_TEST_FSCACHE =? -1 then core_fscache w else GIT_TEST_FSCACHE.

(** The toy platform, out of thread-local storage. *)
Definition toy_no_tls : Platform := {|
  memihash := memihash (Platform := toy);
  err_win_to_posix := err_win_to_posix (Platform := toy);
  file_attr_to_st_mode := file_attr_to_st_mode (Platform := toy);
  filetime_to_timespec := filetime_to_timespec (Platform := toy);
  xwcstoutf := xwcstoutf (Platform := toy);
  is_inside_windows_container := false;
  is_absolute_path := is_absolute_path (Platform := toy);
  find_files := toy_find_files;
  stat_of_refcnt := stat_of_refcnt (Platform := toy);
  GIT_TEST_FSCACHE := -1;
  TlsAlloc := TLS_OUT_OF_INDEXES;
  TlsSetValue_ok := true
|}.

(** The entry points answer from the cache. *)
Definition redirected (w : world) : Prop :=
  opendir w = Fscache_opendir /\ lstat w = Fscache_lstat.

(** The entry points are the original implementations. *)
Definition original (w : world) : Prop :=
  opendir w = Dirent_opendir /\ lstat w = Mingw_lstat.


(** A file of more than 4 GB. *)
Definition toy_big_file : WIN32_FIND_DATAW :=
  {| dwFileAttributes := 0x80;
     ftCreationTime := 132223104000000000;
     ftLastAccessTime := 132223104010000000;
     ftLastWriteTime := 132223104020000000;
     nFileSizeHigh := 3; nFileSizeLow := 0x80000001;
     dwReserved0 := 0;
     cFileName := List.map (fun c => code c) (list_ascii_of_string "pack") |}.


(** A directory whose name has hash 0 under [memihash] (FNV-1 over its ten
    digits; without letters, so folding case plays no part).  It holds one
    file, [other]. *)
Definition zero_dir : string := "0391295013".

Definition toy_zero : Platform := {|
  memihash := memihash (Platform := toy);
  err_win_to_posix := err_win_to_posix (Platform := toy);
  file_attr_to_st_mode := file_attr_to_st_mode (Platform := toy);
  filetime_to_timespec := filetime_to_timespec (Platform := toy);
  xwcstoutf := xwcstoutf (Platform := toy);
  is_inside_windows_container := false;
  is_absolute_path := is_absolute_path (Platform := toy);
  find_files := fun path =>
    if String.eqb path zero_dir
    then Found (toy_file "other" 1) [] ERROR_NO_MORE_FILES
    else toy_find_files path;
  stat_of_refcnt := stat_of_refcnt (Platform := toy);
  GIT_TEST_FSCACHE := -1;
  TlsAlloc := 1;
  TlsSetValue_ok := true
|}.

(** The listing header of [zero_dir], as [fsentry_create_list] builds it in
    [toy_memory], and the key of lstat for a file of the same name inside
    it. *)
Definition zero_header : fsentry :=
  set_st_mode S_IFDIR
    (fsentry_init (P := toy_zero) (blank (HeapObj 2)) None zero_dir 10).

Definition zero_key : fsentry :=
  snd (lstat_keys (P := toy_zero) "0391295013/0391295013").

(** What a call of [fscache_lstat] returned, what it stored in the mode of
    [*st], and the process after it. *)
Definition lstat_rc (o : outcome lstat_result) : option Z :=
  match o with
  | Ret (Lstat_ret rc _) _ => Some rc
  | _ => None
  end.

Definition lstat_mode (o : outcome lstat_result) : option Z :=
  match o with
  | Ret (Lstat_ret _ st) _ => Some (stat.st_mode st)
  | _ => None
  end.

Definition world_after {A : Type} (o : outcome A) (w : world) : world :=
  match o with
  | Ret _ w' => w'
  | _ => w
  end.


(** * Properties *)

(** ** Strings *)

Lemma code_inj c1 c2 : code c1 - code c2 = 0 -> c1 = c2.
Proof.
  unfold code. intros H.
  assert (E : nat_of_ascii c1 = nat_of_ascii c2) by lia.
  rewrite <- (ascii_nat_embedding c1), <- (ascii_nat_embedding c2).
  now rewrite E.
Qed.

Lemma tolower_idem c : tolower (tolower c) = tolower c.
Proof. destruct c as [[] [] [] [] [] [] [] []]; reflexivity. Qed.

Lemma lower_idem s : lower (lower s) = lower s.
Proof. induction s as [|c r IH]; simpl; [reflexivity|]. now rewrite tolower_idem, IH. Qed.

Lemma lower_memcpy s n : lower (memcpy s n) = memcpy (lower s) n.
Proof.
  revert s. induction n as [|n IH]; intros [|c r]; simpl; try reflexivity.
  now rewrite IH.
Qed.

Lemma memcpy_memcpy s n : memcpy (memcpy s n) n = memcpy s n.
Proof.
  revert s. induction n as [|n IH]; intros [|c r]; simpl; try reflexivity.
  now rewrite IH.
Qed.

Lemma strnicmp_refl s n : strnicmp s s n = 0.
Proof.
  revert s. induction n as [|n IH]; intros [|c r]; simpl; try reflexivity.
  rewrite Z.sub_diag. simpl. apply IH.
Qed.

(** Only the folded bytes of the second buffer matter. *)
Lemma strnicmp_lower_r s a b n :
  lower a = lower b -> strnicmp s a n = strnicmp s b n.
Proof.
  revert s a b. induction n as [|n IH]; intros s a b E; [reflexivity|].
  destruct a as [|ca ra], b as [|cb rb]; simpl in E; try discriminate;
    [reflexivity|].
  injection E as Ec Er. destruct s as [|c r]; simpl; rewrite Ec; [reflexivity|].
  destruct (code (tolower c) - code (tolower cb) =? 0); [|reflexivity].
  now apply IH.
Qed.

Lemma strnicmp_memcpy_r s a n : strnicmp s (memcpy a n) n = strnicmp s a n.
Proof.
  revert s a. induction n as [|n IH]; intros s a; [reflexivity|].
  destruct s as [|c r], a as [|ca ra]; simpl; try reflexivity.
  now rewrite IH.
Qed.

Lemma tolower_nul c : code (tolower c) = 0 -> c = "000"%char.
Proof.
  destruct c as [[] [] [] [] [] [] [] []]; vm_compute; intros H;
    first [reflexivity | discriminate H].
Qed.

(** [strnicmp] answers 0 exactly when the first [n] bytes agree up to
    case. *)
Lemma strnicmp_zero s1 s2 n :
  no_nul s1 = true -> no_nul s2 = true ->
  strnicmp s1 s2 n = 0 <-> lower (memcpy s1 n) = lower (memcpy s2 n).
Proof.
  revert s1 s2. induction n as [|n IH]; intros s1 s2 V1 V2; [simpl; tauto|].
  destruct s1 as [|c1 r1], s2 as [|c2 r2]; simpl in *; [tauto | | |].
  - apply andb_prop in V2 as [V2 _]. split; [|discriminate].
    intros H. assert (E : code (tolower c2) = 0) by lia.
    apply tolower_nul in E. subst c2. discriminate V2.
  - apply andb_prop in V1 as [V1 _]. split; [|discriminate].
    intros H. apply tolower_nul in H. subst c1. discriminate V1.
  - apply andb_prop in V1 as [_ V1]. apply andb_prop in V2 as [_ V2].
    destruct (code (tolower c1) - code (tolower c2) =? 0) eqn:E.
    + apply Z.eqb_eq, code_inj in E. rewrite E, (IH r1 r2 V1 V2).
      split; [intros ->; reflexivity | intros [= H]; exact H].
    + apply Z.eqb_neq in E. split; [intros H; contradiction|].
      intros [= H _]. rewrite H, Z.sub_diag in E. contradiction.
Qed.

(** ** Keys *)

Lemma ptr_eqb_eq p q : ptr_eqb p q = true <-> p = q.
Proof.
  destruct p as [m|a], q as [n|b]; simpl; split; try discriminate.
  - intros H. apply Nat.eqb_eq in H. now subst.
  - intros [= ->]. apply Nat.eqb_refl.
  - intros H. apply Pos.eqb_eq in H. now subst.
  - intros [= ->]. apply Pos.eqb_refl.
Qed.

Lemma same_object_refl : forall a, same_object a a = true.
Proof.
  fix IH 1. intros [p h md l n [x|]]; simpl.
  - rewrite (proj2 (ptr_eqb_eq p p) eq_refl), !Z.eqb_refl, Nat.eqb_refl,
      String.eqb_refl. simpl. apply IH.
  - now rewrite (proj2 (ptr_eqb_eq p p) eq_refl), !Z.eqb_refl, Nat.eqb_refl,
      String.eqb_refl.
Qed.

Lemma same_object_eq : forall a b, same_object a b = true -> a = b.
Proof.
  fix IH 1. intros [p h md l n [x|]] [p' h' md' l' n' [x'|]]; simpl; intros H;
    rewrite !andb_true_iff in H;
    destruct H as (((((H1 & H2) & H3) & H4) & H5) & H6); try discriminate;
    apply ptr_eqb_eq in H1; apply Z.eqb_eq in H2, H3; apply Nat.eqb_eq in H4;
    apply String.eqb_eq in H5; subst; [|reflexivity].
  f_equal. f_equal. now apply IH.
Qed.

(** The function reads as the source does: the test on the two pointers,
    the recursive call on [list ? list : fse] when the [list] members
    differ, then [len] and [strnicmp]. *)
Lemma fsentry_cmp_unfold fse1 fse2 :
  fsentry_cmp fse1 fse2 =
  if same_object fse1 fse2 then 0 else
  let res :=
    if same_list (fse_list fse1) (fse_list fse2) then 0
    else fsentry_cmp (list_or_self fse1) (list_or_self fse2) in
  if negb (res =? 0) then res else
  if negb (Nat.eqb (len fse1) (len fse2))
  then Z.of_nat (len fse1) - Z.of_nat (len fse2)
  else strnicmp (name fse1) (name fse2) (len fse1).
Proof.
  destruct fse1 as [p h md l n [x|]], fse2 as [p' h' md' l' n' [x'|]];
    reflexivity.
Qed.

Lemma fsentry_cmp_refl e : fsentry_cmp e e = 0.
Proof. rewrite fsentry_cmp_unfold. now rewrite same_object_refl. Qed.

(** The pointer test in front of the recursive call only saves work. *)
Lemma same_list_shortcut a b :
  (if same_list (fse_list a) (fse_list b) then 0
   else fsentry_cmp (list_or_self a) (list_or_self b)) =
  match fse_list a, fse_list b with
  | None, None => 0
  | _, _ => fsentry_cmp (list_or_self a) (list_or_self b)
  end.
Proof.
  unfold list_or_self.
  destruct (fse_list a) as [x|], (fse_list b) as [y|]; simpl; try reflexivity.
  destruct (same_object x y) eqn:E; [|reflexivity].
  apply same_object_eq in E. subst. now rewrite fsentry_cmp_refl.
Qed.

(** The comparison is zero exactly when the list parts compare equal, the
    lengths agree and [strnicmp] finds no difference. *)
Lemma fsentry_cmp_zero a b :
  fsentry_cmp a b = 0 <->
  match fse_list a, fse_list b with
  | None, None => True
  | _, _ => fsentry_cmp (list_or_self a) (list_or_self b) = 0
  end /\ len a = len b /\ strnicmp (name a) (name b) (len a) = 0.
Proof.
  rewrite fsentry_cmp_unfold.
  destruct (same_object a b) eqn:E.
  - apply same_object_eq in E. subst b. split; [intros _|reflexivity].
    repeat split; [|apply strnicmp_refl].
    destruct (fse_list a); [apply fsentry_cmp_refl|exact I].
  - cbv zeta. rewrite same_list_shortcut.
    set (res := match fse_list a, fse_list b with
                | None, None => 0
                | _, _ => fsentry_cmp (list_or_self a) (list_or_self b)
                end).
    assert (R : res = 0 <->
                match fse_list a, fse_list b with
                | None, None => True
                | _, _ => fsentry_cmp (list_or_self a) (list_or_self b) = 0
                end).
    { subst res. destruct (fse_list a), (fse_list b); tauto. }
    rewrite <- R. clear R.
    destruct (res =? 0) eqn:E0; simpl.
    + apply Z.eqb_eq in E0.
      destruct (Nat.eqb (len a) (len b)) eqn:E1; simpl.
      * apply Nat.eqb_eq in E1. tauto.
      * apply Nat.eqb_neq in E1. split; [lia|tauto].
    + apply Z.eqb_neq in E0. tauto.
Qed.

Lemma ci_same_depth : forall a b, ci_same a b -> depth a = depth b.
Proof.
  fix IH 1. intros [p h md l n [x|]] [p' h' md' l' n' [x'|]]; simpl;
    intros (_ & _ & H); try contradiction; [|reflexivity].
  f_equal. now apply IH.
Qed.

Lemma ci_same_sym : forall a b, ci_same a b -> ci_same b a.
Proof.
  fix IH 1. intros [p h md l n [x|]] [p' h' md' l' n' [x'|]]; simpl;
    intros (H1 & H2 & H3); try contradiction; repeat split; auto.
Qed.

Lemma ci_same_cmp : forall a b, ci_same a b -> fsentry_cmp a b = 0.
Proof.
  fix IH 1. intros a b H. apply fsentry_cmp_zero.
  destruct a as [p h md l n [x|]], b as [p' h' md' l' n' [x'|]]; simpl in *;
    destruct H as (H1 & H2 & H3); try contradiction; repeat split; auto.
  - rewrite (strnicmp_lower_r n n' n) by congruence. apply strnicmp_refl.
  - rewrite (strnicmp_lower_r n n' n) by congruence. apply strnicmp_refl.
Qed.

(** Comparing against either of two such keys gives the same answer. *)
Lemma fsentry_cmp_ci_same k :
  forall e k1 k2, (depth e + depth k1 <= k)%nat -> ci_same k1 k2 ->
  fsentry_cmp e k1 = 0 <-> fsentry_cmp e k2 = 0.
Proof.
  induction k as [|k IH]; intros e k1 k2 D C;
    rewrite (fsentry_cmp_zero e k1), (fsentry_cmp_zero e k2);
    destruct e as [p h md l n [x|]], k1 as [p1 h1 md1 l1 n1 [x1|]],
      k2 as [p2 h2 md2 l2 n2 [x2|]];
    unfold list_or_self; cbn [fse_list len name depth ci_same] in *;
    destruct C as (C1 & C2 & C3); try contradiction; try lia;
    rewrite (strnicmp_lower_r n n1 n2 l C2).
  - rewrite C1. tauto.
  - rewrite (IH x x1 x2) by (auto; lia). rewrite C1. tauto.
  - rewrite (IH x (Fsentry p1 h1 md1 l1 n1 None) (Fsentry p2 h2 md2 l2 n2 None))
      by (simpl; auto; lia). rewrite C1. tauto.
  - rewrite (IH (Fsentry p h md l n None) x1 x2) by (simpl; auto; lia).
    rewrite C1. tauto.
  - rewrite C1. tauto.
Qed.

Lemma entry_equals_ci_same `{Platform} e k1 k2 :
  ci_same k1 k2 -> ent_hash k1 = ent_hash k2 ->
  entry_equals e k1 = entry_equals e k2.
Proof.
  intros C E. unfold entry_equals. rewrite <- E.
  assert (Z0 : (fsentry_cmp e k1 =? 0) = (fsentry_cmp e k2 =? 0)).
  { pose proof (fsentry_cmp_ci_same _ e k1 k2 (Nat.le_refl _) C) as I.
    destruct (fsentry_cmp e k1 =? 0) eqn:E1, (fsentry_cmp e k2 =? 0) eqn:E2;
      try reflexivity.
    - apply Z.eqb_eq in E1. apply Z.eqb_neq in E2. tauto.
    - apply Z.eqb_neq in E1. apply Z.eqb_eq in E2. tauto. }
  rewrite <- Z0.
  destruct (same_object e k1) eqn:S1, (same_object e k2) eqn:S2; simpl;
    try reflexivity.
  - apply same_object_eq in S1.
    now rewrite S1, fsentry_cmp_refl, !Z.eqb_refl.
  - apply same_object_eq in S2.
    now rewrite Z0, S2, fsentry_cmp_refl, E, !Z.eqb_refl.
Qed.

Lemma hashmap_get_ci_same `{Platform} mp k1 k2 :
  ci_same k1 k2 -> ent_hash k1 = ent_hash k2 ->
  hashmap_get mp k1 = hashmap_get mp k2.
Proof.
  intros C E. unfold hashmap_get. induction mp as [|e mp IH]; [reflexivity|].
  simpl. rewrite (entry_equals_ci_same e k1 k2 C E).
  destruct (entry_equals e k2); [reflexivity|exact IH].
Qed.

Lemma key_equal_refl : forall k, key_equal k k = true.
Proof.
  fix IH 1. intros [p h md l n [x|]]; simpl;
    rewrite Nat.eqb_refl, String.eqb_refl, ?andb_true_r; [apply IH|reflexivity].
Qed.

(** For keys of one kind the comparison is the equality of the
    specification. *)
Lemma fsentry_cmp_key_equal :
  forall k1 k2, c_names k1 = true -> c_names k2 = true ->
  depth k1 = depth k2 ->
  fsentry_cmp k1 k2 = 0 <-> key_equal k1 k2 = true.
Proof.
  fix IH 1. intros k1 k2 V1 V2 D. rewrite fsentry_cmp_zero.
  destruct k1 as [p1 h1 md1 l1 n1 [x1|]], k2 as [p2 h2 md2 l2 n2 [x2|]];
    try discriminate D; unfold list_or_self;
    cbn [fse_list len name depth c_names key_equal] in *;
    apply andb_prop in V1 as [N1 V1]; apply andb_prop in V2 as [N2 V2];
    rewrite (strnicmp_zero n1 n2 l1 N1 N2), !andb_true_iff, Nat.eqb_eq,
      String.eqb_eq.
  - injection D as D. rewrite (IH x1 x2 V1 V2 D).
    split; [intros (A & -> & B); rewrite B in *; tauto|].
    intros ((A & ->) & B). tauto.
  - split; [intros (A & -> & B); rewrite B in *; tauto|].
    intros ((A & ->) & B). tauto.
Qed.

Lemma toy_memihash_ci s1 s2 n :
  lower (memcpy s1 n) = lower (memcpy s2 n) ->
  memihash (Platform := toy) s1 n = memihash (Platform := toy) s2 n.
Proof. intros E. simpl. now rewrite E. Qed.

(** C6.  The code does not keep "no parent" apart from a parent.
    [fsentry_cmp] lets a listing header, which has no parent, stand in for
    its own parent: the header of the directory [zero_dir] and the key of a
    file of the same name inside it compare equal, although one has a
    parent, the other has none and their paths differ.  The name has hash
    0, so both carry the same hash, and the table hands out the header for
    the file: lstat of "0391295013/0391295013", a name the directory does
    not hold, returns 0 with the mode of a directory, where lstat of
    another name it does not hold returns -1 with ENOENT. *)
Theorem header_taken_for_entry :
  let r := fscache_lstat (P := toy_zero) 0 "0391295013/0391295013" stat0
             toy_world in
  let r' := fscache_lstat (P := toy_zero) 0 "0391295013/nothing" stat0
              toy_world in
  find_files (Platform := toy_zero) zero_dir =
    Found (toy_file "other" 1) [] ERROR_NO_MORE_FILES /\
  fse_list zero_header = None /\
  fse_list zero_key =
    Some (fst (lstat_keys (P := toy_zero) "0391295013/0391295013")) /\
  key_equal zero_header zero_key = false /\
  fsentry_cmp zero_header zero_key = 0 /\
  ent_hash zero_header = ent_hash zero_key /\
  lstat_rc r = Some 0 /\ lstat_mode r = Some S_IFDIR /\
  List.map name (map (cache0 (world_after r toy_world))) = ["other"; zero_dir] /\
  hashmap_get (map (cache0 (world_after r toy_world))) zero_key =
    Some zero_header /\
  lstat_rc r' = Some (-1) /\ errno (mem (world_after r' toy_world)) = ENOENT.
Proof. vm_compute. repeat split. Qed.

(** ** Reference counts *)

Lemma wrap_long_small z : - 2 ^ 31 <= z < 2 ^ 31 -> wrap_long z = z.
Proof. intros H. unfold wrap_long. rewrite Z.mod_small; lia. Qed.

Lemma of_listing_target hdr e :
  fse_list hdr = None -> of_listing hdr e -> list_or_self e = hdr.
Proof.
  intros L [->|E]; unfold list_or_self; [now rewrite L|now rewrite E].
Qed.

Section Listing.
Variables (hdr : fsentry) (a : positive) (nx : list fsentry).
Hypothesis hdr_addr : addr hdr = HeapObj a.
Hypothesis hdr_list : fse_list hdr = None.

Lemma addref_listing m r e :
  of_listing hdr e -> heap m !! a = Some (listing_cell nx r) ->
  fsentry_addref e m = with_heap (<[a := listing_cell nx (wrap_long (r + 1))]> (heap m)) m.
Proof.
  intros O C. unfold fsentry_addref.
  rewrite (of_listing_target hdr e hdr_list O), hdr_addr. simpl.
  now rewrite C.
Qed.

Lemma release_listing m r e :
  of_listing hdr e -> heap m !! a = Some (listing_cell nx r) ->
  fsentry_release e m =
  let m' := with_heap (<[a := listing_cell nx (wrap_long (r - 1))]> (heap m)) m in
  if negb (wrap_long (r - 1) =? 0) then m'
  else fold_left (fun m e => free (addr e) m) (hdr :: nx) m'.
Proof.
  intros O C. unfold fsentry_release.
  rewrite (of_listing_target hdr e hdr_list O), hdr_addr. simpl.
  now rewrite C.
Qed.

(** While references are outstanding only the count of the header moves. *)
Lemma run_ops_alive ops :
  forall m r,
    heap m !! a = Some (listing_cell nx r) ->
    Forall (fun op => of_listing hdr (op_entry op)) ops ->
    stays_alive r ops ->
    r + Z.of_nat (length ops) < 2 ^ 31 ->
    run_ops ops m =
    with_heap (<[a := listing_cell nx (count_after r ops)]> (heap m)) m.
Proof.
  induction ops as [|op rest IH]; intros m r C F A B.
  - simpl. rewrite insert_id by exact C. now destruct m.
  - inversion F as [|? ? O F']; subst. destruct A as [R A].
    assert (R' : 0 < r + delta op) by (destruct rest; apply A).
    simpl in B.
    assert (S1 : run_op m op =
                 with_heap (<[a := listing_cell nx (r + delta op)]> (heap m)) m).
    { destruct op as [e|e]; simpl in *.
      - rewrite (addref_listing m r e O C), wrap_long_small by lia. reflexivity.
      - rewrite (release_listing m r e O C). cbv zeta.
        rewrite wrap_long_small by lia.
        replace (r - 1) with (r + -1) by lia.
        destruct (r + -1 =? 0) eqn:E; [apply Z.eqb_eq in E; lia|reflexivity]. }
    unfold run_ops in *. simpl. rewrite S1.
    rewrite (IH _ (r + delta op)); simpl.
    + now rewrite insert_insert_eq.
    + apply lookup_insert_eq.
    + exact F'.
    + exact A.
    + assert (delta op <= 1) by (destruct op; simpl; lia). lia.
Qed.

Lemma free_chain_log l :
  forall m, freed (fold_left (fun m e => free (addr e) m) l m) =
            freed m ++ List.map addr l.
Proof.
  induction l as [|x l IH]; intros m; simpl; [now rewrite app_nil_r|].
  rewrite IH. simpl. now rewrite <- app_assoc.
Qed.

Lemma free_chain_gone l :
  forall m p, heap_at m p = None ->
    heap_at (fold_left (fun m e => free (addr e) m) l m) p = None.
Proof.
  induction l as [|x l IH]; intros m p N; simpl; [exact N|].
  apply IH. destruct p as [s|b]; [reflexivity|]. simpl in *.
  destruct (addr x) as [s|c]; [exact N|].
  destruct (decide (c = b)) as [->|Ne]; [apply lookup_delete_eq|].
  now rewrite lookup_delete_ne.
Qed.

Lemma free_chain_heap l :
  forall m x, In x l ->
    heap_at (fold_left (fun m e => free (addr e) m) l m) (addr x) = None.
Proof.
  induction l as [|y l IH]; intros m x I; [destruct I|].
  simpl. destruct I as [->|I]; [|now apply IH].
  apply free_chain_gone. destruct (addr x) as [s|b]; [reflexivity|].
  simpl. apply lookup_delete_eq.
Qed.

End Listing.

(** C2.  For every sequence of acquires and releases on entries of one
    listing (its header or any of its entries): acquiring or releasing
    through an entry is acquiring or releasing through the header, and moves
    the header's count and no other cell; as long as references are
    outstanding nothing is freed; the release that takes the count to zero
    hands the header and every entry chained to it to [free], each once, and
    none of them stays allocated. *)
Theorem listing_reference_lifetime (m : memory) (hdr : fsentry) (a : positive)
    (nx : list fsentry) (r : Z) (ops : list refop) (e : fsentry) :
  addr hdr = HeapObj a -> fse_list hdr = None ->
  heap m !! a = Some {| h_next := nx; h_un := U_refcnt r |} ->
  Forall (fun op => of_listing hdr (op_entry op)) ops ->
  stays_alive r ops ->
  r + Z.of_nat (length ops) < 2 ^ 31 ->
  of_listing hdr e ->
  (fsentry_addref e m = fsentry_addref hdr m /\
   fsentry_release e m = fsentry_release hdr m) /\
  (heap (run_ops ops m) =
     <[a := {| h_next := nx; h_un := U_refcnt (count_after r ops) |}]> (heap m) /\
   freed (run_ops ops m) = freed m) /\
  (count_after r ops = 1 ->
   freed (fsentry_release e (run_ops ops m)) =
     freed m ++ List.map addr (hdr :: nx) /\
   forall x, In x (hdr :: nx) ->
     heap_at (fsentry_release e (run_ops ops m)) (addr x) = None).
Proof.
  intros Ha Hl C F A B O.
  assert (Oh : of_listing hdr hdr) by now left.
  assert (R : 0 < r) by (destruct ops; apply A).
  split; [|split].
  - rewrite (addref_listing hdr a nx Ha Hl m r e O C),
      (addref_listing hdr a nx Ha Hl m r hdr Oh C),
      (release_listing hdr a nx Ha Hl m r e O C),
      (release_listing hdr a nx Ha Hl m r hdr Oh C).
    auto.
  - rewrite (run_ops_alive hdr a nx Ha Hl ops m r C F A B). simpl. auto.
  - intros One.
    rewrite (run_ops_alive hdr a nx Ha Hl ops m r C F A B).
    rewrite (release_listing hdr a nx Ha Hl _ (count_after r ops) e O)
      by (simpl; apply lookup_insert_eq).
    rewrite One. cbv zeta. change (wrap_long (1 - 1) =? 0) with true.
    cbv beta iota delta [negb]. split.
    + now rewrite free_chain_log.
    + intros x I. now apply free_chain_heap.
Qed.

Lemma listing_reference_lifetime_witness :
  freed (fsentry_release child_d
           (run_ops [Acquire child_d; Acquire header_d; Release child_d;
                     Release header_d] memory_d)) =
  [HeapObj 1; HeapObj 2].
Proof.
  refine (proj1 (proj2 (proj2
    (listing_reference_lifetime memory_d header_d 1 [child_d] 1
       [Acquire child_d; Acquire header_d; Release child_d; Release header_d]
       child_d eq_refl eq_refl eq_refl _ _ _ _)) eq_refl)).
  - repeat constructor; now right.
  - simpl. lia.
  - simpl. lia.
  - now right.
Defined.

(** ** The paths through [fscache_get] *)

#[local] Arguments fsentry_alloc : simpl never.
#[local] Arguments fseentry_create_entry : simpl never.
#[local] Arguments fsentry_create_list : simpl never.
#[local] Arguments fsentry_addref : simpl never.
#[local] Arguments fsentry_release : simpl never.
#[local] Arguments heap_store : simpl never.
#[local] Arguments fscache_get : simpl never.
#[local] Arguments fscache_add : simpl never.
#[local] Arguments hashmap_get : simpl never.
#[local] Arguments fsentry_cmp : simpl never.
#[local] Arguments fsentry_init : simpl never.
#[local] Arguments wrap_uint : simpl never.
#[local] Arguments wrap_long : simpl never.
#[local] Arguments wrap_ushort : simpl never.

Section Get.
Context {P : Platform}.

Lemma fscache_get_hit cache key m fse :
  hashmap_get (map cache) key = Some fse ->
  fscache_get cache key m =
  if negb (st_mode fse =? 0)
  then (Some fse, incr_fscache_requests cache, fsentry_addref fse m)
  else (None, incr_fscache_requests cache, m).
Proof. intros H. unfold fscache_get. simpl. now rewrite H. Qed.

Lemma fscache_get_listed cache key m l x :
  hashmap_get (map cache) key = None ->
  fse_list key = Some l -> hashmap_get (map cache) l = Some x ->
  fscache_get cache key m =
  (None, incr_fscache_requests cache, with_errno ENOENT m).
Proof. intros H L X. unfold fscache_get. simpl. now rewrite H, L, X. Qed.

Lemma fscache_get_miss cache key m :
  true_miss cache key ->
  fscache_get cache key m =
  let cache := incr_fscache_requests cache in
  let '(fse, dir_not_found, m) := fsentry_create_list (list_or_self key) m in
  match fse with
  | None =>
    match dir_not_found, fse_list key with
    | true, Some l =>
      let '(fse, m) := absent_header l m in
      (None, with_map (hashmap_add (map cache) fse) cache, m)
    | _, _ => (None, cache, m)
    end
  | Some fse =>
    let cache := fscache_add (incr_fscache_misses cache) fse m in
    let fse :=
      match fse_list key with
      | Some _ => hashmap_get (map cache) key
      | None => Some fse
      end in
    match match fse with
          | Some e => if st_mode e =? 0 then None else Some e
          | None => None
          end with
    | Some e => (Some e, cache, fsentry_addref e m)
    | None => (None, cache, with_errno ENOENT m)
    end
  end.
Proof.
  intros [H L]. unfold fscache_get. simpl. rewrite H.
  assert (E : match fse_list key with
              | Some l => hashmap_get (map cache) l
              | None => None
              end = None).
  { destruct (fse_list key) as [l|]; [now apply L|reflexivity]. }
  rewrite E. destruct (fsentry_create_list (list_or_self key) m) as [[fse d] m'].
  destruct fse as [fse|]; [reflexivity|].
  destruct d; [|reflexivity]. destruct (fse_list key) as [l|]; [|reflexivity].
  unfold absent_header.
  now destruct (fsentry_alloc (fse_list l) (name l) (len l) m').
Qed.

(** What the enumeration returns, by what the file system answers. *)
Lemma create_list_refused dir m e :
  find_files (memcpy (name dir) (len dir)) = Name_refused e ->
  fsentry_create_list dir m = (None, false, with_errno e m).
Proof. intros H. unfold fsentry_create_list. now rewrite H. Qed.

Lemma create_list_no_handle dir m err :
  find_files (memcpy (name dir) (len dir)) = No_handle err ->
  fsentry_create_list dir m =
  (None, true,
   with_errno (no_handle_errno err) (log_find (memcpy (name dir) (len dir)) m)).
Proof. intros H. unfold fsentry_create_list. now rewrite H. Qed.

(** The enumeration log only grows by the calls of [FindFirstFileExW]. *)
Lemma find_log_heap_store p c m : find_log (heap_store p c m) = find_log m.
Proof. now destruct p. Qed.

Lemma find_log_alloc lst nm n m :
  find_log (snd (fsentry_alloc lst nm n m)) = find_log m.
Proof.
  unfold fsentry_alloc, xmalloc. cbv beta iota zeta. cbn [snd].
  now rewrite find_log_heap_store.
Qed.

Lemma find_log_create_entry lst fdata m :
  find_log (snd (fseentry_create_entry lst fdata m)) = find_log m.
Proof.
  unfold fseentry_create_entry.
  pose proof (find_log_alloc lst (xwcstoutf (cFileName fdata))
                (String.length (xwcstoutf (cFileName fdata))) m) as A.
  destruct (fsentry_alloc lst (xwcstoutf (cFileName fdata))
              (String.length (xwcstoutf (cFileName fdata))) m) as [fse m'].
  simpl in *. now rewrite find_log_heap_store.
Qed.

Lemma find_log_create_entries lst fdatas :
  forall m, find_log (snd (create_entries lst fdatas m)) = find_log m.
Proof.
  induction fdatas as [|fdata rest IH]; intros m; [reflexivity|].
  cbn [create_entries].
  pose proof (find_log_create_entry (Some lst) fdata m) as A.
  destruct (fseentry_create_entry (Some lst) fdata m) as [fse m1].
  pose proof (IH m1) as B. destruct (create_entries lst rest m1) as [l m2].
  simpl in *. congruence.
Qed.

Lemma find_log_link_chain nodes :
  forall m, find_log (link_chain nodes m) = find_log m.
Proof.
  induction nodes as [|fse rest IH]; intros m; [reflexivity|]. simpl.
  rewrite IH. destruct (heap_at m (addr fse)); [|reflexivity].
  apply find_log_heap_store.
Qed.

Lemma find_log_free_chain l :
  forall m, find_log (fold_left (fun m e => free (addr e) m) l m) = find_log m.
Proof. induction l as [|x l IH]; intros m; simpl; [reflexivity|now rewrite IH]. Qed.

Lemma find_log_addref fse m : find_log (fsentry_addref fse m) = find_log m.
Proof.
  unfold fsentry_addref. destruct (heap_at m _) as [[nx [r|sd]]|]; try reflexivity.
  apply find_log_heap_store.
Qed.

Lemma find_log_release fse m : find_log (fsentry_release fse m) = find_log m.
Proof.
  unfold fsentry_release. destruct (heap_at m _) as [[nx [r|sd]]|]; try reflexivity.
  destruct (negb _); [apply find_log_heap_store|].
  rewrite find_log_free_chain. apply find_log_heap_store.
Qed.

(** One call of [fsentry_create_list] is at most one call of
    [FindFirstFileExW]: none when the name is refused, one otherwise. *)
Lemma find_log_create_list dir m :
  find_log (snd (fsentry_create_list dir m)) =
  match find_files (memcpy (name dir) (len dir)) with
  | Name_refused _ => find_log m
  | _ => find_log m ++ [memcpy (name dir) (len dir)]
  end.
Proof.
  unfold fsentry_create_list.
  destruct (find_files (memcpy (name dir) (len dir))) as [e|err|first more err];
    try reflexivity.
  set (m0 := log_find (memcpy (name dir) (len dir)) m).
  pose proof (find_log_alloc None (name dir) (len dir) m0) as A.
  destruct (fsentry_alloc None (name dir) (len dir) m0) as [lst m1].
  pose proof (find_log_create_entries (set_st_mode S_IFDIR lst) (first :: more) m1) as B.
  destruct (create_entries (set_st_mode S_IFDIR lst) (first :: more) m1) as [es m2].
  simpl in A, B.
  destruct (err =? ERROR_NO_MORE_FILES); cbn [snd find_log with_errno];
    rewrite ?find_log_release, find_log_link_chain; congruence.
Qed.

End Get.

Section Miss.
Context {P : Platform}.

Lemma is_true_miss_spec cache key :
  is_true_miss cache key = true <-> true_miss cache key.
Proof.
  unfold is_true_miss, true_miss.
  destruct (hashmap_get (map cache) key) as [x|].
  - split; [discriminate|intros [H _]; discriminate H].
  - destruct (fse_list key) as [l|].
    + destruct (hashmap_get (map cache) l) as [y|] eqn:E.
      * split; [discriminate|]. intros [_ H]. specialize (H l eq_refl).
        congruence.
      * split; [|reflexivity]. intros _. split; [reflexivity|].
        now intros l' [= <-].
    + split; [|reflexivity]. intros _. split; [reflexivity|discriminate].
Qed.

Lemma create_list_found dir m first more err :
  find_files (memcpy (name dir) (len dir)) = Found first more err ->
  exists lst m1 m2,
    fsentry_create_list dir m =
    if err =? ERROR_NO_MORE_FILES then (Some lst, false, m1)
    else (None, false, m2).
Proof.
  intros H. unfold fsentry_create_list. rewrite H.
  destruct (fsentry_alloc None (name dir) (len dir) _) as [lst m1].
  destruct (create_entries (set_st_mode S_IFDIR lst) (first :: more) m1) as [es m2].
  eexists _, _, _. destruct (err =? ERROR_NO_MORE_FILES); reflexivity.
Qed.

Lemma misses_fscache_add cache fse m :
  fscache_misses (fscache_add cache fse m) = fscache_misses cache.
Proof. reflexivity. Qed.

(** C7, as the code has it.  The miss counter is incremented by exactly
    one on a true miss (the key is not in the table and, for an entry of a
    listing, the listing is not in the table either) whose enumeration
    succeeds; it is left alone on a true miss whose enumeration fails, and on
    every hit and cache-confirmed-absent outcome. *)
Theorem miss_counter_after_lookup cache key m :
  fscache_misses (snd (fst (fscache_get cache key m))) =
  if is_true_miss cache key && enumerates key
  then wrap_uint (fscache_misses cache + 1)
  else fscache_misses cache.
Proof.
  destruct (is_true_miss cache key) eqn:T.
  - apply is_true_miss_spec in T. rewrite (fscache_get_miss cache key m T).
    cbv zeta. unfold enumerates, dir_path. simpl andb.
    destruct (find_files (memcpy (name (list_or_self key)) (len (list_or_self key))))
      as [e|err|first more err] eqn:F.
    + rewrite (create_list_refused _ m e F). reflexivity.
    + rewrite (create_list_no_handle _ m err F).
      destruct (fse_list key) as [l|]; [|reflexivity].
      now destruct (absent_header l _).
    + destruct (create_list_found _ m first more err F) as (lst & m1 & m2 & E).
      rewrite E. destruct (err =? ERROR_NO_MORE_FILES); [|reflexivity].
      set (c := fscache_add _ lst m1).
      assert (C : fscache_misses c = wrap_uint (fscache_misses cache + 1))
        by reflexivity.
      destruct (match match fse_list key with
                      | Some _ => hashmap_get (map c) key
                      | None => Some lst
                      end with
                | Some e => if st_mode e =? 0 then None else Some e
                | None => None
                end); exact C.
  - simpl andb. unfold is_true_miss in T.
    destruct (hashmap_get (map cache) key) as [x|] eqn:H.
    + rewrite (fscache_get_hit cache key m x H).
      now destruct (negb (st_mode x =? 0)).
    + destruct (fse_list key) as [l|] eqn:L; [|discriminate].
      destruct (hashmap_get (map cache) l) as [y|] eqn:Y; [|discriminate].
      now rewrite (fscache_get_listed cache key m l y H L Y).
Qed.

Lemma absent_header_fields l m :
  let '(h, m') := absent_header l m in
  st_mode h = 0 /\ fse_list h = fse_list l /\
  name h = memcpy (name l) (len l) /\ len h = wrap_ushort (len l) /\
  addr h = HeapObj (brk m) /\
  find_log m' = find_log m /\ errno m' = errno m.
Proof.
  unfold absent_header, fsentry_alloc, xmalloc. cbn.
  repeat split; reflexivity.
Qed.

(** C4, as the code has it.  When the lookup reaches a true miss and the
    enumeration reports "directory not found" (it returns no listing and
    sets [dir_not_found]), the lookup reports not-found, with the errno of
    the enumeration; a "cached absent" header for the directory is inserted
    into the table when the request was for an entry of the directory, and
    nothing is inserted when the request was for the listing itself. *)
Theorem dir_not_found_recorded_for_entries cache key m m1 :
  true_miss cache key ->
  fsentry_create_list (list_or_self key) m = (None, true, m1) ->
  exists cache' m',
    fscache_get cache key m = (None, cache', m') /\
    errno m' = errno m1 /\
    match fse_list key with
    | Some l =>
      exists hdr, map cache' = hdr :: map cache /\
        st_mode hdr = 0 /\ fse_list hdr = fse_list l /\
        name hdr = memcpy (name l) (len l) /\ len hdr = wrap_ushort (len l)
    | None => map cache' = map cache /\ m' = m1
    end.
Proof.
  intros T F. rewrite (fscache_get_miss cache key m T). cbv zeta. rewrite F.
  destruct (fse_list key) as [l|].
  - pose proof (absent_header_fields l m1) as A.
    destruct (absent_header l m1) as [h m'].
    destruct A as (A1 & A2 & A3 & A4 & A5 & A6 & A7).
    eexists _, _. split; [reflexivity|]. split; [exact A7|].
    exists h. repeat split; assumption.
  - eexists _, _. repeat split; reflexivity.
Qed.

End Miss.

(** ** The code at work on the toy platform *)

Lemma dir_not_found_recorded_for_entries_witness :
  exists cache' m',
    fscache_get (P := toy) empty_cache (snd (lstat_keys (P := toy) "d/f")) toy_memory =
      (None, cache', m') /\
    errno m' = ENOENT /\
    exists hdr, map cache' = [hdr] /\
      st_mode hdr = 0 /\ fse_list hdr = None /\
      name hdr = "d"%string /\ len hdr = 1%nat.
Proof.
  apply (dir_not_found_recorded_for_entries (P := toy) empty_cache
           (snd (lstat_keys (P := toy) "d/f")) toy_memory
           (snd (fsentry_create_list (P := toy) (fst (lstat_keys (P := toy) "d/f"))
                   toy_memory))).
  - split; [reflexivity|]. intros l _. reflexivity.
  - vm_compute; reflexivity.
Defined.

(** C4 as it is worded fails: opendir of a directory that does not exist
    is a true miss whose enumeration reports "not found", and the table
    stays empty. *)
Lemma listing_request_records_nothing :
  ~ (forall (P : Platform) cache key m m1,
       true_miss cache key ->
       fsentry_create_list (list_or_self key) m = (None, true, m1) ->
       exists hdr, map (snd (fst (fscache_get cache key m))) = hdr :: map cache /\
                   st_mode hdr = 0).
Proof.
  intros H.
  destruct (H toy empty_cache (opendir_key (P := toy) "d") toy_memory
              (snd (fsentry_create_list (P := toy) (opendir_key (P := toy) "d") toy_memory)))
    as (hdr & E & _).
  - split; [reflexivity|]. discriminate.
  - vm_compute; reflexivity.
  - vm_compute in E. discriminate E.
Qed.

(** C7 as it is worded fails: lstat of a file in a directory that does not
    exist is a true miss, and the miss counter stays at zero. *)
Lemma failed_enumeration_not_counted :
  ~ (forall (P : Platform) cache key m,
       true_miss cache key ->
       fscache_misses (snd (fst (fscache_get cache key m))) =
       wrap_uint (fscache_misses cache + 1)).
Proof.
  intros H.
  specialize (H toy empty_cache (snd (lstat_keys (P := toy) "d/f")) toy_memory).
  vm_compute in H. discriminate H.
  split; [reflexivity|]. intros l _. reflexivity.
Qed.

(** C1 at a failing input.  The directory [locked] exists and may not be
    read.  The first lstat of [locked/f] fails with EACCES, and records
    [locked] as absent; the second is answered not-found from the table,
    with ENOENT and without an enumeration. *)
Theorem access_denied_recorded_as_absent :
  let w1 := after_lstat "locked/f" toy_world in
  let w2 := after_lstat "locked/f" w1 in
  find_files (Platform := toy) "locked" = No_handle ERROR_ACCESS_DENIED /\
  value_of (fscache_lstat (P := toy) 0 "locked/f" stat0 toy_world) =
    Some (Lstat_ret (-1) stat0) /\
  errno (mem w1) = EACCES /\
  find_log (mem w1) = ["locked"%string] /\
  List.map (fun e => (name e, st_mode e)) (map (cache0 w1)) =
    [("locked"%string, 0)] /\
  value_of (fscache_lstat (P := toy) 0 "locked/f" stat0 w1) =
    Some (Lstat_ret (-1) stat0) /\
  errno (mem w2) = ENOENT /\
  find_log (mem w2) = ["locked"%string].
Proof. vm_compute. repeat split. Qed.

(** What holds of C1: a failure that leaves the flag [dir_not_found] clear
    (the name is refused, or the enumeration breaks off after the handle was
    had) is passed on through errno and nothing is inserted. *)
Lemma enumeration_error_not_cached `{Platform} cache key m :
  true_miss cache key ->
  match find_files (dir_path key) with
  | Name_refused e =>
    exists m', fscache_get cache key m = (None, incr_fscache_requests cache, m') /\
               errno m' = e
  | Found _ _ err =>
    err <> ERROR_NO_MORE_FILES ->
    exists m', fscache_get cache key m = (None, incr_fscache_requests cache, m') /\
               errno m' = err_win_to_posix err
  | No_handle _ => True
  end.
Proof.
  intros T. rewrite (fscache_get_miss cache key m T). cbv zeta.
  unfold dir_path.
  destruct (find_files (memcpy (name (list_or_self key)) (len (list_or_self key))))
    as [e|err|first more err] eqn:F; [|exact I|].
  - rewrite (create_list_refused _ m e F). eexists. split; reflexivity.
  - intros Ne. unfold fsentry_create_list. rewrite F.
    destruct (fsentry_alloc None _ _ _) as [lst m1].
    destruct (create_entries (set_st_mode S_IFDIR lst) (first :: more) m1) as [es m2].
    apply Z.eqb_neq in Ne. rewrite Ne. eexists. split; reflexivity.
Qed.

(** C5 at a failing input.  lstat of [d/f] records the missing directory
    [d] as absent; lstat of [locked/f] then leaves EACCES in errno; opendir
    of [d] hits the absent header and returns NULL without touching errno,
    which still reads EACCES and not ENOENT. *)
Theorem absent_header_hit_keeps_errno :
  let w1 := after_lstat "d/f" toy_world in
  let w2 := after_lstat "locked/f" w1 in
  let w3 := after_opendir "d" w2 in
  errno (mem w2) = EACCES /\
  value_of (fscache_opendir (P := toy) 0 "d" w2) = Some (Opendir_ret None) /\
  errno (mem w3) = EACCES /\
  find_log (mem w3) = find_log (mem w2).
Proof. vm_compute. repeat split. Qed.

(** Every not-found outcome of the lookup, by path: a hit on an entry whose
    mode is unset leaves errno alone; a cached listing without the entry,
    and a re-probe after a successful enumeration, set ENOENT; a failed
    enumeration leaves the errno of the enumeration. *)
Lemma fscache_get_not_found `{Platform} cache key m cache' m' :
  fscache_get cache key m = (None, cache', m') ->
  (exists e, hashmap_get (map cache) key = Some e /\ st_mode e = 0 /\ m' = m) \/
  errno m' = ENOENT \/
  (true_miss cache key /\ enumerates key = false /\
   (forall err, find_files (dir_path key) = No_handle err ->
                errno m' = no_handle_errno err)).
Proof.
  intros G. destruct (is_true_miss cache key) eqn:T.
  - apply is_true_miss_spec in T. rewrite (fscache_get_miss cache key m T) in G.
    cbv zeta in G. unfold enumerates, dir_path.
    destruct (find_files (memcpy (name (list_or_self key)) (len (list_or_self key))))
      as [e|err|first more err] eqn:F.
    + right. right. split; [exact T|]. split; [reflexivity|discriminate].
    + right. right. rewrite (create_list_no_handle _ m err F) in G.
      split; [exact T|]. split; [reflexivity|]. intros err' [= <-].
      destruct (fse_list key) as [l|].
      * pose proof (absent_header_fields l
          (with_errno (no_handle_errno err)
             (log_find (memcpy (name (list_or_self key))
                               (len (list_or_self key))) m))) as A.
        destruct (absent_header l _) as [h mh].
        destruct A as (_ & _ & _ & _ & _ & _ & A). now injection G as _ <-.
      * now injection G as _ <-.
    + destruct (create_list_found _ m first more err F) as (lst & m1 & m2 & E).
      rewrite E in G. destruct (err =? ERROR_NO_MORE_FILES).
      * right. left.
        destruct (match match fse_list key with
                        | Some _ => hashmap_get (map (fscache_add _ lst m1)) key
                        | None => Some lst
                        end with
                  | Some e => if st_mode e =? 0 then None else Some e
                  | None => None
                  end); [discriminate G|]. now injection G as _ <-.
      * right. right. split; [exact T|]. split; [reflexivity|discriminate].
  - unfold is_true_miss in T.
    destruct (hashmap_get (map cache) key) as [x|] eqn:X.
    + left. rewrite (fscache_get_hit cache key m x X) in G.
      destruct (st_mode x =? 0) eqn:M; [|discriminate G].
      exists x. apply Z.eqb_eq in M. simpl in G. now injection G as _ <-.
    + destruct (fse_list key) as [l|] eqn:L; [|discriminate].
      destruct (hashmap_get (map cache) l) as [y|] eqn:Y; [|discriminate].
      rewrite (fscache_get_listed cache key m l y X L Y) in G.
      right. left. now injection G as _ <-.
Qed.

(** ** Negative caching *)

Lemma wrap_ushort_idem n : wrap_ushort (wrap_ushort n) = wrap_ushort n.
Proof.
  unfold wrap_ushort. rewrite Z2Nat.id by (apply Z.mod_pos_bound; lia).
  now rewrite Z.mod_mod by lia.
Qed.

Lemma strnicmp_memcpy_l a s n : strnicmp (memcpy a n) s n = strnicmp a s n.
Proof.
  revert a s. induction n as [|n IH]; intros a s; [reflexivity|].
  destruct a as [|ca ra], s as [|c r]; simpl; try reflexivity.
  now rewrite IH.
Qed.

Section Negative.
Context {P : Platform}.
Hypothesis memihash_ci :
  forall s1 s2 n, lower (memcpy s1 n) = lower (memcpy s2 n) ->
                  memihash s1 n = memihash s2 n.

(** The header recorded for a directory is found again under the key of
    that directory. *)
Lemma absent_header_equals p s n m :
  let l := fsentry_init (blank p) None s n in
  entry_equals (fst (absent_header l m)) l = true.
Proof.
  cbv zeta. unfold entry_equals, absent_header, fsentry_alloc, xmalloc.
  cbv beta iota zeta. cbn [fst snd].
  apply orb_true_iff. right. apply andb_true_iff. split.
  - apply Z.eqb_eq. unfold fsentry_init, fsentry_hash, set_st_mode, blank.
    cbn [ent_hash fse_list name len addr st_mode].
    rewrite wrap_ushort_idem. f_equal. apply memihash_ci.
    now rewrite memcpy_memcpy.
  - apply Z.eqb_eq. apply fsentry_cmp_zero.
    unfold fsentry_init, set_st_mode, blank.
    cbn [ent_hash fse_list name len addr st_mode].
    rewrite wrap_ushort_idem. repeat split.
    rewrite strnicmp_memcpy_l. apply strnicmp_refl.
Qed.

Lemma fscache_lstat_not_found t w c cache filename st cache' m' :
  tls w !! t = Some c -> caches w !! c = Some cache ->
  do_fscache_enabled cache filename = true ->
  fscache_get (incr_lstat_requests cache) (snd (lstat_keys filename)) (mem w) =
    (None, cache', m') ->
  fscache_lstat t filename st w =
  Ret (Lstat_ret (-1) st) (with_mem m' (with_caches (<[c := cache']> (caches w)) w)).
Proof.
  intros T C E G. unfold fscache_lstat, fscache_getcache. rewrite T, C, E.
  cbn [negb]. destruct (lstat_keys filename) as [k0 k1]. cbn [snd] in G.
  now rewrite G.
Qed.

Lemma lstat_keys_list filename :
  fse_list (snd (lstat_keys filename)) = Some (fst (lstat_keys filename)).
Proof. reflexivity. Qed.

Lemma lstat_keys_dir filename :
  exists n, fst (lstat_keys filename) =
            fsentry_init (blank (StackObj 0)) None filename n.
Proof. unfold lstat_keys. eexists. reflexivity. Qed.

(** C3.  If the directory of [filename] does not exist (the file system
    has no handle for it, with an error that reads ENOENT), a first lstat
    with caching enabled asks the file system once and returns not-found,
    -1 with errno ENOENT, and a second identical lstat returns not-found,
    -1 with errno ENOENT, and asks nothing. *)
Theorem negative_caching (t : nat) (w : world) (c : positive) (cache : fscache)
    (filename : string) (st st' : stat.t) (err : Z) :
  tls w !! t = Some c -> caches w !! c = Some cache ->
  do_fscache_enabled cache filename = true ->
  true_miss cache (snd (lstat_keys filename)) ->
  find_files (dir_path (snd (lstat_keys filename))) = No_handle err ->
  no_handle_errno err = ENOENT ->
  exists w1 w2,
    fscache_lstat t filename st w = Ret (Lstat_ret (-1) st) w1 /\
    errno (mem w1) = ENOENT /\
    find_log (mem w1) =
      find_log (mem w) ++ [dir_path (snd (lstat_keys filename))] /\
    fscache_lstat t filename st' w1 = Ret (Lstat_ret (-1) st') w2 /\
    errno (mem w2) = ENOENT /\
    find_log (mem w2) = find_log (mem w1).
Proof.
  intros T C E M F NF.
  pose proof (lstat_keys_list filename) as L.
  destruct (lstat_keys_dir filename) as [n K0].
  set (k1 := snd (lstat_keys filename)) in *.
  set (k0 := fst (lstat_keys filename)) in *.
  set (cl := incr_lstat_requests cache).
  assert (Ml : true_miss cl k1) by exact M.
  (* the first call *)
  pose proof (fscache_get_miss cl k1 (mem w) Ml) as G1. cbv zeta in G1.
  unfold dir_path in F. rewrite (create_list_no_handle _ (mem w) err F), L in G1.
  set (m1 := with_errno (no_handle_errno err) _) in G1.
  pose proof (absent_header_fields k0 m1) as A.
  pose proof (absent_header_equals (StackObj 0) filename n m1) as Q.
  cbv zeta in Q. rewrite <- K0 in Q.
  destruct (absent_header k0 m1) as [h m2].
  destruct A as (A1 & A2 & A3 & A4 & A5 & A6 & A7). cbn [fst] in Q.
  set (c1 := with_map _ _) in G1.
  set (w1 := with_mem m2 (with_caches (<[c := c1]> (caches w)) w)).
  exists w1.
  assert (N1 : errno (mem w1) = ENOENT) by (cbn [mem w1 with_mem]; now rewrite A7).
  assert (T1 : tls w1 !! t = Some c) by exact T.
  assert (C1 : caches w1 !! c = Some c1) by (simpl; apply lookup_insert_eq).
  assert (E1 : do_fscache_enabled c1 filename = true) by exact E.
  (* the second call *)
  set (cl1 := incr_lstat_requests c1).
  assert (G2 : exists cache2 m3,
             fscache_get cl1 k1 (mem w1) = (None, cache2, m3) /\
             find_log m3 = find_log m2 /\ errno m3 = ENOENT).
  { destruct (entry_equals h k1) eqn:Q1.
    - assert (H1 : hashmap_get (map cl1) k1 = Some h).
      { unfold hashmap_get. simpl. unfold hashmap_add. simpl. now rewrite Q1. }
      rewrite (fscache_get_hit cl1 k1 (mem w1) h H1), A1. simpl.
      eexists _, _. split; [reflexivity|]. split; [reflexivity|exact N1].
    - assert (H1 : hashmap_get (map cl1) k1 = None).
      { unfold hashmap_get. simpl. unfold hashmap_add. simpl. rewrite Q1.
        exact (proj1 M). }
      assert (H0 : hashmap_get (map cl1) k0 = Some h).
      { unfold hashmap_get. simpl. unfold hashmap_add. simpl. now rewrite Q. }
      rewrite (fscache_get_listed cl1 k1 (mem w1) k0 h H1 L H0).
      eexists _, _. split; [reflexivity|]. split; reflexivity. }
  destruct G2 as (cache2 & m3 & G2 & LG & N2).
  exists (with_mem m3 (with_caches (<[c := cache2]> (caches w1)) w1)).
  split; [exact (fscache_lstat_not_found t w c cache filename st c1 m2 T C E G1)|].
  split; [exact N1|].
  split; [exact A6|].
  split; [exact (fscache_lstat_not_found t w1 c c1 filename st' cache2 m3 T1 C1 E1 G2)|].
  split; [exact N2|].
  exact LG.
Qed.

End Negative.

Lemma negative_caching_witness :
  exists w1 w2,
    fscache_lstat (P := toy) 0 "d/f" stat0 toy_world = Ret (Lstat_ret (-1) stat0) w1 /\
    errno (mem w1) = ENOENT /\
    find_log (mem w1) = ["d"%string] /\
    fscache_lstat (P := toy) 0 "d/f" stat0 w1 = Ret (Lstat_ret (-1) stat0) w2 /\
    errno (mem w2) = ENOENT /\
    find_log (mem w2) = find_log (mem w1).
Proof.
  apply (negative_caching (P := toy) toy_memihash_ci 0 toy_world 1 empty_cache
           "d/f" stat0 stat0 ERROR_PATH_NOT_FOUND).
  - reflexivity.
  - reflexivity.
  - reflexivity.
  - split; [reflexivity|]. intros l _. reflexivity.
  - reflexivity.
  - reflexivity.
Defined.

(** ** The storage of a fresh listing *)

Lemma extends_refl m : extends m m.
Proof. split; auto. Qed.

Lemma extends_trans m1 m2 m3 : extends m1 m2 -> extends m2 m3 -> extends m1 m3.
Proof.
  intros [L1 N1] [L2 N2]. split; [auto|]. intros x.
  destruct (N2 x) as [E|E]; [rewrite E; apply N1|now right].
Qed.

Lemma heap_at_store p c m q :
  heap_at (heap_store p c m) q =
  match p, q with
  | HeapObj a, HeapObj b => if decide (a = b) then Some c else heap_at m q
  | _, _ => heap_at m q
  end.
Proof.
  destruct p as [s|a], q as [s'|b]; try reflexivity.
  unfold heap_store. simpl. destruct (decide (a = b)) as [->|Ne].
  - apply lookup_insert_eq.
  - now apply lookup_insert_ne.
Qed.

Lemma live_store p c m q : live m q -> live (heap_store p c m) q.
Proof.
  unfold live. rewrite heap_at_store. destruct p as [s|a], q as [s'|b]; auto.
  destruct (decide (a = b)); eauto.
Qed.

Lemma live_store_self a c m : live (heap_store (HeapObj a) c m) (HeapObj a).
Proof. unfold live. rewrite heap_at_store. rewrite decide_True by reflexivity. eauto. Qed.

Lemma extends_store p c m : h_next c = [] -> extends m (heap_store p c m).
Proof.
  intros N. split; [intros q; apply live_store|].
  intros x. unfold next_chain. rewrite heap_at_store.
  destruct p as [s|a]; [now left|]. destruct (addr x) as [s'|b]; [now left|].
  destruct (decide (a = b)); [now right|now left].
Qed.

Section Fresh.
Context {P : Platform}.

Lemma alloc_extends lst nm n m :
  let '(fse, m') := fsentry_alloc lst nm n m in
  extends m m' /\ live m' (addr fse) /\ next_chain m' fse = [].
Proof.
  unfold fsentry_alloc, xmalloc. cbv beta iota zeta.
  set (m0 := {| errno := errno m; heap := heap m; brk := Pos.succ (brk m);
                freed := freed m; find_log := find_log m |}).
  assert (E0 : extends m m0) by (split; [intros q L; exact L|now left]).
  change (addr (fsentry_init (blank (HeapObj (brk m))) lst (memcpy nm n) n))
    with (HeapObj (brk m)).
  split; [|split].
  - eapply extends_trans; [exact E0|]. now apply extends_store.
  - apply live_store_self.
  - unfold next_chain.
    change (addr (fsentry_init (blank (HeapObj (brk m))) lst (memcpy nm n) n))
      with (HeapObj (brk m)).
    rewrite heap_at_store, decide_True by reflexivity. reflexivity.
Qed.

Lemma create_entry_extends lst fdata m :
  let '(fse, m') := fseentry_create_entry lst fdata m in
  extends m m' /\ live m' (addr fse).
Proof.
  unfold fseentry_create_entry.
  pose proof (alloc_extends lst (xwcstoutf (cFileName fdata))
                (String.length (xwcstoutf (cFileName fdata))) m) as A.
  destruct (fsentry_alloc lst (xwcstoutf (cFileName fdata))
              (String.length (xwcstoutf (cFileName fdata))) m) as [fse m1].
  destruct A as (A1 & A2 & A3).
  set (fse' := set_st_mode _ fse).
  assert (Ea : addr fse' = addr fse) by reflexivity. rewrite Ea.
  split.
  - eapply extends_trans; [exact A1|]. now apply extends_store.
  - now apply live_store.
Qed.

Lemma create_entries_extends lst fdatas :
  forall m, let '(es, m') := create_entries lst fdatas m in
            extends m m' /\ forall e, In e es -> live m' (addr e).
Proof.
  induction fdatas as [|fdata rest IH]; intros m.
  - simpl. split; [apply extends_refl|intros e []].
  - cbn [create_entries].
    pose proof (create_entry_extends (Some lst) fdata m) as A.
    destruct (fseentry_create_entry (Some lst) fdata m) as [fse m1].
    destruct A as [A1 A2]. specialize (IH m1).
    destruct (create_entries lst rest m1) as [es m2]. destruct IH as [B1 B2].
    split; [eapply extends_trans; eassumption|].
    intros e [<-|I]; [now apply (proj1 B1)|now apply B2].
Qed.

(** Linking keeps every block, and gives a block the entries of the chain
    behind it, or nothing. *)
Lemma link_chain_live nodes :
  forall m p, live m p -> live (link_chain nodes m) p.
Proof.
  induction nodes as [|fse rest IH]; intros m p L; [exact L|]. simpl.
  apply IH. destruct (heap_at m (addr fse)); [now apply live_store|exact L].
Qed.

Lemma link_chain_next nodes :
  forall m x y, In y (next_chain (link_chain nodes m) x) ->
                In y (next_chain m x) \/ In y nodes.
Proof.
  induction nodes as [|fse rest IH]; intros m x y I; [now left|].
  simpl in I. apply IH in I. destruct I as [I|I]; [|right; now right].
  destruct (heap_at m (addr fse)) as [c|] eqn:C; [|now left].
  unfold next_chain in I. rewrite heap_at_store in I.
  destruct (addr fse) as [s|a]; [now left|].
  destruct (addr x) as [s'|b] eqn:X; [left; unfold next_chain; now rewrite X|].
  destruct (decide (a = b)).
  - right. right. exact I.
  - left. unfold next_chain. now rewrite X.
Qed.

(** Every entry of a listing that [fsentry_create_list] returns is
    allocated. *)
Lemma create_list_live dir m lst d m' :
  fsentry_create_list dir m = (Some lst, d, m') ->
  forall e, In e (lst :: next_chain m' lst) -> live m' (addr e).
Proof.
  unfold fsentry_create_list.
  destruct (find_files (memcpy (name dir) (len dir))) as [e0|err|first more err];
    try discriminate.
  set (m0 := log_find _ m).
  pose proof (alloc_extends None (name dir) (len dir) m0) as A.
  destruct (fsentry_alloc None (name dir) (len dir) m0) as [l0 m1].
  destruct A as (A1 & A2 & A3).
  set (l := set_st_mode S_IFDIR l0).
  assert (Ea : addr l = addr l0) by reflexivity.
  pose proof (create_entries_extends l (first :: more) m1) as B.
  destruct (create_entries l (first :: more) m1) as [es m2].
  destruct B as [B1 B2].
  remember (link_chain (l :: es) m2) as m3 eqn:E3.
  destruct (err =? ERROR_NO_MORE_FILES); [|discriminate].
  intros [= <- _ <-] e I. rewrite E3 in *. clear E3 m3.
  assert (N2 : next_chain m2 l = []).
  { destruct (proj2 B1 l) as [E|E]; [|exact E]. rewrite E.
    unfold next_chain in *. now rewrite Ea. }
  assert (Ll : live m2 (addr l)) by (rewrite Ea; now apply (proj1 B1)).
  destruct I as [<-|I]; [now apply link_chain_live|].
  apply link_chain_next in I. rewrite N2 in I.
  destruct I as [[]|[<-|I]]; apply link_chain_live; auto.
Qed.

Lemma live_addref fse m p : live m p -> live (fsentry_addref fse m) p.
Proof.
  unfold fsentry_addref. destruct (heap_at m _) as [[nx [r|sd]]|]; auto.
  apply live_store.
Qed.

Lemma hashmap_get_In mp key e : hashmap_get mp key = Some e -> In e mp.
Proof. unfold hashmap_get. intros H. now apply find_some in H. Qed.

Lemma stat_members_live m fse : live m (addr fse) -> is_Some (stat_members m fse).
Proof.
  unfold live, stat_members. intros [[nx [r|sd]] E]; rewrite E; eauto.
Qed.

End Fresh.

(** ** Lookups in an empty table *)

Section Empty.
Context {P : Platform}.

Lemma true_miss_empty cache key : map cache = [] -> true_miss cache key.
Proof. intros E. unfold true_miss. rewrite E. split; [reflexivity|]. reflexivity. Qed.

Lemma create_list_header dir m lst d m' :
  fsentry_create_list dir m = (Some lst, d, m') -> fse_list lst = None.
Proof.
  unfold fsentry_create_list.
  destruct (find_files (memcpy (name dir) (len dir))) as [e0|err|first more err];
    try discriminate.
  destruct (fsentry_alloc None (name dir) (len dir) _) as [l0 m1] eqn:A.
  destruct (create_entries (set_st_mode S_IFDIR l0) (first :: more) m1) as [es m2].
  destruct (err =? ERROR_NO_MORE_FILES); [|discriminate].
  intros [= <- _ _]. unfold fsentry_alloc, xmalloc in A.
  cbv beta iota zeta in A. injection A as <- _. reflexivity.
Qed.

Lemma fold_hashmap_add l : forall acc, fold_left hashmap_add l acc = rev l ++ acc.
Proof.
  induction l as [|x l IH]; intros acc; [reflexivity|]. simpl.
  rewrite IH. unfold hashmap_add. now rewrite <- app_assoc.
Qed.

(** The enumeration log after a true miss is the log after the
    enumeration. *)
Lemma fscache_get_miss_log cache key m :
  true_miss cache key ->
  find_log (snd (fscache_get cache key m)) =
  find_log (snd (fsentry_create_list (list_or_self key) m)).
Proof.
  intros T. rewrite (fscache_get_miss cache key m T). cbv zeta.
  destruct (fsentry_create_list (list_or_self key) m) as [[[lst|] d] m1].
  - destruct (match match fse_list key with
                    | Some _ => hashmap_get (map (fscache_add _ lst m1)) key
                    | None => Some lst
                    end with
              | Some e => if st_mode e =? 0 then None else Some e
              | None => None
              end); cbn [snd]; [apply find_log_addref|reflexivity].
  - destruct d; [|reflexivity]. destruct (fse_list key) as [l|]; [|reflexivity].
    pose proof (absent_header_fields l m1) as A.
    destruct (absent_header l m1) as [h m2]. cbn [snd]. apply A.
Qed.

(** An entry found by a lookup that started from an empty table is
    allocated. *)
Lemma fscache_get_empty_live cache key m e cache' m' :
  map cache = [] ->
  fscache_get cache key m = (Some e, cache', m') -> live m' (addr e).
Proof.
  intros E G. rewrite (fscache_get_miss cache key m (true_miss_empty cache key E)) in G.
  cbv zeta in G.
  destruct (fsentry_create_list (list_or_self key) m) as [[[lst|] d] m1] eqn:C.
  - pose proof (create_list_live _ _ _ _ _ C) as L.
    pose proof (create_list_header _ _ _ _ _ C) as H.
    assert (I : forall x k, hashmap_get (map (fscache_add
                  (incr_fscache_misses (incr_fscache_requests cache)) lst m1)) k
                  = Some x -> In x (lst :: next_chain m1 lst)).
    { intros x k X. apply hashmap_get_In in X. unfold fscache_add in X.
      unfold list_or_self in X. rewrite H in X. simpl map in X.
      rewrite E, fold_hashmap_add in X. unfold hashmap_add in X.
      apply in_app_or in X. destruct X as [X|[<-|[]]]; [|now left].
      right. now apply in_rev in X. }
    destruct (fse_list key) as [l|].
    + destruct (hashmap_get _ key) as [x|] eqn:X; [|discriminate G].
      destruct (st_mode x =? 0); [discriminate G|].
      injection G as <- _ <-. apply live_addref, L, (I x key X).
    + destruct (st_mode lst =? 0); [discriminate G|].
      injection G as <- _ <-. apply live_addref, L. now left.
  - destruct d; [|discriminate G].
    destruct (fse_list key) as [l|]; [|discriminate G].
    destruct (absent_header l m1). discriminate G.
Qed.

(** With an empty table [fscache_lstat] returns, and its enumeration log is
    that of the lookup. *)
Lemma fscache_lstat_empty t w c cache filename st :
  tls w !! t = Some c -> caches w !! c = Some cache ->
  do_fscache_enabled cache filename = true -> map cache = [] ->
  exists r w',
    fscache_lstat t filename st w = Ret r w' /\
    find_log (mem w') =
    find_log (snd (fsentry_create_list (fst (lstat_keys filename)) (mem w))).
Proof.
  intros T C E M.
  pose proof (fscache_get_miss_log (incr_lstat_requests cache)
                (snd (lstat_keys filename)) (mem w)
                (true_miss_empty _ _ M)) as LG.
  pose proof (fscache_get_empty_live (incr_lstat_requests cache)
                (snd (lstat_keys filename)) (mem w)) as LV.
  unfold fscache_lstat, fscache_getcache. rewrite T, C, E. cbn [negb].
  change (list_or_self (snd (lstat_keys filename)))
    with (fst (lstat_keys filename)) in LG.
  destruct (lstat_keys filename) as [k0 k1]. cbn [fst snd] in *.
  destruct (fscache_get (incr_lstat_requests cache) k1 (mem w))
    as [[[e|] cache'] m'].
  - specialize (LV e cache' m' M eq_refl).
    destruct (stat_members_live m' e LV) as [sd S]. rewrite S.
    eexists _, _. split; [reflexivity|]. cbn [mem with_mem snd] in *.
    now rewrite find_log_release.
  - eexists _, _. split; [reflexivity|]. exact LG.
Qed.

Lemma fscache_opendir_log t w c cache dirname :
  tls w !! t = Some c -> caches w !! c = Some cache ->
  do_fscache_enabled cache dirname = true -> map cache = [] ->
  exists r w',
    fscache_opendir t dirname w = Ret r w' /\
    find_log (mem w') =
    find_log (snd (fsentry_create_list (opendir_key dirname) (mem w))).
Proof.
  intros T C E M.
  pose proof (fscache_get_miss_log (incr_opendir_requests cache)
                (opendir_key dirname) (mem w) (true_miss_empty _ _ M)) as LG.
  unfold fscache_opendir, fscache_getcache. rewrite T, C, E. cbn [negb].
  change (list_or_self (opendir_key dirname)) with (opendir_key dirname) in LG.
  destruct (fscache_get (incr_opendir_requests cache) (opendir_key dirname) (mem w))
    as [[[e|] cache'] m'].
  - eexists _, _. split; [reflexivity|]. exact LG.
  - eexists _, _. split; [reflexivity|]. exact LG.
Qed.

End Empty.

(** ** Flush *)

(** C9.  For a thread whose instance is bound and enabled, flush empties
    the table and resets the four counters, and leaves the enable count, the
    thread bindings and the redirection of the entry points as they were;
    a query of that thread after the flush (lstat or opendir, for a
    directory whose name the conversion accepts) asks the file system
    again. *)
Theorem flush_in_place `{Platform} (t : nat) (w : world) (c : positive)
    (cache : fscache) :
  tls w !! t = Some c -> caches w !! c = Some cache -> enabled cache <> 0 ->
  exists w',
    fscache_flush t w = Ret tt w' /\
    caches w' !! c =
      Some {| enabled := enabled cache; map := [];
              lstat_requests := 0; opendir_requests := 0;
              fscache_requests := 0; fscache_misses := 0 |} /\
    tls w' = tls w /\ initialized w' = initialized w /\
    dwTlsIndex w' = dwTlsIndex w /\
    opendir w' = opendir w /\ lstat w' = lstat w /\
    (forall filename st,
       do_fscache_enabled cache filename = true ->
       (forall e, find_files (dir_path (snd (lstat_keys filename))) <> Name_refused e) ->
       exists r w'',
         fscache_lstat t filename st w' = Ret r w'' /\
         find_log (mem w'') =
           find_log (mem w') ++ [dir_path (snd (lstat_keys filename))]) /\
    (forall dirname,
       do_fscache_enabled cache dirname = true ->
       (forall e, find_files (dir_path (opendir_key dirname)) <> Name_refused e) ->
       exists r w'',
         fscache_opendir t dirname w' = Ret r w'' /\
         find_log (mem w'') =
           find_log (mem w') ++ [dir_path (opendir_key dirname)]).
Proof.
  intros T C E. unfold fscache_flush, fscache_getcache. rewrite T, C.
  apply Z.eqb_neq in E. rewrite E. cbn [negb]. unfold fscache_clear.
  set (cleared := {| enabled := enabled cache; map := [] |}).
  set (w' := with_mem _ _). exists w'.
  assert (C' : caches w' !! c = Some cleared) by (simpl; apply lookup_insert_eq).
  repeat (split; [reflexivity|]). split; [exact C'|].
  repeat (split; [reflexivity|]). split.
  - intros filename st En NR.
    destruct (fscache_lstat_empty t w' c cleared filename st T C' En eq_refl)
      as (r & w'' & R & L).
    exists r, w''. split; [exact R|]. rewrite L, find_log_create_list.
    change (memcpy (name (fst (lstat_keys filename))) (len (fst (lstat_keys filename))))
      with (dir_path (snd (lstat_keys filename))).
    specialize (NR).
    destruct (find_files (dir_path (snd (lstat_keys filename)))) as [e| |];
      [now destruct (NR e)|reflexivity|reflexivity].
  - intros dirname En NR.
    destruct (fscache_opendir_log t w' c cleared dirname T C' En eq_refl)
      as (r & w'' & R & L).
    exists r, w''. split; [exact R|]. rewrite L, find_log_create_list.
    change (memcpy (name (opendir_key dirname)) (len (opendir_key dirname)))
      with (dir_path (opendir_key dirname)).
    destruct (find_files (dir_path (opendir_key dirname))) as [e| |];
      [now destruct (NR e)|reflexivity|reflexivity].
Qed.

Lemma flush_in_place_witness :
  exists w',
    fscache_flush 0 populated = Ret tt w' /\
    caches w' !! 1%positive = Some empty_cache /\
    tls w' = tls populated /\ lstat w' = Fscache_lstat /\
    exists r w'',
      fscache_lstat (P := toy) 0 "src/Main.c" stat0 w' = Ret r w'' /\
      find_log (mem w'') = find_log (mem w') ++ ["src"%string].
Proof.
  destruct (flush_in_place (H := toy) 0 populated 1 (cache0 populated))
    as (w' & A & B & C & _ & _ & _ & D & E & _).
  - vm_compute; reflexivity.
  - vm_compute; reflexivity.
  - vm_compute; discriminate.
  - exists w'. split; [exact A|].
    split; [rewrite B; vm_compute; reflexivity|]. split; [exact C|].
    split; [rewrite D; vm_compute; reflexivity|].
    destruct (E "src/Main.c"%string stat0) as (r & w'' & R & L);
      [vm_compute; reflexivity | intros e; vm_compute; discriminate |].
    exists r, w''. split; [exact R|]. rewrite L. f_equal.
Defined.

(** ** Merge *)

(** C8.  When a worker thread merges its instance into another one, the
    destination's table holds its own entries and the worker's (N + M of
    them), each of its four counters is its prior value plus the worker's
    (in [unsigned int] arithmetic), and the worker's instance is no longer
    bound to the worker thread (and is freed); other threads keep their
    bindings. *)
Theorem merge_adds_up `{Platform} (t : nat) (w : world) (c d : positive)
    (cache dst : fscache) :
  tls w !! t = Some c -> caches w !! c = Some cache ->
  caches w !! d = Some dst -> c <> d ->
  exists w' dst',
    fscache_merge t (Some d) w = Ret tt w' /\
    caches w' !! d = Some dst' /\
    map dst' = rev (map cache) ++ map dst /\
    length (map dst') = (length (map dst) + length (map cache))%nat /\
    lstat_requests dst' = (lstat_requests dst + lstat_requests cache) mod 2 ^ 32 /\
    opendir_requests dst' =
      (opendir_requests dst + opendir_requests cache) mod 2 ^ 32 /\
    fscache_requests dst' =
      (fscache_requests dst + fscache_requests cache) mod 2 ^ 32 /\
    fscache_misses dst' = (fscache_misses dst + fscache_misses cache) mod 2 ^ 32 /\
    enabled dst' = enabled dst /\
    tls w' !! t = None /\ caches w' !! c = None /\
    (forall t', t' <> t -> tls w' !! t' = tls w !! t').
Proof.
  intros T C D Ne. unfold fscache_merge, fscache_getcache. rewrite T, C, D.
  apply Pos.eqb_neq in Ne. rewrite Ne. apply Pos.eqb_neq in Ne.
  eexists _, _. split; [reflexivity|]. simpl.
  split; [rewrite lookup_delete_ne by exact Ne; apply lookup_insert_eq|].
  simpl. rewrite fold_hashmap_add.
  split; [reflexivity|].
  split; [rewrite length_app, length_rev; lia|].
  repeat (split; [reflexivity|]).
  split; [apply lookup_delete_eq|].
  split; [apply lookup_delete_eq|].
  intros t' Nt. now apply lookup_delete_ne.
Qed.

Lemma merge_adds_up_witness :
  exists w' dst',
    fscache_merge (P := toy) 1 (Some 1%positive) two_threads = Ret tt w' /\
    caches w' !! 1%positive = Some dst' /\
    length (map dst') = 5%nat /\
    lstat_requests dst' = 2 /\ fscache_misses dst' = 2 /\
    tls w' !! 1%nat = None /\ tls w' !! 0%nat = Some 1%positive.
Proof.
  destruct (merge_adds_up (H := toy) 1 two_threads 2 1
              (default empty_cache (caches two_threads !! 2%positive))
              (cache0 two_threads))
    as (w' & dst' & A & B & C & D & E & _ & _ & F & _ & G & _ & I).
  - vm_compute; reflexivity.
  - vm_compute; reflexivity.
  - vm_compute; reflexivity.
  - discriminate.
  - exists w', dst'. split; [exact A|]. split; [exact B|].
    split; [rewrite D; vm_compute; reflexivity|].
    split; [rewrite E; vm_compute; reflexivity|].
    split; [rewrite F; vm_compute; reflexivity|].
    split; [exact G|]. rewrite I by discriminate. vm_compute; reflexivity.
Defined.

(** ** The metadata lstat returns *)

(** C10.  Whenever lstat is answered from the cache (it returns 0), the
    metadata has inode, uid, gid, device and rdev 0 and link count 1,
    whatever the file system holds; the mode is that of the entry the lookup
    returned, and size and the three timestamps are read from that entry's
    stat members. *)
Theorem lstat_identity_fields `{Platform} (t : nat) (filename : string)
    (st st' : stat.t) (w w' : world) :
  fscache_lstat t filename st w = Ret (Lstat_ret 0 st') w' ->
  stat.st_ino st' = 0 /\ stat.st_uid st' = 0 /\ stat.st_gid st' = 0 /\
  stat.st_dev st' = 0 /\ stat.st_rdev st' = 0 /\ stat.st_nlink st' = 1 /\
  exists c cache fse cache' m sd,
    tls w !! t = Some c /\ caches w !! c = Some cache /\
    fscache_get (incr_lstat_requests cache) (snd (lstat_keys filename)) (mem w) =
      (Some fse, cache', m) /\
    stat_members m fse = Some sd /\
    stat.st_mode st' = st_mode fse /\
    stat.st_size st' = st_size sd /\
    stat.st_atim st' = st_atim sd /\
    stat.st_mtim st' = st_mtim sd /\
    stat.st_ctim st' = st_ctim sd.
Proof.
  unfold fscache_lstat, fscache_getcache.
  destruct (tls w !! t) as [c|] eqn:T; [|discriminate].
  destruct (caches w !! c) as [cache|] eqn:C; [|discriminate].
  destruct (negb (do_fscache_enabled cache filename)); [discriminate|].
  destruct (lstat_keys filename) as [k0 k1]. cbn [snd].
  destruct (fscache_get (incr_lstat_requests cache) k1 (mem w))
    as [[[fse|] cache'] m] eqn:G; [|discriminate].
  destruct (stat_members m fse) as [sd|] eqn:S; [|discriminate].
  intros [= <- _]. cbn.
  repeat (split; [reflexivity|]).
  exists c, cache, fse, cache', m, sd. repeat split; assumption.
Qed.

Lemma lstat_identity_fields_witness :
  stat.st_ino (lstat_stat "src/Main.c" toy_world) = 0 /\
  stat.st_nlink (lstat_stat "src/Main.c" toy_world) = 1 /\
  stat.st_size (lstat_stat "src/Main.c" toy_world) = 120.
Proof.
  destruct (lstat_identity_fields (H := toy) 0 "src/Main.c" stat0
              (lstat_stat "src/Main.c" toy_world) toy_world populated)
    as (A & _ & _ & _ & _ & B & _).
  - vm_compute; reflexivity.
  - split; [exact A|]. split; [exact B|]. vm_compute; reflexivity.
Defined.

(** * Further properties of the code *)

(** ** The comparison as an order-free equality *)

Lemma strnicmp_antisym s1 s2 n : strnicmp s2 s1 n = - strnicmp s1 s2 n.
Proof.
  revert s1 s2. induction n as [|n IH]; intros [|c1 r1] [|c2 r2]; simpl;
    try lia.
  destruct (code (tolower c1) - code (tolower c2) =? 0) eqn:E.
  - apply Z.eqb_eq in E.
    replace (code (tolower c2) - code (tolower c1) =? 0) with true
      by (symmetry; apply Z.eqb_eq; lia).
    apply IH.
  - apply Z.eqb_neq in E.
    replace (code (tolower c2) - code (tolower c1) =? 0) with false
      by (symmetry; apply Z.eqb_neq; lia).
    lia.
Qed.

Lemma same_object_sym a b : same_object a b = same_object b a.
Proof.
  destruct (same_object a b) eqn:E1, (same_object b a) eqn:E2; try reflexivity.
  - apply same_object_eq in E1. subst. now rewrite same_object_refl in E2.
  - apply same_object_eq in E2. subst. now rewrite same_object_refl in E1.
Qed.

Lemma fsentry_cmp_step a b :
  fsentry_cmp a b =
  if same_object a b then 0 else
  let res :=
    match fse_list a, fse_list b with
    | None, None => 0
    | _, _ => fsentry_cmp (list_or_self a) (list_or_self b)
    end in
  if negb (res =? 0) then res else
  if negb (Nat.eqb (len a) (len b))
  then Z.of_nat (len a) - Z.of_nat (len b)
  else strnicmp (name a) (name b) (len a).
Proof. rewrite fsentry_cmp_unfold. cbv zeta. now rewrite same_list_shortcut. Qed.

Lemma depth_list_or_self a b :
  match fse_list a, fse_list b with
  | None, None => True
  | _, _ => (depth (list_or_self a) + depth (list_or_self b) <
             depth a + depth b)%nat
  end.
Proof.
  unfold list_or_self.
  destruct a as [p h md l n [x|]], b as [p' h' md' l' n' [x'|]]; simpl; lia.
Qed.

(** X1.  Swapping the arguments of [fsentry_cmp] negates the result: the
    comparison does not depend on which of entry and key comes first. *)
Theorem fsentry_cmp_antisym (a b : fsentry) :
  fsentry_cmp b a = - fsentry_cmp a b.
Proof.
  remember (depth a + depth b)%nat as k eqn:K.
  revert a b K. induction k as [k IH] using lt_wf_ind. intros a b K.
  rewrite (fsentry_cmp_step a b), (fsentry_cmp_step b a).
  rewrite (same_object_sym b a). destruct (same_object a b); [reflexivity|].
  cbv zeta.
  set (res := match fse_list a, fse_list b with
              | None, None => 0
              | _, _ => fsentry_cmp (list_or_self a) (list_or_self b)
              end).
  assert (R : match fse_list b, fse_list a with
              | None, None => 0
              | _, _ => fsentry_cmp (list_or_self b) (list_or_self a)
              end = - res).
  { subst res. pose proof (depth_list_or_self a b) as D.
    destruct (fse_list a), (fse_list b); try reflexivity;
      apply (IH (depth (list_or_self a) + depth (list_or_self b))%nat);
      (lia || reflexivity). }
  rewrite R.
  replace (- res =? 0) with (res =? 0)
    by (destruct (res =? 0) eqn:E;
        [apply Z.eqb_eq in E; symmetry; apply Z.eqb_eq; lia
        |apply Z.eqb_neq in E; symmetry; apply Z.eqb_neq; lia]).
  destruct (res =? 0); [|reflexivity]. cbn [negb].
  rewrite (Nat.eqb_sym (len b) (len a)).
  destruct (Nat.eqb (len a) (len b)) eqn:L; cbn [negb]; [|lia].
  apply Nat.eqb_eq in L. rewrite <- L. apply strnicmp_antisym.
Qed.

Lemma strnicmp_trans s1 s2 s3 n :
  no_nul s1 = true -> no_nul s2 = true -> no_nul s3 = true ->
  strnicmp s1 s2 n = 0 -> strnicmp s2 s3 n = 0 -> strnicmp s1 s3 n = 0.
Proof.
  intros N1 N2 N3. rewrite !strnicmp_zero by assumption. congruence.
Qed.

Lemma c_names_name e : c_names e = true -> no_nul (name e) = true.
Proof. destruct e; simpl. intros H. now apply andb_prop in H as [H _]. Qed.

Lemma c_names_list_or_self e : c_names e = true -> c_names (list_or_self e) = true.
Proof.
  unfold list_or_self. destruct e as [p h md l n [x|]]; simpl; [|auto].
  intros H. now apply andb_prop in H as [_ H].
Qed.

Lemma fsentry_cmp_list_part a b :
  fsentry_cmp a b = 0 -> fsentry_cmp (list_or_self a) (list_or_self b) = 0.
Proof.
  intros H. pose proof (proj1 (fsentry_cmp_zero a b) H) as (Q & _).
  unfold list_or_self in *.
  destruct (fse_list a), (fse_list b); assumption.
Qed.

Lemma fsentry_cmp_trans_depth k :
  forall a b c, (depth a + depth b + depth c <= k)%nat ->
  c_names a = true -> c_names b = true -> c_names c = true ->
  fsentry_cmp a b = 0 -> fsentry_cmp b c = 0 -> fsentry_cmp a c = 0.
Proof.
  induction k as [|k IH]; intros a b c D Va Vb Vc H1 H2;
    pose proof (fsentry_cmp_list_part a b H1) as Q1;
    pose proof (fsentry_cmp_list_part b c H2) as Q2;
    pose proof (proj1 (fsentry_cmp_zero a b) H1) as (_ & L1 & S1);
    pose proof (proj1 (fsentry_cmp_zero b c) H2) as (_ & L2 & S2);
    apply fsentry_cmp_zero;
    (split; [|split; [congruence|]]);
    try (rewrite <- L1 in S2;
         exact (strnicmp_trans _ _ _ _ (c_names_name a Va) (c_names_name b Vb)
                  (c_names_name c Vc) S1 S2));
    pose proof (c_names_list_or_self a Va) as Wa;
    pose proof (c_names_list_or_self b Vb) as Wb;
    pose proof (c_names_list_or_self c Vc) as Wc;
    unfold list_or_self in *;
    destruct a as [pa ha ma la na [xa|]], b as [pb hb mb lb nb [xb|]],
      c as [pc hc mc lc nc [xc|]]; cbn [fse_list depth] in *; try exact I;
    try lia;
    (eapply (IH _ _ _); [| | | |exact Q1|exact Q2]; try assumption;
     cbn [depth fse_list]; lia).
Qed.

(** X2.  Entries that compare equal to a common third compare equal: with
    reflexivity and the antisymmetry above, "compares equal" is an
    equivalence on entries whose names are C strings. *)
Theorem fsentry_cmp_trans (a b c : fsentry) :
  c_names a = true -> c_names b = true -> c_names c = true ->
  fsentry_cmp a b = 0 -> fsentry_cmp b c = 0 -> fsentry_cmp a c = 0.
Proof. apply (fsentry_cmp_trans_depth _ a b c (Nat.le_refl _)). Qed.

Lemma fsentry_cmp_trans_witness :
  fsentry_cmp header_d (set_st_mode 0 header_d) = 0.
Proof.
  apply (fsentry_cmp_trans header_d child_d (set_st_mode 0 header_d));
    reflexivity.
Defined.

(** ** Hash and comparison agree *)

Section Hashing.
Context {P : Platform}.
Hypothesis memihash_ci :
  forall s1 s2 n, lower (memcpy s1 n) = lower (memcpy s2 n) ->
                  memihash s1 n = memihash s2 n.

Lemma well_hashed_init fse lst nm n :
  match lst with Some l => well_hashed l | None => True end ->
  well_hashed (fsentry_init fse lst nm n).
Proof. intros H. destruct lst; split; auto; reflexivity. Qed.

Lemma well_hashed_set_st_mode md e : well_hashed e -> well_hashed (set_st_mode md e).
Proof. destruct e as [p h m l n [x|]]; intros [A B]; split; auto. Qed.

(** X3.  Keys of one kind that compare equal carry the same hash, so that the
    table, which looks at the hash first, finds whatever the comparison
    accepts. *)
Theorem equal_keys_equal_hash :
  forall a b, c_names a = true -> c_names b = true ->
    well_hashed a -> well_hashed b -> depth a = depth b ->
    fsentry_cmp a b = 0 -> ent_hash a = ent_hash b.
Proof.
  fix IH 1. intros a b Va Vb Wa Wb D C.
  pose proof (c_names_name a Va) as Na. pose proof (c_names_name b Vb) as Nb.
  apply fsentry_cmp_zero in C. destruct C as (C1 & C2 & C3).
  apply (strnicmp_zero _ _ _ Na Nb) in C3. unfold list_or_self in C1.
  destruct a as [pa ha ma la na [xa|]], b as [pb hb mb lb nb [xb|]];
    cbn [fse_list depth c_names well_hashed ent_hash len name] in *;
    try discriminate D; destruct Wa as [Ha Wa], Wb as [Hb Wb];
    rewrite Ha, Hb; unfold fsentry_hash; cbn [fse_list name len];
    subst lb; rewrite (memihash_ci na nb la C3); f_equal.
  apply andb_prop in Va as [_ Va]. apply andb_prop in Vb as [_ Vb].
  injection D as D. now apply IH.
Qed.

End Hashing.

Lemma equal_keys_equal_hash_witness :
  ent_hash (snd (lstat_keys (P := toy) "Dir/File")) =
  ent_hash (snd (lstat_keys (P := toy) "dir/file")).
Proof.
  apply (equal_keys_equal_hash (P := toy) toy_memihash_ci);
    try reflexivity; repeat split.
Defined.

(** ** What every lookup does, and what a lookup answered from the table
    never does *)

Section Lookup.
Context {P : Platform}.

Lemma addref_fields fse m :
  errno (fsentry_addref fse m) = errno m /\
  brk (fsentry_addref fse m) = brk m /\
  freed (fsentry_addref fse m) = freed m.
Proof.
  unfold fsentry_addref. destruct (heap_at m _) as [[nx [r|sd]]|]; auto.
  unfold heap_store. destruct (addr (list_or_self fse)); auto.
Qed.

(** X4.  Every lookup counts as one request, whatever its outcome, and leaves
    the enable count and the lstat and opendir counters alone. *)
Theorem lookup_counts_request (cache : fscache) (key : fsentry) (m : memory) :
  let cache' := snd (fst (fscache_get cache key m)) in
  fscache_requests cache' = wrap_uint (fscache_requests cache + 1) /\
  enabled cache' = enabled cache /\
  lstat_requests cache' = lstat_requests cache /\
  opendir_requests cache' = opendir_requests cache.
Proof.
  cbv zeta. destruct (is_true_miss cache key) eqn:T.
  - apply is_true_miss_spec in T. rewrite (fscache_get_miss cache key m T).
    cbv zeta.
    destruct (fsentry_create_list (list_or_self key) m) as [[[lst|] d] m1].
    + destruct (match match fse_list key with
                      | Some _ => hashmap_get (map (fscache_add _ lst m1)) key
                      | None => Some lst
                      end with
                | Some e => if st_mode e =? 0 then None else Some e
                | None => None
                end); repeat split.
    + destruct d; [|repeat split]. destruct (fse_list key) as [l|]; [|repeat split].
      destruct (absent_header l m1). repeat split.
  - unfold is_true_miss in T.
    destruct (hashmap_get (map cache) key) as [x|] eqn:H.
    + rewrite (fscache_get_hit cache key m x H).
      destruct (negb (st_mode x =? 0)); repeat split.
    + destruct (fse_list key) as [l|] eqn:L; [|discriminate].
      destruct (hashmap_get (map cache) l) as [y|] eqn:Y; [|discriminate].
      rewrite (fscache_get_listed cache key m l y H L Y). repeat split.
Qed.

Lemma fscache_get_from_table (cache : fscache) (key : fsentry) (m : memory) :
  is_true_miss cache key = false ->
  let '(_, cache', m') := fscache_get cache key m in
  map cache' = map cache /\ fscache_misses cache' = fscache_misses cache /\
  find_log m' = find_log m /\ brk m' = brk m /\ freed m' = freed m.
Proof.
  intros T. unfold is_true_miss in T.
  destruct (hashmap_get (map cache) key) as [x|] eqn:H.
  - rewrite (fscache_get_hit cache key m x H).
    destruct (negb (st_mode x =? 0)); [|repeat split].
    destruct (addref_fields x m) as (_ & B & F).
    repeat split; [apply find_log_addref|exact B|exact F].
  - destruct (fse_list key) as [l|] eqn:L; [|discriminate].
    destruct (hashmap_get (map cache) l) as [y|] eqn:Y; [|discriminate].
    rewrite (fscache_get_listed cache key m l y H L Y). repeat split.
Qed.

(** X5.  A lookup that finds the key, or the listing of the key's directory, in
    the table leaves the table and the miss counter as they are, calls no
    enumeration, and neither allocates nor frees. *)
Theorem lookup_from_table_frame (cache : fscache) (key : fsentry) (m : memory) :
  is_true_miss cache key = false ->
  let '(_, cache', m') := fscache_get cache key m in
  map cache' = map cache /\ fscache_misses cache' = fscache_misses cache /\
  find_log m' = find_log m /\ brk m' = brk m /\ freed m' = freed m.
Proof. apply fscache_get_from_table. Qed.

End Lookup.

Lemma lookup_from_table_frame_witness :
  map (snd (fst (fscache_get (P := toy) (cache0 populated)
                   (snd (lstat_keys (P := toy) "src/nothing")) (mem populated)))) =
  map (cache0 populated).
Proof.
  pose proof (lookup_from_table_frame (P := toy) (cache0 populated)
                (snd (lstat_keys (P := toy) "src/nothing")) (mem populated)) as F.
  destruct (fscache_get (P := toy) (cache0 populated)
              (snd (lstat_keys (P := toy) "src/nothing")) (mem populated))
    as [[r c] m'].
  apply F. vm_compute. reflexivity.
Defined.


Section Sound.
Context {P : Platform}.

Lemma hashmap_get_equals mp key e :
  hashmap_get mp key = Some e -> entry_equals e key = true.
Proof. unfold hashmap_get. intros H. now apply find_some in H. Qed.

Lemma fscache_add_header cache lst m :
  fse_list lst = None -> In lst (map (fscache_add cache lst m)).
Proof.
  intros H. unfold fscache_add, list_or_self. rewrite H. cbn [map with_map].
  rewrite fold_hashmap_add. apply in_or_app. left. apply -> in_rev. now left.
Qed.

(** X6.  A lookup that returns an entry returns one that is in the table, has
    its mode set (never a "cached absent" header), and matches the key: it
    was found under the key, or it is the listing just enumerated for a
    listing request. *)
Theorem lookup_returns_valid_entry (cache : fscache) (key : fsentry)
    (m : memory) (e : fsentry) (cache' : fscache) (m' : memory) :
  fscache_get cache key m = (Some e, cache', m') ->
  st_mode e <> 0 /\ In e (map cache') /\
  (entry_equals e key = true \/
   (is_true_miss cache key = true /\ fse_list key = None)).
Proof.
  intros G. destruct (is_true_miss cache key) eqn:T.
  - apply is_true_miss_spec in T. rewrite (fscache_get_miss cache key m T) in G.
    cbv zeta in G.
    destruct (fsentry_create_list (list_or_self key) m) as [[[lst|] d] m1] eqn:C.
    + pose proof (create_list_header _ _ _ _ _ C) as H.
      destruct (fse_list key) as [l|].
      * destruct (hashmap_get _ key) as [x|] eqn:X; [|discriminate G].
        destruct (st_mode x =? 0) eqn:M; [discriminate G|].
        injection G as <- <- _. apply Z.eqb_neq in M.
        split; [exact M|]. split; [exact (hashmap_get_In _ _ _ X)|].
        left. exact (hashmap_get_equals _ _ _ X).
      * destruct (st_mode lst =? 0) eqn:M; [discriminate G|].
        injection G as <- <- _. apply Z.eqb_neq in M.
        split; [exact M|]. split; [now apply fscache_add_header|].
        right. split; reflexivity.
    + destruct d; [|discriminate G].
      destruct (fse_list key) as [l|]; [|discriminate G].
      destruct (absent_header l m1). discriminate G.
  - unfold is_true_miss in T.
    destruct (hashmap_get (map cache) key) as [x|] eqn:H.
    + rewrite (fscache_get_hit cache key m x H) in G.
      destruct (st_mode x =? 0) eqn:M; [discriminate G|].
      cbn [negb] in G. injection G as <- <- _. apply Z.eqb_neq in M.
      split; [exact M|]. split; [exact (hashmap_get_In _ _ _ H)|].
      left. exact (hashmap_get_equals _ _ _ H).
    + destruct (fse_list key) as [l|] eqn:L; [|discriminate].
      destruct (hashmap_get (map cache) l) as [y|] eqn:Y; [|discriminate].
      rewrite (fscache_get_listed cache key m l y H L Y) in G. discriminate G.
Qed.

End Sound.

Lemma lookup_returns_valid_entry_witness :
  exists e, fst (fst (fscache_get (P := toy) empty_cache
                        (snd (lstat_keys (P := toy) "src/readme")) toy_memory)) =
            Some e /\
            st_mode e <> 0 /\ name e = "README"%string.
Proof.
  destruct (fscache_get (P := toy) empty_cache
              (snd (lstat_keys (P := toy) "src/readme")) toy_memory)
    as [[[e|] c] m'] eqn:G; [|vm_compute in G; discriminate G].
  exists e. split; [reflexivity|].
  split; [apply (lookup_returns_valid_entry (P := toy) _ _ _ _ _ _ G)|].
  vm_compute in G. now injection G as <- _ _.
Defined.

(** ** A listing, once enumerated, answers for its directory *)

Lemma strnicmp_zero_of_lower s1 s2 n :
  lower (memcpy s1 n) = lower (memcpy s2 n) -> strnicmp s1 s2 n = 0.
Proof.
  revert s1 s2. induction n as [|n IH]; intros [|c1 r1] [|c2 r2]; simpl;
    try reflexivity; try discriminate.
  intros [= E1 E2]. rewrite E1, Z.sub_diag. simpl. now apply IH.
Qed.

Lemma find_is_Some {A} (f : A -> bool) l x :
  In x l -> f x = true -> exists y, List.find f l = Some y.
Proof.
  induction l as [|a l IH]; intros I F; [destruct I|]. simpl.
  destruct (f a) eqn:E; [eauto|]. destruct I as [->|I]; [congruence|auto].
Qed.

Section Cached.
Context {P : Platform}.
Hypothesis memihash_ci :
  forall s1 s2 n, lower (memcpy s1 n) = lower (memcpy s2 n) ->
                  memihash s1 n = memihash s2 n.

Lemma create_list_listing dir m lst d m' :
  fsentry_create_list dir m = (Some lst, d, m') ->
  lst = set_st_mode S_IFDIR
          (fsentry_init (blank (HeapObj (brk m))) None
                        (memcpy (name dir) (len dir)) (len dir)).
Proof.
  unfold fsentry_create_list.
  destruct (find_files (memcpy (name dir) (len dir))) as [e0|err|first more err];
    try discriminate.
  destruct (fsentry_alloc None (name dir) (len dir) _) as [l0 m1] eqn:A.
  destruct (create_entries (set_st_mode S_IFDIR l0) (first :: more) m1) as [es m2].
  destruct (err =? ERROR_NO_MORE_FILES); [|discriminate].
  intros [= <- _ _]. unfold fsentry_alloc, xmalloc in A.
  cbv beta iota zeta in A. now injection A as <- _.
Qed.

(** The listing built for a directory key matches every key of that
    directory: same length, same bytes up to case. *)
Lemma listing_matches_key b md p s n p' s' n' :
  wrap_ushort n' = wrap_ushort n ->
  lower (memcpy s' (wrap_ushort n')) = lower (memcpy s (wrap_ushort n)) ->
  let dir := fsentry_init (blank p) None s n in
  entry_equals
    (set_st_mode md
       (fsentry_init (blank (HeapObj b)) None
                     (memcpy (name dir) (len dir)) (len dir)))
    (fsentry_init (blank p') None s' n') = true.
Proof.
  intros W L. cbv zeta. unfold entry_equals.
  apply orb_true_iff. right. apply andb_true_iff. split; apply Z.eqb_eq.
  - unfold fsentry_init, fsentry_hash, set_st_mode, blank.
    cbn [ent_hash fse_list name len addr st_mode].
    rewrite wrap_ushort_idem, W. f_equal. apply memihash_ci.
    rewrite W in L. now rewrite memcpy_memcpy, L.
  - apply fsentry_cmp_zero. unfold fsentry_init, set_st_mode, blank.
    cbn [ent_hash fse_list name len addr st_mode].
    rewrite wrap_ushort_idem, W. repeat split.
    rewrite strnicmp_memcpy_l. apply strnicmp_zero_of_lower.
    rewrite W in L. now rewrite L.
Qed.

(** X7.  After a lookup whose enumeration succeeded, a lookup for the same
    directory (its listing, or any entry in it, under any spelling of the
    directory that differs in case only) is answered from the table: it
    calls no enumeration and leaves the table as it is. *)
Theorem listing_cached_after_enumeration (cache : fscache) (key : fsentry)
    (m : memory) (p : ptr) (s : string) (n : nat)
    (key' : fsentry) (m2 : memory) (p' : ptr) (s' : string) (n' : nat) :
  list_or_self key = fsentry_init (blank p) None s n ->
  true_miss cache key -> enumerates key = true ->
  list_or_self key' = fsentry_init (blank p') None s' n' ->
  wrap_ushort n' = wrap_ushort n ->
  lower (memcpy s' (wrap_ushort n')) = lower (memcpy s (wrap_ushort n)) ->
  let cache1 := snd (fst (fscache_get cache key m)) in
  is_true_miss cache1 key' = false /\
  map (snd (fst (fscache_get cache1 key' m2))) = map cache1 /\
  find_log (snd (fscache_get cache1 key' m2)) = find_log m2.
Proof.
  intros K T E K' W L. cbv zeta.
  assert (M : is_true_miss (snd (fst (fscache_get cache key m))) key' = false).
  { rewrite (fscache_get_miss cache key m T). cbv zeta.
    unfold enumerates, dir_path in E.
    destruct (find_files (memcpy (name (list_or_self key)) (len (list_or_self key))))
      as [e0|err|first more err] eqn:F; try discriminate E.
    destruct (create_list_found _ m first more err F) as (lst & m1 & m3 & C).
    rewrite E in C. rewrite C.
    pose proof (create_list_listing _ _ _ _ _ C) as Hl.
    pose proof (create_list_header _ _ _ _ _ C) as Hh.
    set (c1 := fscache_add _ lst m1).
    assert (I : In lst (map c1)) by now apply fscache_add_header.
    assert (Q : entry_equals lst (list_or_self key') = true).
    { rewrite Hl, K, K'. now apply listing_matches_key. }
    assert (R : snd (fst
              match match match fse_list key with
                          | Some _ => hashmap_get (map c1) key
                          | None => Some lst
                          end with
                    | Some e => if st_mode e =? 0 then None else Some e
                    | None => None
                    end with
              | Some e => (Some e, c1, fsentry_addref e m1)
              | None => (None : option fsentry, c1, with_errno ENOENT m1)
              end) = c1).
    { destruct (match match fse_list key with
                      | Some _ => hashmap_get (map c1) key
                      | None => Some lst
                      end with
                | Some e => if st_mode e =? 0 then None else Some e
                | None => None
                end); reflexivity. }
    rewrite R. unfold is_true_miss.
    destruct (hashmap_get (map c1) key') as [x|] eqn:X; [reflexivity|].
    unfold list_or_self in Q.
    destruct (fse_list key') as [l|].
    - destruct (find_is_Some (fun e => entry_equals e l) (map c1) lst I Q)
        as [y Y]. unfold hashmap_get. now rewrite Y.
    - destruct (find_is_Some (fun e => entry_equals e key') (map c1) lst I Q)
        as [y Y]. unfold hashmap_get in X. congruence. }
  split; [exact M|].
  pose proof (fscache_get_from_table (snd (fst (fscache_get cache key m)))
                key' m2 M) as F.
  destruct (fscache_get (snd (fst (fscache_get cache key m))) key' m2)
    as [[r c2] m3].
  destruct F as (F1 & _ & F2 & _). now split.
Qed.

End Cached.

Lemma listing_cached_after_enumeration_witness :
  let cache1 :=
    snd (fst (fscache_get (P := toy) empty_cache
                (snd (lstat_keys (P := toy) "src/Main.c")) toy_memory)) in
  find_log (snd (fscache_get (P := toy) cache1 (opendir_key (P := toy) "SRC/")
                   toy_memory)) = [].
Proof.
  cbv zeta.
  apply (listing_cached_after_enumeration (P := toy) toy_memihash_ci
           empty_cache (snd (lstat_keys (P := toy) "src/Main.c")) toy_memory
           (StackObj 0) "src/Main.c" 3
           (opendir_key (P := toy) "SRC/") toy_memory (StackObj 0) "SRC/" 3).
  - reflexivity.
  - split; [reflexivity|]. intros l _. reflexivity.
  - reflexivity.
  - reflexivity.
  - reflexivity.
  - reflexivity.
Defined.

(** ** How paths are split *)

Lemma length_append a b :
  String.length (a +:+ b) = (String.length a + String.length b)%nat.
Proof. induction a as [|c a IH]; simpl; [reflexivity|now rewrite IH]. Qed.

Lemma char_at_append_r a b i :
  char_at (a +:+ b) (String.length a + i) = char_at b i.
Proof. induction a as [|c a IH]; simpl; [reflexivity|exact IH]. Qed.

Lemma char_at_append_l a b i :
  (i < String.length a)%nat -> char_at (a +:+ b) i = char_at a i.
Proof.
  revert i. induction a as [|c a IH]; intros i H; simpl in *; [lia|].
  destruct i as [|i]; [reflexivity|]. apply IH. lia.
Qed.

Lemma memcpy_append a b : memcpy (a +:+ b) (String.length a) = a.
Proof. induction a as [|c a IH]; simpl; [reflexivity|now rewrite IH]. Qed.

Lemma offset_append a b : offset (a +:+ b) (String.length a) = b.
Proof. induction a as [|c a IH]; simpl; [reflexivity|exact IH]. Qed.

Lemma append_nil_r a : a +:+ "" = a.
Proof.
  induction a as [|c a IH]; [reflexivity|].
  change (String c (a +:+ "") = String c a). now rewrite IH.
Qed.

Lemma append_sep d c f : (d +:+ String c "") +:+ f = d +:+ String c f.
Proof.
  induction d as [|x d IH]; [reflexivity|].
  change (String x ((d +:+ String c "") +:+ f) = String x (d +:+ String c f)).
  now rewrite IH.
Qed.

Lemma memcpy_all a : memcpy a (String.length a) = a.
Proof. induction a as [|c a IH]; simpl; [reflexivity|now rewrite IH]. Qed.

Lemma wrap_ushort_small n : Z.of_nat n < 2 ^ 16 -> wrap_ushort n = n.
Proof.
  intros H. unfold wrap_ushort. rewrite Z.mod_small by lia. apply Nat2Z.id.
Qed.

Lemma no_sep_char f i :
  no_sep f = true -> (i < String.length f)%nat ->
  is_dir_sep (char_at f i) = false.
Proof.
  revert i. induction f as [|c f IH]; intros i N H; simpl in *; [lia|].
  apply andb_prop in N as [N1 N2]. destruct i as [|i].
  - now apply negb_true_iff in N1.
  - apply IH; [exact N2|lia].
Qed.

(** The backward scan stops behind the last separator. *)
Lemma find_base_behind_sep d c f t j :
  is_dir_sep c = true -> no_sep f = true -> (j <= String.length f)%nat ->
  find_base (d +:+ String c (f +:+ t)) (String.length d + 1 + j) =
  (String.length d + 1)%nat.
Proof.
  intros C N. induction j as [|j IH]; intros J.
  - rewrite Nat.add_0_r, Nat.add_1_r. cbn [find_base].
    replace (String.length d) with (String.length d + 0)%nat at 1 by lia.
    rewrite char_at_append_r. cbn [char_at]. rewrite C. lia.
  - replace (String.length d + 1 + S j)%nat with (S (String.length d + 1 + j))
      by lia.
    cbn [find_base].
    replace (String.length d + 1 + j)%nat with (String.length d + S j)%nat at 1
      by lia.
    rewrite char_at_append_r. cbn [char_at].
    rewrite char_at_append_l by lia.
    rewrite (no_sep_char f j N) by lia. apply IH. lia.
Qed.

Lemma find_base_no_sep f t j :
  no_sep f = true -> (j <= String.length f)%nat -> find_base (f +:+ t) j = O.
Proof.
  intros N. induction j as [|j IH]; intros J; [reflexivity|].
  cbn [find_base]. rewrite char_at_append_l by lia.
  rewrite (no_sep_char f j N) by lia. apply IH. lia.
Qed.

Lemma find_base_behind_sep0 d c f :
  is_dir_sep c = true -> no_sep f = true ->
  find_base (d +:+ String c f) (String.length d + 1 + String.length f) =
  (String.length d + 1)%nat.
Proof.
  intros C N.
  pose proof (find_base_behind_sep d c f "" _ C N (Nat.le_refl _)) as H.
  now rewrite append_nil_r in H.
Qed.

Lemma find_base_no_sep0 f :
  no_sep f = true -> find_base f (String.length f) = O.
Proof.
  intros N. pose proof (find_base_no_sep f "" _ N (Nat.le_refl _)) as H.
  now rewrite append_nil_r in H.
Qed.

Lemma last_char_no_sep f :
  f <> EmptyString -> no_sep f = true ->
  is_dir_sep (char_at f (String.length f - 1)) = false.
Proof.
  intros E N. apply no_sep_char; [exact N|].
  destruct f; [congruence|simpl; lia].
Qed.

Section Split.
Context {P : Platform}.

(** The directory and name [fscache_lstat] looks up, for a file name given
    as buffer [filename] of which [n] bytes count (the length, less a
    trailing separator). *)
Lemma lstat_keys_at filename n :
  (if (negb (Nat.eqb (String.length filename) 0) &&
       is_dir_sep (char_at filename (String.length filename - 1)))%bool
   then (String.length filename - 1)%nat else String.length filename) = n ->
  lstat_keys filename =
  let base := find_base filename n in
  let key0 := fsentry_init (blank (StackObj 0)) None filename
                (if Nat.eqb base 0 then O else (base - 1)%nat) in
  (key0, fsentry_init (blank (StackObj 1)) (Some key0)
                      (offset filename base) (n - base)).
Proof. intros <-. reflexivity. Qed.

(** X8.  [fscache_lstat] splits "d/f" into the directory [d] and the name [f]:
    everything after the last separator is the name, a trailing separator
    does not count, and a name without separator lies in the current
    directory, the empty one. *)
Theorem lstat_keys_split (d f : string) (c : ascii) :
  is_dir_sep c = true -> f <> EmptyString -> no_sep f = true ->
  Z.of_nat (String.length d) < 2 ^ 16 -> Z.of_nat (String.length f) < 2 ^ 16 ->
  (forall filename,
     filename = d +:+ String c f \/ filename = d +:+ String c (f +:+ String c "") ->
     let '(key0, key1) := lstat_keys filename in
     fse_list key1 = Some key0 /\ fse_list key0 = None /\
     key_name key0 = d /\ key_name key1 = f) /\
  (forall filename,
     filename = f \/ filename = f +:+ String c "" ->
     let '(key0, key1) := lstat_keys filename in
     fse_list key1 = Some key0 /\ fse_list key0 = None /\
     key_name key0 = EmptyString /\ key_name key1 = f).
Proof.
  intros C E N Ld Lf.
  pose proof (last_char_no_sep f E N) as Last.
  assert (F0 : (0 < String.length f)%nat) by (destruct f; [congruence|simpl; lia]).
  split; intros filename [->| ->].
  - rewrite (lstat_keys_at _ (String.length d + 1 + String.length f)).
    + rewrite (find_base_behind_sep0 d c f C N).
      cbv zeta. unfold key_name, fsentry_init.
      cbn [fse_list name len].
      replace (Nat.eqb (String.length d + 1) 0) with false
        by (symmetry; apply Nat.eqb_neq; lia).
      replace (String.length d + 1 - 1)%nat with (String.length d) by lia.
      replace (String.length d + 1 + String.length f - (String.length d + 1))%nat
        with (String.length f) by lia.
      rewrite !wrap_ushort_small by assumption.
      repeat split.
      * apply memcpy_append.
      * replace (String.length d + 1)%nat with (String.length (d +:+ String c ""))
          by (rewrite length_append; simpl; lia).
        rewrite <- append_sep, offset_append. apply memcpy_all.
    + rewrite length_append. cbn [String.length].
      replace (String.length d + S (String.length f) - 1)%nat
        with (String.length d + S (String.length f - 1))%nat by lia.
      rewrite char_at_append_r. cbn [char_at]. rewrite Last.
      rewrite andb_false_r. lia.
  - rewrite (lstat_keys_at _ (String.length d + 1 + String.length f)).
    + rewrite (find_base_behind_sep d c f (String c "") _ C N (Nat.le_refl _)).
      cbv zeta. unfold key_name, fsentry_init.
      cbn [fse_list name len].
      replace (Nat.eqb (String.length d + 1) 0) with false
        by (symmetry; apply Nat.eqb_neq; lia).
      replace (String.length d + 1 - 1)%nat with (String.length d) by lia.
      replace (String.length d + 1 + String.length f - (String.length d + 1))%nat
        with (String.length f) by lia.
      rewrite !wrap_ushort_small by assumption.
      repeat split.
      * apply memcpy_append.
      * replace (String.length d + 1)%nat with (String.length (d +:+ String c ""))
          by (rewrite length_append; simpl; lia).
        rewrite <- append_sep, offset_append. apply memcpy_append.
    + rewrite length_append. cbn [String.length]. rewrite length_append.
      cbn [String.length].
      replace (String.length d + S (String.length f + 1) - 1)%nat
        with (String.length d + S (String.length f + 0))%nat by lia.
      rewrite char_at_append_r. cbn [char_at].
      rewrite char_at_append_r. cbn [char_at]. rewrite C.
      destruct (Nat.eqb _ 0) eqn:Z0; [apply Nat.eqb_eq in Z0; lia|].
      cbn [negb andb]. lia.
  - rewrite (lstat_keys_at _ (String.length f)).
    + rewrite (find_base_no_sep0 f N).
      cbv zeta. unfold key_name, fsentry_init. cbn [fse_list name len Nat.eqb].
      rewrite Nat.sub_0_r, !wrap_ushort_small by (assumption || (cbn; lia)).
      repeat split. cbn [offset]. apply memcpy_all.
    + rewrite Last, andb_false_r. reflexivity.
  - rewrite (lstat_keys_at _ (String.length f)).
    + rewrite (find_base_no_sep f (String c "") _ N (Nat.le_refl _)).
      cbv zeta. unfold key_name, fsentry_init. cbn [fse_list name len Nat.eqb].
      rewrite Nat.sub_0_r, !wrap_ushort_small by (assumption || (cbn; lia)).
      repeat split. cbn [offset]. apply memcpy_append.
    + rewrite length_append. cbn [String.length].
      replace (String.length f + 1 - 1)%nat with (String.length f + 0)%nat by lia.
      rewrite char_at_append_r. cbn [char_at]. rewrite C.
      destruct (Nat.eqb _ 0) eqn:Z0; [apply Nat.eqb_eq in Z0; lia|].
      cbn [negb andb]. lia.
Qed.

End Split.

Lemma lstat_keys_split_witness :
  key_name (fst (lstat_keys (P := toy) "a/b\c.txt\")) = "a/b"%string /\
  key_name (snd (lstat_keys (P := toy) "a/b\c.txt\")) = "c.txt"%string.
Proof.
  pose proof (proj1 (lstat_keys_split (P := toy) "a/b" "c.txt" "\"%char
                       eq_refl ltac:(discriminate) eq_refl
                       ltac:(cbn; lia) ltac:(cbn; lia))
                "a/b\c.txt\" (or_intror eq_refl)) as H.
  destruct (lstat_keys (P := toy) "a/b\c.txt\") as [k0 k1].
  destruct H as (_ & _ & H0 & H1). split; assumption.
Defined.

Section Opendir_key.
Context {P : Platform}.

(** X9.  [fscache_opendir] looks up the directory as it is named, less one
    trailing separator; the name "." and the empty name stand for the
    current directory, the empty one.  So opendir of "d" or "d/" and lstat
    of "d/f" address the same directory. *)
Theorem opendir_key_dir (d : string) (c : ascii) :
  Z.of_nat (String.length d) + 1 < 2 ^ 16 ->
  fse_list (opendir_key (d +:+ String c "")) = None /\
  key_name (opendir_key ".") = EmptyString /\
  key_name (opendir_key "") = EmptyString /\
  (is_dir_sep c = true -> key_name (opendir_key (d +:+ String c "")) = d) /\
  (is_dir_sep c = false -> ~ (d = EmptyString /\ c = "."%char) ->
   key_name (opendir_key (d +:+ String c "")) = d +:+ String c "").
Proof.
  intros L. split; [reflexivity|]. split; [reflexivity|]. split; [reflexivity|].
  assert (Len : String.length (d +:+ String c "") = S (String.length d))
    by (rewrite length_append; simpl; lia).
  assert (Last : char_at (d +:+ String c "") (String.length d) = c).
  { replace (String.length d) with (String.length d + 0)%nat at 1 by lia.
    now rewrite char_at_append_r. }
  split.
  - intros C. unfold opendir_key, key_name, fsentry_init. cbn [name len].
    rewrite Len. replace (S (String.length d) - 1)%nat with (String.length d) by lia.
    rewrite Last, C. cbn [Nat.eqb negb andb]. rewrite orb_true_r.
    rewrite wrap_ushort_small by lia. apply memcpy_append.
  - intros C Ne. unfold opendir_key, key_name, fsentry_init. cbn [name len].
    rewrite Len. replace (S (String.length d) - 1)%nat with (String.length d) by lia.
    rewrite Last, C, andb_false_r, orb_false_r.
    assert (F : (Nat.eqb (S (String.length d)) 1 &&
                 Ascii.eqb (char_at (d +:+ String c "") 0) ".")%bool = false).
    { destruct d as [|x d]; [|destruct d; reflexivity].
      change (Ascii.eqb c "." = false).
      destruct (Ascii.eqb c ".") eqn:E; [|reflexivity].
      apply Ascii.eqb_eq in E. destruct Ne. now split. }
    rewrite F. rewrite wrap_ushort_small by lia.
    rewrite <- Len. apply memcpy_all.
Qed.

End Opendir_key.

Lemma opendir_key_dir_witness :
  key_name (opendir_key (P := toy) "src/") = "src"%string /\
  key_name (opendir_key (P := toy) "src") = "src"%string.
Proof.
  destruct (opendir_key_dir (P := toy) "src" "/"%char ltac:(cbn; lia))
    as (_ & _ & _ & A & _).
  destruct (opendir_key_dir (P := toy) "sr" "c"%char ltac:(cbn; lia))
    as (_ & _ & _ & _ & B).
  split; [apply A; reflexivity|apply B; [reflexivity|]].
  intros [E _]. discriminate E.
Defined.

(** ** The storage an enumeration builds *)

Lemma heap_at_free p q m :
  heap_at (free p m) q = if decide (p = q) then None else heap_at m q.
Proof.
  destruct q as [s|b]; simpl.
  - now destruct (decide (p = StackObj s)).
  - destruct p as [s|a]; simpl.
    + destruct (decide (StackObj s = HeapObj b)); [discriminate|reflexivity].
    + destruct (decide (HeapObj a = HeapObj b)) as [[= ->]|Ne].
      * apply lookup_delete_eq.
      * apply lookup_delete_ne. congruence.
Qed.

Lemma free_chain_frame l :
  forall m p, ~ In p (List.map addr l) ->
    heap_at (fold_left (fun m e => free (addr e) m) l m) p = heap_at m p.
Proof.
  induction l as [|x l IH]; intros m p N; [reflexivity|]. simpl in *.
  rewrite IH by tauto. rewrite heap_at_free.
  destruct (decide (addr x = p)); [tauto|reflexivity].
Qed.

Lemma free_chain_fields l :
  forall m, errno (fold_left (fun m e => free (addr e) m) l m) = errno m /\
            brk (fold_left (fun m e => free (addr e) m) l m) = brk m.
Proof.
  induction l as [|x l IH]; intros m; simpl; [auto|].
  destruct (IH (free (addr x) m)) as [A B]. now rewrite A, B.
Qed.

Section Enumeration.
Context {P : Platform}.

(** One entry: a new block, holding the stat members; nothing else
    moves. *)
Lemma create_entry_exact lst fdata m :
  let '(fse, m') := fseentry_create_entry lst fdata m in
  addr fse = HeapObj (brk m) /\ fse_list fse = lst /\
  name fse = xwcstoutf (cFileName fdata) /\
  brk m' = Pos.succ (brk m) /\
  (exists sd, heap m' = <[brk m := {| h_next := []; h_un := U_stat sd |}]> (heap m)) /\
  freed m' = freed m /\ errno m' = errno m.
Proof.
  unfold fseentry_create_entry, fsentry_alloc, xmalloc.
  cbv beta iota zeta. unfold heap_store, set_st_mode, fsentry_init, blank.
  cbn [addr fse_list name with_heap heap brk freed errno].
  rewrite memcpy_all, insert_insert_eq. repeat split. eexists. reflexivity.
Qed.

Lemma create_entries_exact lst fdatas :
  forall m,
    let '(es, m') := create_entries lst fdatas m in
    List.map name es = List.map (fun fd => xwcstoutf (cFileName fd)) fdatas /\
    Forall (fun e => fse_list e = Some lst) es /\
    (brk m <= brk m')%positive /\
    (forall e, In e es ->
       exists a, addr e = HeapObj a /\ (brk m <= a)%positive /\ (a < brk m')%positive) /\
    List.NoDup (List.map addr es) /\
    (forall a, ~ In (HeapObj a) (List.map addr es) -> heap m' !! a = heap m !! a) /\
    (forall e, In e es ->
       exists sd, heap_at m' (addr e) = Some {| h_next := []; h_un := U_stat sd |}) /\
    freed m' = freed m /\ errno m' = errno m.
Proof.
  induction fdatas as [|fdata rest IH]; intros m.
  - simpl. repeat split; try constructor; try lia; intros e [].
  - cbn [create_entries].
    pose proof (create_entry_exact (Some lst) fdata m) as A.
    destruct (fseentry_create_entry (Some lst) fdata m) as [fse m1].
    destruct A as (A1 & A2 & A3 & A4 & (sd & A5) & A6 & A7).
    specialize (IH m1). destruct (create_entries lst rest m1) as [es m2].
    destruct IH as (B1 & B2 & B3 & B4 & B5 & B6 & B7 & B8 & B9).
    assert (Fresh : ~ In (addr fse) (List.map addr es)).
    { intros I. apply in_map_iff in I. destruct I as (e & Ea & Ie).
      destruct (B4 e Ie) as (a & Eb & Lo & Hi). rewrite Ea, A1 in Eb.
      injection Eb as <-. lia. }
    split; [simpl; now rewrite A3, B1|].
    split; [now constructor|]. split; [lia|].
    split.
    { intros e [<-|I].
      - exists (brk m). split; [exact A1|]. lia.
      - destruct (B4 e I) as (a & Ea & Lo & Hi). exists a. split; [exact Ea|]. lia. }
    split; [simpl; constructor; [exact Fresh|exact B5]|].
    split.
    { intros a N. simpl in N. rewrite B6 by tauto. rewrite A5.
      apply lookup_insert_ne. intros E. apply N. left. now rewrite A1, E. }
    split.
    { intros e [<-|I]; [|now apply B7].
      exists sd. rewrite A1. simpl. rewrite B6 by (rewrite <- A1; exact Fresh).
      rewrite A5. apply lookup_insert_eq. }
    split; congruence.
Qed.

(** Linking writes each entry's chain and nothing else. *)
Lemma link_chain_exact nodes :
  forall m, List.NoDup (List.map addr nodes) ->
  (forall pre x rest c, nodes = pre ++ x :: rest ->
     heap_at m (addr x) = Some c ->
     heap_at (link_chain nodes m) (addr x) =
     Some {| h_next := rest; h_un := h_un c |}) /\
  (forall p, ~ In p (List.map addr nodes) ->
     heap_at (link_chain nodes m) p = heap_at m p) /\
  brk (link_chain nodes m) = brk m /\
  freed (link_chain nodes m) = freed m /\
  errno (link_chain nodes m) = errno m.
Proof.
  induction nodes as [|x nodes IH]; intros m D.
  - repeat split; auto. intros [|? ?] ? ? ? E; discriminate E.
  - inversion D as [|? ? Nx D']; subst. cbn [link_chain].
    set (m1 := match heap_at m (addr x) with
               | Some c => heap_store (addr x) {| h_next := nodes; h_un := h_un c |} m
               | None => m
               end).
    assert (F1 : brk m1 = brk m /\ freed m1 = freed m /\ errno m1 = errno m).
    { subst m1. destruct (heap_at m (addr x)); [|auto].
      unfold heap_store. destruct (addr x); auto. }
    assert (O1 : forall p, p <> addr x -> heap_at m1 p = heap_at m p).
    { intros p Np. subst m1. destruct (heap_at m (addr x)); [|reflexivity].
      rewrite heap_at_store. destruct (addr x) as [s|a]; [reflexivity|].
      destruct p as [s|b]; [reflexivity|].
      destruct (decide (a = b)); [congruence|reflexivity]. }
    destruct (IH m1 D') as (I1 & I2 & I3 & I4 & I5).
    split; [|split; [|intuition congruence]].
    + intros pre y rest c E Hc. destruct pre as [|z pre].
      * injection E as <- <-. rewrite I2 by exact Nx. subst m1. rewrite Hc.
        rewrite heap_at_store. destruct (addr x) as [s|a]; [discriminate Hc|].
        now rewrite decide_True.
      * injection E as <- ->. apply (I1 pre y rest c eq_refl).
        rewrite O1; [exact Hc|]. intros Ey. apply Nx. rewrite <- Ey.
        rewrite List.map_app. apply in_or_app. right. now left.
    + intros p Np. simpl in Np. rewrite I2 by tauto. apply O1.
      intros E. apply Np. now left.
Qed.

End Enumeration.

Section Listing_storage.
Context {P : Platform}.

(** What [fsentry_create_list] has built when [FindNextFileW] stops: the
    header in a new block with count 1, one entry per record behind it. *)
Lemma create_list_storage dir m first more err :
  find_files (key_name dir) = Found first more err ->
  exists lst es m3,
    fsentry_create_list dir m =
      (if err =? ERROR_NO_MORE_FILES then (Some lst, false, m3)
       else (None, false,
             with_errno (err_win_to_posix err) (fsentry_release lst m3))) /\
    addr lst = HeapObj (brk m) /\ fse_list lst = None /\
    st_mode lst = S_IFDIR /\ name lst = key_name dir /\
    List.map name es = List.map (fun fd => xwcstoutf (cFileName fd)) (first :: more) /\
    Forall (fun e => fse_list e = Some lst) es /\
    List.NoDup (List.map addr (lst :: es)) /\
    (forall e, In e es -> exists a, addr e = HeapObj a /\ (brk m < a)%positive) /\
    heap_at m3 (addr lst) = Some {| h_next := es; h_un := U_refcnt 1 |} /\
    linked m3 (lst :: es) /\
    (forall a, ~ In (HeapObj a) (List.map addr (lst :: es)) ->
               heap m3 !! a = heap m !! a) /\
    errno m3 = errno m /\ freed m3 = freed m.
Proof.
  intros F. unfold fsentry_create_list. unfold key_name in F. rewrite F.
  set (m0 := log_find _ m).
  unfold fsentry_alloc, xmalloc. cbv beta iota zeta.
  set (l0 := fsentry_init (blank (HeapObj (brk m0))) None
               (memcpy (name dir) (len dir)) (len dir)).
  set (lst := set_st_mode S_IFDIR l0).
  set (m1 := heap_store (addr l0) _ _).
  assert (Al : addr lst = HeapObj (brk m)) by reflexivity.
  assert (H1 : heap m1 = <[brk m := {| h_next := []; h_un := U_refcnt 1 |}]> (heap m))
    by reflexivity.
  assert (B1 : brk m1 = Pos.succ (brk m)) by reflexivity.
  pose proof (create_entries_exact lst (first :: more) m1) as E.
  destruct (create_entries lst (first :: more) m1) as [es m2].
  destruct E as (E1 & E2 & E3 & E4 & E5 & E6 & E7 & E8 & E9).
  assert (Nl : ~ In (addr lst) (List.map addr es)).
  { intros I. apply in_map_iff in I. destruct I as (e & Ea & Ie).
    destruct (E4 e Ie) as (a & Eb & Lo & Hi). rewrite Ea, Al in Eb.
    injection Eb as <-. lia. }
  assert (D : List.NoDup (List.map addr (lst :: es))) by (simpl; now constructor).
  assert (L2 : heap_at m2 (addr lst) = Some {| h_next := []; h_un := U_refcnt 1 |}).
  { rewrite Al. simpl. rewrite E6 by (rewrite <- Al; exact Nl).
    rewrite H1. apply lookup_insert_eq. }
  destruct (link_chain_exact (lst :: es) m2 D) as (K1 & K2 & K3 & K4 & K5).
  exists lst, es, (link_chain (lst :: es) m2).
  split; [reflexivity|].
  repeat (split; [first [reflexivity | assumption]|]).
  split.
  { intros e I. destruct (E4 e I) as (a & Ea & Lo & Hi). exists a.
    split; [exact Ea|]. lia. }
  split; [exact (K1 [] lst es _ eq_refl L2)|].
  split.
  { intros pre x rest E. unfold next_chain.
    assert (Ix : In x (lst :: es)) by (rewrite E; apply in_or_app; right; now left).
    destruct Ix as [<-|Ix].
    - now rewrite (K1 pre lst rest _ E L2).
    - destruct (E7 x Ix) as (sd & C). now rewrite (K1 pre x rest _ E C). }
  split.
  { intros a N.
    pose proof (K2 (HeapObj a) N) as Q. cbn [heap_at] in Q. rewrite Q.
    rewrite E6 by (simpl in N; tauto). rewrite H1.
    apply lookup_insert_ne. intros Ea. apply N. left. now rewrite Al, Ea. }
  assert (errno m1 = errno m) by reflexivity.
  assert (freed m1 = freed m) by reflexivity.
  split; congruence.
Qed.

(** X10.  A successful enumeration returns the listing header, in a new block
    with reference count 1 and mode [S_IFDIR], named as the directory, and
    chained to one entry per record of the find calls, in their order and
    under their converted names; blocks that were allocated before stay as
    they were. *)
Theorem enumeration_builds_listing (dir : fsentry) (m : memory)
    (first : WIN32_FIND_DATAW) (more : list WIN32_FIND_DATAW) :
  find_files (key_name dir) = Found first more ERROR_NO_MORE_FILES ->
  exists lst es m',
    fsentry_create_list dir m = (Some lst, false, m') /\
    addr lst = HeapObj (brk m) /\ fse_list lst = None /\
    st_mode lst = S_IFDIR /\ name lst = key_name dir /\
    List.map name es = List.map (fun fd => xwcstoutf (cFileName fd)) (first :: more) /\
    Forall (fun e => fse_list e = Some lst) es /\
    heap_at m' (addr lst) = Some {| h_next := es; h_un := U_refcnt 1 |} /\
    linked m' (lst :: es) /\
    (forall a, (a < brk m)%positive -> heap m' !! a = heap m !! a) /\
    errno m' = errno m /\ freed m' = freed m.
Proof.
  intros F.
  destruct (create_list_storage dir m first more _ F)
    as (lst & es & m3 & C & A1 & A2 & A3 & A4 & A5 & A6 & A7 & A8 & A9 & A10
        & A11 & A12 & A13).
  exists lst, es, m3. split; [exact C|].
  repeat (split; [assumption|]). split; [|split; assumption].
  intros a Lt. apply A11. intros I. simpl in I. destruct I as [I|I].
  - rewrite A1 in I. injection I as <-. lia.
  - apply in_map_iff in I. destruct I as (e & Ea & Ie).
    destruct (A8 e Ie) as (b & Eb & Lo). rewrite Ea in Eb. injection Eb as <-. lia.
Qed.

(** X11.  When the enumeration breaks off ([FindNextFileW] fails with anything
    but "no more files"), everything built so far is freed again: the call
    returns no listing, with the translated error in errno and the flag
    [dir_not_found] clear, and the heap is as it was before the call. *)
Theorem broken_enumeration_leaks_nothing (dir : fsentry) (m : memory)
    (first : WIN32_FIND_DATAW) (more : list WIN32_FIND_DATAW) (err : Z) :
  heap_fresh m ->
  find_files (key_name dir) = Found first more err ->
  err <> ERROR_NO_MORE_FILES ->
  exists m' nodes,
    fsentry_create_list dir m = (None, false, m') /\
    heap m' = heap m /\ errno m' = err_win_to_posix err /\
    freed m' = freed m ++ List.map addr nodes /\
    length nodes = S (S (length more)) /\ List.NoDup (List.map addr nodes).
Proof.
  intros Fr F Ne.
  destruct (create_list_storage dir m first more _ F)
    as (lst & es & m3 & C & A1 & A2 & A3 & A4 & A5 & A6 & A7 & A8 & A9 & A10
        & A11 & A12 & A13).
  apply Z.eqb_neq in Ne. rewrite Ne in C.
  rewrite A1 in A9. simpl in A9.
  pose proof (release_listing lst (brk m) es A1 A2 m3 1 lst (or_introl eq_refl) A9)
    as R.
  cbv zeta in R. change (wrap_long (1 - 1) =? 0) with true in R.
  cbn [negb] in R.
  eexists _, (lst :: es). split; [exact C|]. rewrite R.
  split; [|split; [|split; [|split]]].
  - apply map_eq. intros a. cbn [heap with_errno].
    destruct (in_dec ptr_eq_dec (HeapObj a) (List.map addr (lst :: es))) as [I|N].
    + apply in_map_iff in I. destruct I as (x & Ex & Ix).
      pose proof (free_chain_heap (lst :: es)
                    (with_heap (<[brk m := listing_cell es (wrap_long (1 - 1))]>
                                  (heap m3)) m3) x Ix) as G.
      rewrite Ex in G. cbn [heap_at] in G. rewrite G. symmetry. apply Fr.
      destruct Ix as [<-|Ix].
      * rewrite A1 in Ex. injection Ex as <-. lia.
      * destruct (A8 x Ix) as (b & Eb & Lo). rewrite Ex in Eb.
        injection Eb as <-. lia.
    + pose proof (free_chain_frame (lst :: es)
                    (with_heap (<[brk m := listing_cell es (wrap_long (1 - 1))]>
                                  (heap m3)) m3) (HeapObj a) N) as G.
      cbn [heap_at] in G. rewrite G. cbn [heap with_heap].
      rewrite lookup_insert_ne; [now apply A11|].
      intros E. apply N. left. now rewrite A1, E.
  - reflexivity.
  - cbn [freed with_errno]. rewrite free_chain_log. cbn [freed with_heap].
    now rewrite A13.
  - simpl. f_equal. apply (f_equal (@length _)) in A5.
    rewrite !length_map in A5. exact A5.
  - exact A7.
Qed.

End Listing_storage.

Lemma enumeration_builds_listing_witness :
  exists lst es m',
    fsentry_create_list (P := toy) (opendir_key (P := toy) "src") toy_memory =
      (Some lst, false, m') /\
    List.map name es = ["Main.c"; "README"]%string /\
    heap_at m' (addr lst) = Some {| h_next := es; h_un := U_refcnt 1 |}.
Proof.
  destruct (enumeration_builds_listing (P := toy) (opendir_key (P := toy) "src")
              toy_memory (toy_file "Main.c" 120) [toy_file "README" 7] eq_refl)
    as (lst & es & m' & C & _ & _ & _ & _ & N & _ & H & _).
  exists lst, es, m'. split; [exact C|]. split; [exact N|exact H].
Defined.

Lemma broken_enumeration_leaks_nothing_witness :
  exists m',
    fsentry_create_list (P := toy) (opendir_key (P := toy) "flaky") toy_memory =
      (None, false, m') /\
    heap m' = ∅ /\ errno m' = EINVAL /\ length (freed m') = 2%nat.
Proof.
  destruct (broken_enumeration_leaks_nothing (P := toy)
              (opendir_key (P := toy) "flaky") toy_memory (toy_file "a" 1) []
              ERROR_NOT_READY)
    as (m' & nodes & C & H & E & F & L & _).
  - intros a _. apply lookup_empty.
  - reflexivity.
  - discriminate.
  - exists m'. split; [exact C|]. split; [exact H|]. split; [exact E|].
    rewrite F, length_app, length_map, L. reflexivity.
Defined.

(** ** Reading a directory *)

Lemma readdir_walks_chain m es :
  forall hdr p fuel,
    linked m (hdr :: es) -> (length es < fuel)%nat ->
    readdir_all fuel {| dir_addr := p; pfsentry := hdr |} m =
    List.map (fun e => (name e, d_type_of (st_mode e))) es.
Proof.
  induction es as [|e es IH]; intros hdr p fuel L F;
    (destruct fuel as [|fuel]; [simpl in F; lia|]);
    pose proof (L [] hdr _ eq_refl) as N; cbn [readdir_all];
    unfold fscache_readdir; cbn [pfsentry dir_addr]; rewrite N; [reflexivity|].
  cbn [List.map]. f_equal. apply IH; [|simpl in F; lia].
  intros pre x rest E. apply (L (hdr :: pre) x rest). simpl. now rewrite E.
Qed.

Lemma next_chain_addref e m x :
  next_chain (fsentry_addref e m) x = next_chain m x.
Proof.
  unfold fsentry_addref.
  destruct (heap_at m (addr (list_or_self e))) as [[nx [r|sd]]|] eqn:C;
    try reflexivity.
  unfold next_chain. rewrite heap_at_store.
  destruct (addr (list_or_self e)) as [s|a]; [reflexivity|].
  destruct (addr x) as [s|b]; [reflexivity|].
  destruct (decide (a = b)) as [->|Ne]; [|reflexivity].
  simpl in C. simpl. now rewrite C.
Qed.

Section Readdir.
Context {P : Platform}.

(** X12.  Opendir of a directory that is not in the table, when the enumeration
    succeeds, returns a handle, and reading that handle until readdir
    returns NULL yields the names the file system enumerated, each once and
    in the order of enumeration. *)
Theorem opendir_readdir_names (t : nat) (w : world) (c : positive)
    (cache : fscache) (dirname : string)
    (first : WIN32_FIND_DATAW) (more : list WIN32_FIND_DATAW) (fuel : nat) :
  tls w !! t = Some c -> caches w !! c = Some cache ->
  do_fscache_enabled cache dirname = true ->
  true_miss cache (opendir_key dirname) ->
  find_files (key_name (opendir_key dirname)) =
    Found first more ERROR_NO_MORE_FILES ->
  (S (length more) < fuel)%nat ->
  exists dir w',
    fscache_opendir t dirname w = Ret (Opendir_ret (Some dir)) w' /\
    List.map fst (readdir_all fuel dir (mem w')) =
    List.map (fun fd => xwcstoutf (cFileName fd)) (first :: more).
Proof.
  intros T C E M F Fu.
  destruct (create_list_storage (opendir_key dirname) (mem w) first more _ F)
    as (lst & es & m1 & CL & A1 & A2 & A3 & A4 & A5 & A6 & _ & _ & A7 & A8 & _).
  change (ERROR_NO_MORE_FILES =? ERROR_NO_MORE_FILES) with true in CL.
  cbv iota in CL.
  assert (Ml : true_miss (incr_opendir_requests cache) (opendir_key dirname))
    by exact M.
  pose proof (fscache_get_miss _ _ (mem w) Ml) as G. cbv zeta in G.
  change (list_or_self (opendir_key dirname)) with (opendir_key dirname) in G.
  rewrite CL in G. change (fse_list (opendir_key dirname)) with (@None fsentry) in G.
  cbv iota in G. rewrite A3 in G. change (S_IFDIR =? 0) with false in G.
  cbv iota in G.
  unfold fscache_opendir, fscache_getcache. rewrite T, C, E. cbn [negb].
  rewrite G. unfold xmalloc. eexists _, _. split; [reflexivity|].
  cbn [mem with_mem].
  assert (L : linked {| errno := errno (fsentry_addref lst m1);
                        heap := heap (fsentry_addref lst m1);
                        brk := Pos.succ (brk (fsentry_addref lst m1));
                        freed := freed (fsentry_addref lst m1);
                        find_log := find_log (fsentry_addref lst m1) |}
                     (lst :: es)).
  { intros pre x rest Ex.
    change (next_chain (fsentry_addref lst m1) x = rest).
    rewrite next_chain_addref. exact (A8 pre x rest Ex). }
  rewrite (readdir_walks_chain _ es lst _ fuel L).
  - rewrite List.map_map. exact A5.
  - apply (f_equal (@length _)) in A5. rewrite !length_map in A5.
    simpl in A5. lia.
Qed.

End Readdir.

Lemma opendir_readdir_names_witness :
  exists dir w',
    fscache_opendir (P := toy) 0 "src/" toy_world = Ret (Opendir_ret (Some dir)) w' /\
    List.map fst (readdir_all 5 dir (mem w')) = ["Main.c"; "README"]%string.
Proof.
  apply (opendir_readdir_names (P := toy) 0 toy_world 1 empty_cache "src/"
           (toy_file "Main.c" 120) [toy_file "README" 7] 5).
  - reflexivity.
  - reflexivity.
  - reflexivity.
  - split; [reflexivity|]. intros l H. discriminate H.
  - reflexivity.
  - simpl. lia.
Defined.

(** ** References taken by the entry points are given back *)

Lemma memory_eq m m' :
  errno m' = errno m -> heap m' = heap m -> brk m' = brk m ->
  freed m' = freed m -> find_log m' = find_log m -> m' = m.
Proof. destruct m, m'; simpl; intros; now subst. Qed.

(** Taking a reference and releasing it leaves the memory as it was. *)
Lemma addref_release_id hdr a nx r e m :
  addr hdr = HeapObj a -> fse_list hdr = None -> of_listing hdr e ->
  heap m !! a = Some (listing_cell nx r) -> 0 < r -> r + 1 < 2 ^ 31 ->
  fsentry_release e (fsentry_addref e m) = m.
Proof.
  intros Ha Hl O C R B.
  rewrite (addref_listing hdr a nx Ha Hl m r e O C).
  rewrite (release_listing hdr a nx Ha Hl _ (wrap_long (r + 1)) e O)
    by (simpl; apply lookup_insert_eq).
  cbv zeta. rewrite (wrap_long_small (r + 1)) by lia.
  replace (r + 1 - 1) with r by lia. rewrite (wrap_long_small r) by lia.
  replace (r =? 0) with false by (symmetry; apply Z.eqb_neq; lia).
  cbn [negb]. apply memory_eq; try reflexivity.
  cbn [heap with_heap]. rewrite insert_insert_eq. now apply insert_id.
Qed.

Section Balance.
Context {P : Platform}.

(** X13.  Lstat of a file whose entry is in the table returns 0 with the stat
    members stored for that entry, counts one lstat request and one lookup,
    and leaves the memory exactly as it was: the reference it takes on the
    listing is given back, and the file system is not asked. *)
Theorem lstat_hit_restores_memory (t : nat) (w : world) (c : positive)
    (cache : fscache) (filename : string) (st : stat.t)
    (e hdr : fsentry) (a b : positive) (nx nx' : list fsentry) (r : Z)
    (sd : statdata) :
  tls w !! t = Some c -> caches w !! c = Some cache ->
  do_fscache_enabled cache filename = true ->
  hashmap_get (map cache) (snd (lstat_keys filename)) = Some e ->
  st_mode e <> 0 ->
  fse_list e = Some hdr -> fse_list hdr = None ->
  addr hdr = HeapObj a -> addr e = HeapObj b -> a <> b ->
  heap (mem w) !! a = Some {| h_next := nx; h_un := U_refcnt r |} ->
  heap (mem w) !! b = Some {| h_next := nx'; h_un := U_stat sd |} ->
  0 < r -> r + 1 < 2 ^ 31 ->
  exists w',
    fscache_lstat t filename st w =
      Ret (Lstat_ret 0
             {| stat.st_ino := 0; stat.st_gid := 0; stat.st_uid := 0;
                stat.st_dev := 0; stat.st_rdev := 0; stat.st_nlink := 1;
                stat.st_mode := st_mode e; stat.st_size := st_size sd;
                stat.st_atim := st_atim sd; stat.st_mtim := st_mtim sd;
                stat.st_ctim := st_ctim sd |}) w' /\
    mem w' = mem w /\ tls w' = tls w /\
    caches w' =
      <[c := incr_fscache_requests (incr_lstat_requests cache)]> (caches w).
Proof.
  intros T C En H M Le Lh Ha Hb Ne Ca Cb R B.
  assert (O : of_listing hdr e) by now right.
  unfold fscache_lstat, fscache_getcache. rewrite T, C, En. cbn [negb].
  destruct (lstat_keys filename) as [k0 k1]. cbn [snd] in H.
  rewrite (fscache_get_hit (incr_lstat_requests cache) k1 (mem w) e H).
  apply Z.eqb_neq in M. rewrite M. cbn [negb].
  assert (S : stat_members (fsentry_addref e (mem w)) e = Some sd).
  { rewrite (addref_listing hdr a nx Ha Lh (mem w) r e O Ca).
    unfold stat_members. rewrite Hb. cbn [heap_at heap with_heap].
    rewrite lookup_insert_ne by exact Ne. now rewrite Cb. }
  rewrite S.
  rewrite (addref_release_id hdr a nx r e (mem w) Ha Lh O Ca R B).
  eexists. split; [reflexivity|]. repeat split.
Qed.

(** X14.  Opendir of a directory whose listing is in the table takes one
    reference on the listing, and closedir gives it back: after the pair
    the heap is as it was before, and the handle is freed. *)
Theorem opendir_closedir_balance (t : nat) (w : world) (c : positive)
    (cache : fscache) (dirname : string)
    (lst : fsentry) (a : positive) (nx : list fsentry) (r : Z) :
  tls w !! t = Some c -> caches w !! c = Some cache ->
  do_fscache_enabled cache dirname = true ->
  hashmap_get (map cache) (opendir_key dirname) = Some lst ->
  st_mode lst <> 0 -> fse_list lst = None -> addr lst = HeapObj a ->
  heap (mem w) !! a = Some {| h_next := nx; h_un := U_refcnt r |} ->
  heap (mem w) !! brk (mem w) = None ->
  0 < r -> r + 1 < 2 ^ 31 ->
  exists dir w',
    fscache_opendir t dirname w = Ret (Opendir_ret (Some dir)) w' /\
    pfsentry dir = lst /\
    heap (mem w') !! a = Some {| h_next := nx; h_un := U_refcnt (r + 1) |} /\
    find_log (mem w') = find_log (mem w) /\
    heap (snd (fscache_closedir dir (mem w'))) = heap (mem w) /\
    freed (snd (fscache_closedir dir (mem w'))) =
      freed (mem w) ++ [dir_addr dir].
Proof.
  intros T C En H M Ll Ha Ca Fr R B.
  assert (O : of_listing lst lst) by now left.
  unfold fscache_opendir, fscache_getcache. rewrite T, C, En. cbn [negb].
  rewrite (fscache_get_hit (incr_opendir_requests cache) _ (mem w) lst H).
  apply Z.eqb_neq in M. rewrite M. cbn [negb]. unfold xmalloc.
  eexists _, _. split; [reflexivity|]. cbn [pfsentry dir_addr mem with_mem].
  split; [reflexivity|].
  pose proof (addref_listing lst a nx Ha Ll (mem w) r lst O Ca) as A.
  rewrite wrap_long_small in A by lia.
  split; [cbn [heap]; rewrite A; apply lookup_insert_eq|].
  split; [cbn [find_log]; apply find_log_addref|].
  unfold fscache_closedir. cbn [snd pfsentry dir_addr].
  set (m1 := {| errno := errno (fsentry_addref lst (mem w));
                heap := heap (fsentry_addref lst (mem w));
                brk := Pos.succ (brk (fsentry_addref lst (mem w)));
                freed := freed (fsentry_addref lst (mem w));
                find_log := find_log (fsentry_addref lst (mem w)) |}).
  assert (C1 : heap m1 !! a = Some (listing_cell nx (r + 1)))
    by (subst m1; cbn [heap]; rewrite A; apply lookup_insert_eq).
  rewrite (release_listing lst a nx Ha Ll m1 (r + 1) lst O C1). cbv zeta.
  replace (r + 1 - 1) with r by lia. rewrite (wrap_long_small r) by lia.
  replace (r =? 0) with false by (symmetry; apply Z.eqb_neq; lia).
  cbn [negb free heap freed with_heap]. subst m1. cbn [heap freed brk].
  rewrite A. cbn [heap freed brk with_heap].
  rewrite insert_insert_eq, (insert_id _ _ _ Ca).
  split; [|reflexivity]. apply delete_id. exact Fr.
Qed.

End Balance.

Lemma lstat_hit_restores_memory_witness :
  mem (after_lstat "src/main.c" populated) = mem populated /\
  stat.st_size (lstat_stat "src/main.c" populated) = 120.
Proof.
  edestruct (lstat_hit_restores_memory (P := toy) 0 populated 1
               (cache0 populated) "src/main.c" stat0)
    as (w' & R & M & _).
  - vm_compute; reflexivity.
  - vm_compute; reflexivity.
  - vm_compute; reflexivity.
  - vm_compute; reflexivity.
  - vm_compute; discriminate.
  - vm_compute; reflexivity.
  - vm_compute; reflexivity.
  - vm_compute; reflexivity.
  - vm_compute; reflexivity.
  - discriminate.
  - vm_compute; reflexivity.
  - vm_compute; reflexivity.
  - vm_compute; reflexivity.
  - vm_compute; reflexivity.
  - unfold after_lstat, after_lstat_on, lstat_stat. rewrite R.
    split; [exact M|reflexivity].
Defined.

Lemma opendir_closedir_balance_witness :
  exists dir w',
    fscache_opendir (P := toy) 0 "SRC" populated = Ret (Opendir_ret (Some dir)) w' /\
    heap (snd (fscache_closedir dir (mem w'))) = heap (mem populated).
Proof.
  edestruct (opendir_closedir_balance (P := toy) 0 populated 1
               (cache0 populated) "SRC")
    as (dir & w' & R & _ & _ & _ & H & _).
  - vm_compute; reflexivity.
  - vm_compute; reflexivity.
  - vm_compute; reflexivity.
  - vm_compute; reflexivity.
  - vm_compute; discriminate.
  - vm_compute; reflexivity.
  - vm_compute; reflexivity.
  - vm_compute; reflexivity.
  - vm_compute; reflexivity.
  - vm_compute; reflexivity.
  - vm_compute; reflexivity.
  - exists dir, w'. split; [exact R|exact H].
Defined.

(** ** Enabling and disabling *)

Lemma wrap_long_succ_pred (z : Z) :
  - 2 ^ 31 <= z < 2 ^ 31 - 1 ->
  wrap_long (z + 1) = z + 1 /\ wrap_long (z + 1 - 1) = z.
Proof.
  intros R. split.
  - apply wrap_long_small; lia.
  - replace (z + 1 - 1) with z by lia. apply wrap_long_small; lia.
Qed.

Lemma with_enabled_back (cache : fscache) (v : Z) :
  with_enabled (enabled cache) (with_enabled v cache) = cache.
Proof. now destruct cache. Qed.

Section Enable.
Context {P : Platform}.

Lemma configured_core (w : world) :
  core_fscache
    (if negb (GIT_TEST_FSCACHE =? -1) then with_core_fscache GIT_TEST_FSCACHE w
     else w) = configured w.
Proof.
  unfold configured. now destruct (GIT_TEST_FSCACHE =? -1).
Qed.

Lemma configured_world (w : world) :
  (if negb (GIT_TEST_FSCACHE =? -1) then with_core_fscache GIT_TEST_FSCACHE w
   else w) = with_core_fscache (configured w) w.
Proof.
  unfold configured. destruct (GIT_TEST_FSCACHE =? -1); cbn [negb]; [|reflexivity].
  now destruct w.
Qed.

(** X15.  A thread that has a cache enables it once more and disables it again:
    the first call only counts, [enabled] of the cache and [initialized] go
    up by one, and the second call takes both back; nothing is cleared or
    freed, the process is as before, [core_fscache] holding the value
    configured. *)
Theorem nested_enable_disable (t : nat) (n : Z) (w : world) (c : positive)
    (cache : fscache) :
  configured w <> 0 ->
  tls w !! t = Some c ->
  caches w !! c = Some cache ->
  0 < enabled cache < 2 ^ 31 - 1 ->
  0 < initialized w < 2 ^ 31 - 1 ->
  exists w1,
    fscache_enable t n w = Ret 0 w1 /\
    caches w1 !! c = Some (with_enabled (enabled cache + 1) cache) /\
    initialized w1 = initialized w + 1 /\
    fscache_disable t w1 = Ret tt (with_core_fscache (configured w) w).
Proof.
  intros Hc Ht Hk He Hi.
  destruct (wrap_long_succ_pred (enabled cache)) as [E1 E2]; [lia|].
  destruct (wrap_long_succ_pred (initialized w)) as [I1 I2]; [lia|].
  unfold fscache_enable. rewrite configured_world.
  cbn [core_fscache with_core_fscache initialized].
  destruct (configured w =? 0) eqn:C0; [lia|].
  destruct (initialized w =? 0) eqn:I0; [lia|].
  unfold fscache_getcache.
  cbn [tls with_initialized with_core_fscache caches initialized].
  rewrite Ht, Hk, E1, I1.
  eexists. split; [reflexivity|].
  split; [cbn [caches with_caches]; now rewrite lookup_insert_eq|].
  split; [reflexivity|].
  unfold fscache_disable, fscache_getcache.
  cbn [core_fscache with_caches with_initialized with_core_fscache tls caches].
  rewrite C0, Ht, lookup_insert_eq.
  cbn [enabled with_enabled].
  destruct (enabled cache + 1 =? 0) eqn:E0; [lia|].
  rewrite E2.
  destruct (enabled cache =? 0) eqn:E00; [lia|].
  cbn [initialized with_caches with_initialized with_core_fscache].
  rewrite I2, I0.
  rewrite insert_insert_eq.
  replace (with_enabled (enabled cache) (with_enabled (enabled cache + 1) cache))
    with cache by (now destruct cache).
  rewrite (insert_id _ _ _ Hk).
  now destruct w.
Qed.

(** X16.  A thread without a cache enables and disables: the first call
    allocates an empty cache with [enabled] 1 and binds it to the thread; the
    second call unbinds and frees it.  The heap, the caches and the bindings
    are as before; when no other thread holds the cache open, the entry
    points are redirected in between and the original ones afterwards. *)
Theorem first_enable_disable (t : nat) (n : Z) (w : world) :
  configured w <> 0 ->
  tls w !! t = None ->
  TlsSetValue_ok = true ->
  0 <= initialized w < 2 ^ 31 - 1 ->
  (initialized w = 0 -> dwTlsIndex w = 0 -> TlsAlloc <> TLS_OUT_OF_INDEXES) ->
  caches w !! brk (mem w) = None ->
  heap (mem w) !! brk (mem w) = None ->
  exists w1 w2,
    fscache_enable t n w = Ret 0 w1 /\
    tls w1 !! t = Some (brk (mem w)) /\
    caches w1 !! brk (mem w) = Some empty_cache /\
    initialized w1 = initialized w + 1 /\
    (initialized w = 0 -> redirected w1) /\
    fscache_disable t w1 = Ret tt w2 /\
    tls w2 = tls w /\ caches w2 = caches w /\
    heap (mem w2) = heap (mem w) /\
    freed (mem w2) = freed (mem w) ++ [HeapObj (brk (mem w))] /\
    initialized w2 = initialized w /\
    (initialized w = 0 -> original w2).
Proof.
  intros Hc Ht Hs Hi Ha Hk Hh.
  destruct (wrap_long_succ_pred (initialized w)) as [I1 I2]; [lia|].
  unfold fscache_enable. rewrite configured_world.
  cbn [core_fscache with_core_fscache initialized dwTlsIndex].
  destruct (configured w =? 0) eqn:C0; [lia|].
  set (w0 := with_core_fscache (configured w) w).
  assert (exists ws,
    (if initialized w =? 0
     then match (if dwTlsIndex w =? 0
                 then if dwTlsIndex (with_dwTlsIndex TlsAlloc w0) =? TLS_OUT_OF_INDEXES
                      then inl (with_dwTlsIndex TlsAlloc w0)
                      else inr (with_dwTlsIndex TlsAlloc w0)
                 else inr w0) with
          | inl w => inl w
          | inr w => inr (redirect Fscache_opendir Fscache_lstat w)
          end
     else @inr world world w0) = inr ws /\
    mem ws = mem w /\ caches ws = caches w /\ tls ws = tls w /\
    initialized ws = initialized w /\ core_fscache ws = configured w /\
    (initialized w = 0 -> redirected ws)) as (ws & -> & M & K & T & I & C & R).
  { destruct (initialized w =? 0) eqn:I0.
    - destruct (dwTlsIndex w =? 0) eqn:D0.
      + cbn [dwTlsIndex with_dwTlsIndex].
        destruct (TlsAlloc =? TLS_OUT_OF_INDEXES) eqn:A0.
        * exfalso. apply Ha; lia.
        * eexists. split; [reflexivity|]. now repeat split.
      + eexists. split; [reflexivity|]. now repeat split.
    - eexists. split; [reflexivity|]. repeat split; lia. }
  unfold fscache_getcache.
  cbn [tls with_initialized xmalloc].
  rewrite T, Ht, Hs. cbn [negb].
  eexists. eexists. split; [reflexivity|].
  cbn [tls with_tls with_mem with_caches with_initialized caches mem initialized].
  rewrite M, K, T, I, I1.
  split; [now rewrite lookup_insert_eq|].
  split; [now rewrite lookup_insert_eq|].
  split; [reflexivity|].
  split; [exact R|].
  unfold fscache_disable, fscache_getcache.
  cbn [core_fscache tls with_tls with_mem with_caches with_initialized caches
       mem initialized].
  rewrite C, C0, !lookup_insert_eq.
  cbn [enabled with_enabled Z.eqb].
  change (wrap_long (1 - 1)) with 0. cbn [Z.eqb].
  unfold fscache_clear, free_cache, hashmap_free.
  cbn [map with_enabled fold_left mem with_mem with_caches with_tls caches tls
       initialized with_initialized].
  rewrite I2.
  split; [reflexivity|].
  assert (Et : delete t (<[t:=brk (mem w)]> (tls w)) = tls w)
    by (now apply delete_insert_id).
  assert (Ek : delete (brk (mem w))
                 (<[brk (mem w):=with_enabled 0 empty_cache]>
                    (<[brk (mem w):=empty_cache]> (caches w))) = caches w)
    by (rewrite insert_insert_eq; now apply delete_insert_id).
  assert (Eh : delete (brk (mem w)) (heap (mem w)) = heap (mem w))
    by (now apply delete_id).
  destruct (initialized w =? 0) eqn:I0;
    cbn [tls caches mem heap freed initialized redirect free xmalloc];
    (split; [exact Et|]); (split; [exact Ek|]); (split; [exact Eh|]);
    (split; [reflexivity|]); (split; [reflexivity|]).
  - intros _. now split.
  - intros Z0. lia.
Qed.

(** X17.  When [TlsAlloc] has no index left, the first [fscache_enable] of the
    process returns 0 like a successful call, but nothing is enabled: no
    cache is bound, [initialized] stays 0 and the entry points are the ones
    before.  A [fscache_disable] that pairs with it stops the process. *)
Theorem enable_without_tls_index (t : nat) (n : Z) (w : world) :
  configured w <> 0 ->
  initialized w = 0 ->
  dwTlsIndex w = 0 ->
  TlsAlloc = TLS_OUT_OF_INDEXES ->
  tls w !! t = None ->
  exists w1,
    fscache_enable t n w = Ret 0 w1 /\
    initialized w1 = 0 /\ tls w1 = tls w /\ caches w1 = caches w /\
    mem w1 = mem w /\ opendir w1 = opendir w /\ lstat w1 = lstat w /\
    dwTlsIndex w1 = TLS_OUT_OF_INDEXES /\
    fscache_disable t w1 =
      Fatal "fscache_disable() called on a thread where fscache has not been initialized".
Proof.
  intros Hc Hi Hd Ha Ht.
  unfold fscache_enable. rewrite configured_world.
  cbn [core_fscache with_core_fscache initialized dwTlsIndex with_dwTlsIndex].
  destruct (configured w =? 0) eqn:C0; [lia|].
  rewrite Hi, Hd, Ha. cbn [Z.eqb]. rewrite Z.eqb_refl.
  eexists. split; [reflexivity|].
  cbn [initialized tls caches mem opendir lstat dwTlsIndex].
  repeat (split; [try reflexivity; assumption|]).
  unfold fscache_disable, fscache_getcache.
  cbn [core_fscache tls with_dwTlsIndex with_core_fscache].
  now rewrite C0, Ht.
Qed.

End Enable.

Lemma nested_enable_disable_witness :
  exists w1,
    fscache_enable (P := toy) 0 0 toy_world = Ret 0 w1 /\
    caches w1 !! 1%positive =
      Some (with_enabled (enabled empty_cache + 1) empty_cache) /\
    initialized w1 = initialized toy_world + 1 /\
    fscache_disable 0 w1 =
      Ret tt (with_core_fscache (configured (H := toy) toy_world) toy_world).
Proof.
  apply (nested_enable_disable (P := toy) 0 0 toy_world 1 empty_cache);
    vm_compute; try reflexivity; try discriminate; split; reflexivity.
Defined.

Lemma first_enable_disable_witness :
  exists w1 w2,
    fscache_enable (P := toy) 0 0 boot_world = Ret 0 w1 /\
    tls w1 !! 0%nat = Some (brk (mem boot_world)) /\
    caches w1 !! brk (mem boot_world) = Some empty_cache /\
    initialized w1 = initialized boot_world + 1 /\
    (initialized boot_world = 0 -> redirected w1) /\
    fscache_disable 0 w1 = Ret tt w2 /\
    tls w2 = tls boot_world /\ caches w2 = caches boot_world /\
    heap (mem w2) = heap (mem boot_world) /\
    freed (mem w2) = freed (mem boot_world) ++ [HeapObj (brk (mem boot_world))] /\
    initialized w2 = initialized boot_world /\
    (initialized boot_world = 0 -> original w2).
Proof.
  apply (first_enable_disable (P := toy) 0 0 boot_world).
  - vm_compute; discriminate.
  - vm_compute; reflexivity.
  - reflexivity.
  - vm_compute. split; [discriminate | reflexivity].
  - intros _ _. vm_compute; discriminate.
  - vm_compute; reflexivity.
  - vm_compute; reflexivity.
Defined.

Lemma enable_without_tls_index_witness :
  exists w1,
    fscache_enable (P := toy_no_tls) 0 0 boot_world = Ret 0 w1 /\
    initialized w1 = 0 /\ tls w1 = tls boot_world /\
    caches w1 = caches boot_world /\
    mem w1 = mem boot_world /\ opendir w1 = opendir boot_world /\
    lstat w1 = lstat boot_world /\
    dwTlsIndex w1 = TLS_OUT_OF_INDEXES /\
    fscache_disable 0 w1 =
      Fatal "fscache_disable() called on a thread where fscache has not been initialized".
Proof.
  apply (enable_without_tls_index (P := toy_no_tls) 0 0 boot_world).
  - vm_compute; discriminate.
  - reflexivity.
  - reflexivity.
  - reflexivity.
  - vm_compute; reflexivity.
Defined.

(** ** Merging a thread's cache into another *)

Lemma find_app {A} (f : A -> bool) (l1 l2 : list A) :
  find f (l1 ++ l2) =
  match find f l1 with Some x => Some x | None => find f l2 end.
Proof.
  induction l1 as [|x l1 IH]; [reflexivity|]. simpl.
  now destruct (f x).
Qed.

Lemma find_is_Some_iff {A} (f : A -> bool) (l : list A) :
  is_Some (find f l) <-> exists x, In x l /\ f x = true.
Proof.
  split.
  - intros [x E]. exists x. now apply find_some in E.
  - intros (x & I & F). destruct (find f l) eqn:E; [eauto|].
    pose proof (find_none _ _ E x I) as N. congruence.
Qed.

Lemma find_rev_is_Some {A} (f : A -> bool) (l : list A) :
  is_Some (find f (rev l)) <-> is_Some (find f l).
Proof.
  rewrite !find_is_Some_iff. split; intros (x & I & F); exists x; split; trivial.
  - now apply in_rev.
  - now apply in_rev in I.
Qed.

Lemma find_rev_None {A} (f : A -> bool) (l : list A) :
  find f l = None -> find f (rev l) = None.
Proof.
  intros N. destruct (find f (rev l)) eqn:E; [|reflexivity].
  assert (S : is_Some (find f l)) by (apply find_rev_is_Some; eauto).
  rewrite N in S. now destruct S.
Qed.

Section Merge.
Context {P : Platform}.

(** X18.  [fscache_merge] moves the entries of the calling thread's cache into
    [dest]: a key is found in the merged table exactly when one of the two
    tables had it, and a key the thread's table did not have is answered by
    [dest] as before.  The thread loses its cache, whose block is the only
    thing freed; the entries stay allocated and the entry points are left as
    they are. *)
Theorem merge_keeps_entries (t : nat) (c d : positive) (w : world)
    (cache dst : fscache) :
  tls w !! t = Some c ->
  caches w !! c = Some cache ->
  caches w !! d = Some dst ->
  c <> d ->
  exists w' dst',
    fscache_merge t (Some d) w = Ret tt w' /\
    caches w' !! d = Some dst' /\
    caches w' !! c = None /\
    tls w' !! t = None /\
    (forall key,
       is_Some (hashmap_get (map dst') key) <->
       is_Some (hashmap_get (map cache) key) \/
       is_Some (hashmap_get (map dst) key)) /\
    (forall key,
       hashmap_get (map cache) key = None ->
       hashmap_get (map dst') key = hashmap_get (map dst) key) /\
    freed (mem w') = freed (mem w) ++ [HeapObj c] /\
    (forall a, a <> c -> heap (mem w') !! a = heap (mem w) !! a) /\
    opendir w' = opendir w /\ lstat w' = lstat w.
Proof.
  intros Ht Hc Hd Ne.
  unfold fscache_merge, fscache_getcache. rewrite Ht, Hc, Hd.
  destruct (Pos.eqb c d) eqn:E; [apply Pos.eqb_eq in E; contradiction|].
  eexists. eexists. split; [reflexivity|].
  unfold free_cache.
  cbn [caches tls mem with_tls with_caches with_mem with_initialized opendir
       lstat free freed heap].
  split; [rewrite lookup_delete_ne by exact Ne; now rewrite lookup_insert_eq|].
  split; [now rewrite lookup_delete_eq|].
  split; [now rewrite lookup_delete_eq|].
  cbn [map]. rewrite fold_hashmap_add. unfold hashmap_get.
  split.
  { intros key. rewrite find_app.
    destruct (find (fun e => entry_equals e key) (rev (map cache))) eqn:F.
    - split; [|eauto]. intros _. left. apply find_rev_is_Some.
      unfold hashmap in *. rewrite F. eauto.
    - split; [now right|]. intros [S|S]; [|exact S].
      apply find_rev_is_Some in S. unfold hashmap in *.
      rewrite F in S. now destruct S. }
  split.
  { intros key N. rewrite find_app.
    now rewrite (find_rev_None _ _ N). }
  split; [reflexivity|].
  split; [intros a Na; now rewrite lookup_delete_ne by congruence|].
  now split.
Qed.

End Merge.

Lemma merge_keeps_entries_witness :
  exists w' dst',
    fscache_merge (P := toy) 1 (Some 1%positive) two_threads = Ret tt w' /\
    caches w' !! 1%positive = Some dst' /\
    caches w' !! 2%positive = None /\
    tls w' !! 1%nat = None /\
    (forall key,
       is_Some (hashmap_get (map dst') key) <->
       is_Some (hashmap_get
                  (map (default empty_cache (caches two_threads !! 2%positive)))
                  key) \/
       is_Some (hashmap_get (map (cache0 two_threads)) key)) /\
    (forall key,
       hashmap_get
         (map (default empty_cache (caches two_threads !! 2%positive))) key
       = None ->
       hashmap_get (map dst') key =
       hashmap_get (map (cache0 two_threads)) key) /\
    freed (mem w') = freed (mem two_threads) ++ [HeapObj 2%positive] /\
    (forall a, a <> 2%positive ->
       heap (mem w') !! a = heap (mem two_threads) !! a) /\
    opendir w' = opendir two_threads /\ lstat w' = lstat two_threads.
Proof.
  apply (merge_keeps_entries (P := toy) 1 2 1 two_threads).
  - vm_compute; reflexivity.
  - vm_compute; reflexivity.
  - vm_compute; reflexivity.
  - discriminate.
Defined.

(** ** Asking whether the cache is in use *)

Section Enabled.
Context {P : Platform}.

(** X19.  [fscache_enabled] changes nothing, and it answers no for a path
    exactly when [fscache_lstat] and [fscache_opendir] hand that path to the
    original implementations, leaving the cache and its counters alone. *)
Theorem enabled_decides_fallback (t : nat) (path : string) (st : stat.t)
    (w w' : world) (b : bool) :
  fscache_enabled t path w = Ret b w' ->
  w' = w /\
  (b = false <-> fscache_lstat t path st w = Ret To_mingw_lstat w) /\
  (b = false <-> fscache_opendir t path w = Ret To_dirent_opendir w).
Proof.
  unfold fscache_enabled, fscache_lstat, fscache_opendir.
  destruct (fscache_getcache t w) as [c|]; [|intros [= <- <-]; tauto].
  destruct (caches w !! c) as [cache|]; [|discriminate].
  intros [= <- <-]. split; [reflexivity|].
  destruct (do_fscache_enabled cache path); cbn [negb]; [|tauto].
  split; (split; [discriminate|]).
  - destruct (lstat_keys path) as [k0 k1].
    destruct (fscache_get _ k1 (mem w)) as [[[fse|] cache'] m]; [|discriminate].
    destruct (stat_members m fse); discriminate.
  - destruct (fscache_get _ (opendir_key path) (mem w)) as [[[lst|] cache'] m];
      [|discriminate].
    destruct (xmalloc m). discriminate.
Qed.

End Enabled.

Lemma enabled_decides_fallback_witness :
  toy_world = toy_world /\
  (true = false <->
   fscache_lstat (P := toy) 0 "src/Main.c" stat0 toy_world
   = Ret To_mingw_lstat toy_world) /\
  (true = false <->
   fscache_opendir (P := toy) 0 "src/Main.c" toy_world
   = Ret To_dirent_opendir toy_world).
Proof.
  apply (enabled_decides_fallback (P := toy) 0 "src/Main.c" stat0
           toy_world toy_world true).
  vm_compute; reflexivity.
Defined.

(** ** The stat data of an entry *)

Lemma lor_high_low (lo hi : Z) :
  0 <= lo < 2 ^ 32 -> Z.lor lo (hi * 2 ^ 32) = lo + hi * 2 ^ 32.
Proof.
  intros R.
  assert (D : Z.land lo (hi * 2 ^ 32) = 0).
  { apply Z.bits_inj'. intros k Hk. rewrite Z.land_spec, Z.bits_0.
    destruct (Z.lt_ge_cases k 32) as [L|G].
    - rewrite (Z.mul_pow2_bits_low hi 32 k) by lia. apply andb_false_r.
    - destruct (Z.eq_dec lo 0) as [->|N]; [now rewrite Z.bits_0|].
      rewrite (Z.bits_above_log2 lo k); [reflexivity|lia|].
      apply Z.lt_le_trans with 32; [|exact G].
      apply Z.log2_lt_pow2; lia. }
  rewrite <- Z.lxor_lor by exact D. symmetry. now apply Z.add_nocarry_lxor.
Qed.

Section Entry_stat.
Context {P : Platform}.

(** X20.  The entry made from a record of the enumeration carries the record's
    name and the mode [file_attr_to_st_mode] gives it; its size is the
    64-bit value of the two size words, also beyond 4 GB, except that a
    symbolic link has the size [MAX_LONG_PATH]; its three times are the
    record's, converted. *)
Theorem entry_stat_from_find_data (lst : option fsentry)
    (fdata : WIN32_FIND_DATAW) (m : memory) :
  0 <= nFileSizeLow fdata < 2 ^ 32 ->
  0 <= nFileSizeHigh fdata < 2 ^ 31 ->
  exists sd,
    stat_members (snd (fseentry_create_entry lst fdata m))
                 (fst (fseentry_create_entry lst fdata m)) = Some sd /\
    name (fst (fseentry_create_entry lst fdata m)) = xwcstoutf (cFileName fdata) /\
    st_size sd =
      (if S_ISLNK (st_mode (fst (fseentry_create_entry lst fdata m)))
       then MAX_LONG_PATH
       else nFileSizeLow fdata + 2 ^ 32 * nFileSizeHigh fdata) /\
    st_atim sd = filetime_to_timespec (ftLastAccessTime fdata) /\
    st_mtim sd = filetime_to_timespec (ftLastWriteTime fdata) /\
    st_ctim sd = filetime_to_timespec (ftCreationTime fdata).
Proof.
  intros Hl Hh.
  unfold fseentry_create_entry, fsentry_alloc, xmalloc.
  cbv beta iota zeta. unfold heap_store, set_st_mode, fsentry_init, blank.
  cbn [addr fst snd name st_mode].
  unfold stat_members, heap_at. cbn [addr heap with_heap].
  rewrite lookup_insert_eq. eexists. split; [reflexivity|].
  cbn [st_size st_atim st_mtim st_ctim].
  split; [apply memcpy_all|].
  split; [|now repeat split].
  match goal with |- (if ?b then _ else _) = _ => destruct b end;
    [reflexivity|].
  rewrite Z.shiftl_mul_pow2 by lia.
  assert (W : wrap_off64 (nFileSizeHigh fdata * 2 ^ 32)
              = nFileSizeHigh fdata * 2 ^ 32)
    by (unfold wrap_off64; rewrite Z.mod_small; lia).
  rewrite W, lor_high_low by exact Hl. lia.
Qed.

End Entry_stat.

Lemma entry_stat_from_find_data_witness :
  exists sd,
    stat_members (P := toy)
      (snd (fseentry_create_entry (P := toy) None toy_big_file toy_memory))
      (fst (fseentry_create_entry (P := toy) None toy_big_file toy_memory))
    = Some sd /\
    name (fst (fseentry_create_entry (P := toy) None toy_big_file toy_memory))
    = xwcstoutf (Platform := toy) (cFileName toy_big_file) /\
    st_size sd =
      (if S_ISLNK (st_mode (fst (fseentry_create_entry (P := toy) None
                                   toy_big_file toy_memory)))
       then MAX_LONG_PATH
       else nFileSizeLow toy_big_file + 2 ^ 32 * nFileSizeHigh toy_big_file) /\
    st_atim sd =
      filetime_to_timespec (Platform := toy) (ftLastAccessTime toy_big_file) /\
    st_mtim sd =
      filetime_to_timespec (Platform := toy) (ftLastWriteTime toy_big_file) /\
    st_ctim sd =
      filetime_to_timespec (Platform := toy) (ftCreationTime toy_big_file).
Proof.
  apply (entry_stat_from_find_data (P := toy) None toy_big_file toy_memory);
    vm_compute; split; (discriminate || reflexivity).
Defined.

(** ** Keys of one kind, and names that differ in case *)

(** X21.  For two keys of the same kind (both listing headers, or both
    entries of listings) whose names are C strings, [fsentry_cmp] returns 0
    exactly when the keys are equal as the specification has it: equal
    parents by the same comparison, equal name lengths, and names equal up
    to case. *)
Theorem same_kind_keys_equal (k1 k2 : fsentry) :
  c_names k1 = true -> c_names k2 = true -> depth k1 = depth k2 ->
  fsentry_cmp k1 k2 = 0 <-> key_equal k1 k2 = true.
Proof. apply fsentry_cmp_key_equal. Qed.

Lemma same_kind_keys_equal_witness :
  (fsentry_cmp (snd (lstat_keys (P := toy) "Dir/File"))
               (snd (lstat_keys (P := toy) "dir/file")) = 0 <->
   key_equal (snd (lstat_keys (P := toy) "Dir/File"))
             (snd (lstat_keys (P := toy) "dir/file")) = true) /\
  key_equal (snd (lstat_keys (P := toy) "Dir/File"))
            (snd (lstat_keys (P := toy) "dir/file")) = true.
Proof.
  split; [|vm_compute; reflexivity].
  apply (same_kind_keys_equal (snd (lstat_keys (P := toy) "Dir/File"))
           (snd (lstat_keys (P := toy) "dir/file")));
    vm_compute; reflexivity.
Defined.

Lemma length_lower s : String.length (lower s) = String.length s.
Proof. induction s as [|c r IH]; simpl; [reflexivity|now rewrite IH]. Qed.

Lemma tolower_sep c : is_dir_sep (tolower c) = is_dir_sep c.
Proof. destruct c as [[] [] [] [] [] [] [] []]; reflexivity. Qed.

Lemma tolower_dot c : Ascii.eqb (tolower c) "." = Ascii.eqb c ".".
Proof. destruct c as [[] [] [] [] [] [] [] []]; reflexivity. Qed.

Lemma char_at_lower s : forall i, char_at (lower s) i = tolower (char_at s i).
Proof.
  induction s as [|c r IH]; intros [|i]; simpl; try reflexivity. apply IH.
Qed.

Lemma lower_offset s n : lower (offset s n) = offset (lower s) n.
Proof.
  revert s. induction n as [|n IH]; intros [|c r]; simpl; try reflexivity.
  apply IH.
Qed.

Section Case.
Variables f1 f2 : string.
Hypothesis same : lower f1 = lower f2.

Lemma length_same : String.length f1 = String.length f2.
Proof. now rewrite <- (length_lower f1), <- (length_lower f2), same. Qed.

Lemma sep_same i : is_dir_sep (char_at f1 i) = is_dir_sep (char_at f2 i).
Proof.
  rewrite <- (tolower_sep (char_at f1 i)), <- (tolower_sep (char_at f2 i)).
  now rewrite <- !char_at_lower, same.
Qed.

Lemma dot_same i :
  Ascii.eqb (char_at f1 i) "." = Ascii.eqb (char_at f2 i) ".".
Proof.
  rewrite <- (tolower_dot (char_at f1 i)), <- (tolower_dot (char_at f2 i)).
  now rewrite <- !char_at_lower, same.
Qed.

Lemma find_base_same n : find_base f1 n = find_base f2 n.
Proof.
  induction n as [|n IH]; [reflexivity|]. simpl.
  now rewrite (sep_same n), IH.
Qed.

Lemma memcpy_same n : lower (memcpy f1 n) = lower (memcpy f2 n).
Proof. now rewrite !lower_memcpy, same. Qed.

Lemma offset_same n : lower (offset f1 n) = lower (offset f2 n).
Proof. now rewrite !lower_offset, same. Qed.

Context {P : Platform}.
Hypothesis memihash_ci :
  forall s1 s2 n, lower (memcpy s1 n) = lower (memcpy s2 n) ->
                  memihash s1 n = memihash s2 n.

Lemma lstat_keys_same :
  ci_same (fst (lstat_keys f1)) (fst (lstat_keys f2)) /\
  ent_hash (fst (lstat_keys f1)) = ent_hash (fst (lstat_keys f2)) /\
  ci_same (snd (lstat_keys f1)) (snd (lstat_keys f2)) /\
  ent_hash (snd (lstat_keys f1)) = ent_hash (snd (lstat_keys f2)).
Proof.
  unfold lstat_keys. rewrite <- length_same.
  rewrite <- (sep_same (String.length f1 - 1)).
  set (n := if (negb (Nat.eqb (String.length f1) 0) &&
                is_dir_sep (char_at f1 (String.length f1 - 1)))%bool
            then (String.length f1 - 1)%nat else String.length f1).
  rewrite <- (find_base_same n).
  set (base := find_base f1 n).
  set (dirlen := if Nat.eqb base 0 then O else (base - 1)%nat).
  unfold fsentry_init, fsentry_hash, blank.
  cbn [fst snd addr ent_hash st_mode len name fse_list ci_same].
  rewrite (memihash_ci f1 f2 _ (memcpy_same _)).
  rewrite (memihash_ci (offset f1 base) (offset f2 base) (wrap_ushort (n - base)))
    by (now rewrite !lower_memcpy, offset_same).
  pose proof (offset_same base). repeat split; auto.
Qed.

Lemma opendir_key_same :
  ci_same (opendir_key f1) (opendir_key f2) /\
  ent_hash (opendir_key f1) = ent_hash (opendir_key f2).
Proof.
  unfold opendir_key. rewrite <- length_same.
  rewrite <- (sep_same (String.length f1 - 1)), <- (dot_same 0).
  unfold fsentry_init, fsentry_hash, blank.
  cbn [addr ent_hash st_mode len name fse_list ci_same].
  rewrite (memihash_ci f1 f2 _ (memcpy_same _)).
  repeat split; auto.
Qed.

(** X22.  With a case-insensitive [memihash], two names that differ in case
    only address the same entries: the file key and the directory key of
    lstat, and the key of opendir, made from the one name find in every
    table what the keys made from the other find.  So lstat("Dir/File") and
    lstat("dir/file") resolve to the same cached entry. *)
Theorem lookup_ignores_case (mp : hashmap) :
  hashmap_get mp (snd (lstat_keys f1)) = hashmap_get mp (snd (lstat_keys f2)) /\
  hashmap_get mp (fst (lstat_keys f1)) = hashmap_get mp (fst (lstat_keys f2)) /\
  hashmap_get mp (opendir_key f1) = hashmap_get mp (opendir_key f2).
Proof.
  destruct lstat_keys_same as (A & B & C & D).
  destruct opendir_key_same as (E & F).
  repeat split; now apply hashmap_get_ci_same.
Qed.

End Case.

Lemma lookup_ignores_case_witness :
  let mp := map (cache0 (after_lstat "Dir/File" toy_world)) in
  (hashmap_get mp (snd (lstat_keys (P := toy) "Dir/File")) =
   hashmap_get mp (snd (lstat_keys (P := toy) "dir/file")) /\
   hashmap_get mp (fst (lstat_keys (P := toy) "Dir/File")) =
   hashmap_get mp (fst (lstat_keys (P := toy) "dir/file")) /\
   hashmap_get mp (opendir_key (P := toy) "Dir/File") =
   hashmap_get mp (opendir_key (P := toy) "dir/file")) /\
  option_map name (hashmap_get mp (snd (lstat_keys (P := toy) "dir/file"))) =
    Some "File"%string.
Proof.
  split; [|vm_compute; reflexivity].
  apply (lookup_ignores_case "Dir/File" "dir/file" eq_refl (P := toy)
           toy_memihash_ci).
Defined.
